(** * mmlib.simulate: molecular dynamics and Metropolis Monte-Carlo drivers

    A shallow embedding of [scripts/molecular_mechanics/mmlib/simulate.py].

    The [Simulation] object becomes the record [Sim]; every method is a
    computation in a state-and-exception monad over [Sim].  The collaborators
    that live outside the module (the energy model of [mmlib.energy] and
    [mmlib.molecule], numpy's random generator, the wall clock) are the
    fields of the class [Env].

    Python floats are kept abstract behind the class [Arith]: the driver is
    written once and read at two instances, the real numbers (used for the
    statements that involve [exp]) and IEEE binary64 (used where rounding
    decides the answer, as for the number of MD steps).  Arithmetic
    operators are the total operations of the instance; the exceptions that
    are modelled are those of the energy model, of indexing the gradient
    and displacement arrays, of writing to a closed file, and the division
    by a zero trial count in [changedisp]. *)

From Stdlib Require Floats.
From Stdlib Require String Ascii.
From Stdlib Require Import Reals Lra ZArith Lia List Bool.
Import ListNotations.

Set Implicit Arguments.

(** ** Numbers *)

Declare Scope fl_scope.
Delimit Scope fl_scope with fl.

(** The float operations the module uses.  [dec m k] is the decimal literal
    [m * 10^-k], so [dec 4184 1] reads [418.4] and [dec 1 10] reads
    [10**-10]. *)
Class Arith (F : Type) := {
  dec : Z -> nat -> F;
  fadd : F -> F -> F;
  fsub : F -> F -> F;
  fmul : F -> F -> F;
  fdiv : F -> F -> F;
  fopp : F -> F;
  fsqrt : F -> F;
  fltb : F -> F -> bool;
  fleb : F -> F -> bool
}.

(** [math.exp] and [float(n)] for an integer [n]. *)
Class Elementary (F : Type) := {
  fexp : F -> F;
  of_int : Z -> F
}.

Infix "+" := fadd : fl_scope.
Infix "-" := fsub : fl_scope.
Infix "*" := fmul : fl_scope.
Infix "/" := fdiv : fl_scope.
Notation "- x" := (fopp x) : fl_scope.
Infix "<?" := fltb : fl_scope.
Infix "<=?" := fleb : fl_scope.
Notation "x >? y" := (fltb y x) : fl_scope.
Notation "x >=? y" := (fleb y x) : fl_scope.

(** Python's two-argument [min(a, b)]: [b] when [b < a], else [a]. *)
Definition fmin {F} `{Arith F} (a b : F) : F := if (b <? a)%fl then b else a.

(** *** The real numbers *)

Definition Rltb (x y : R) : bool := if Rlt_dec x y then true else false.
Definition Rleb (x y : R) : bool := if Rle_dec x y then true else false.

#[export] Instance R_arith : Arith R := {|
  dec := fun m k => (IZR m / 10 ^ k)%R;
  fadd := Rplus;
  fsub := Rminus;
  fmul := Rmult;
  fdiv := Rdiv;
  fopp := Ropp;
  fsqrt := sqrt;
  fltb := Rltb;
  fleb := Rleb
|}.

#[export] Instance R_elementary : Elementary R := {|
  fexp := exp;
  of_int := IZR
|}.

(** *** IEEE binary64 *)

Definition float : Set := PrimFloat.float.

(** The nearest binary64 value of an integer. *)
Definition b64_of_Z (z : Z) : float :=
  FloatOps.SF2Prim (SpecFloat.binary_normalize 53 1024 z 0 false).

(** A decimal literal with at most 15 significant digits and [k <= 22] is
    the quotient of two exactly representable integers, so one correctly
    rounded division yields the value Python reads for it. *)
#[export] Instance b64_arith : Arith float := {|
  dec := fun m k => PrimFloat.div (b64_of_Z m) (b64_of_Z (10 ^ Z.of_nat k));
  fadd := PrimFloat.add;
  fsub := PrimFloat.sub;
  fmul := PrimFloat.mul;
  fdiv := PrimFloat.div;
  fopp := PrimFloat.opp;
  fsqrt := PrimFloat.sqrt;
  fltb := PrimFloat.ltb;
  fleb := PrimFloat.leb
|}.

(** ** Module-level functions *)

Section Constants.
Context {F : Type} `{Arith F}.

(** Gas constant in [amu*A^2/(ps^2*K)]. *)
Definition rgas : F := dec 83144598 8.

(** Conversion of acceleration from [kcal/(A*g)] to [A/(ps^2)]. *)
Definition acc_conv : F := dec 4184 1.
End Constants.

(** ** Atoms and molecules

    The part of [mmlib.molecule] that the driver touches: per atom a mass
    and six 3-vectors, per molecule the atom list, the gradient array and
    the quantities the energy model leaves behind. *)

Inductive ix3 : Type := J0 | J1 | J2.

Record V3 (F : Type) : Type := mkV3 { c0 : F; c1 : F; c2 : F }.
Arguments mkV3 {F} _ _ _.

Definition nth3 {F} (v : V3 F) (j : ix3) : F :=
  match j with J0 => c0 v | J1 => c1 v | J2 => c2 v end.

(** [for j in range(3): v[j] = f(j)]. *)
Definition tab3 {F} (f : ix3 -> F) : V3 F := mkV3 (f J0) (f J1) (f J2).

Record Atom (F : Type) : Type := mkAtom {
  mass : F;
  coords : V3 F;
  vels : V3 F;
  accs : V3 F;
  pcoords : V3 F;
  pvels : V3 F;
  paccs : V3 F
}.

Arguments mass {F} _.
Arguments coords {F} _.
Arguments vels {F} _.
Arguments accs {F} _.
Arguments pcoords {F} _.
Arguments pvels {F} _.
Arguments paccs {F} _.

Record Mol (F : Type) : Type := mkMol {
  atoms : list (Atom F);
  g_total : list (V3 F);
  e_total : F;
  mol_temp : F
}.

(** [mol.n_atoms]: the molecule keeps it equal to [len(mol.atoms)]. *)
Definition n_atoms {F} (m : Mol F) : nat := length (atoms m).

Definition set_atoms {F} (l : list (Atom F)) (m : Mol F) : Mol F :=
  {| atoms := l; g_total := g_total m; e_total := e_total m; mol_temp := mol_temp m |}.

(** ** Output files

    A file handle is the pair of its buffer and of what has reached the
    disk.  The text that [print_energy] and [fileio.print_coords_file]
    format is kept as one record per call: the label it is printed under
    and the molecule it is printed from. *)

Inductive Stamp (F : Type) : Type :=
| AtTime (t : F)
| AtConf (c : Z).

Inductive Row (F : Type) : Type :=
| Header
| EnergyRow (st : Stamp F) (m : Mol F)
| GeomFrame (st : Stamp F) (m : Mol F).
Arguments Header {F}.

Record File (F : Type) : Type := mkFile {
  is_open : bool;
  pending : list (Row F);
  disk : list (Row F)
}.

(** [open(path, "w")]. *)
Definition f_open {F} : File F := mkFile true [] [].

Definition f_write {F} (r : Row F) (f : File F) : File F :=
  mkFile (is_open f) (pending f ++ [r]) (disk f).

Definition f_flush {F} (f : File F) : File F :=
  mkFile (is_open f) [] (disk f ++ pending f).

Definition f_close {F} (f : File F) : File F :=
  if is_open f then mkFile false [] (disk f ++ pending f) else f.

(** ** The simulation object *)

Inductive SimType : Type := md | mc.

Inductive EvalMode : Type := standard | leapfrog.

(** The attributes that are set by [__init__] and [read_in_data] and that
    no method assigns afterwards. *)
Record Cfg (F : Type) : Type := mkCfg {
  simtype : SimType;
  temp : F;
  press : F;
  statustime : F;
  seed : option Z;
  tottime : F;
  timestep : F;
  eqtime : F;
  eqrate : F;
  energytime : F;
  geomtime : F;
  totconfs : Z;
  dispinc : F;
  dispconf : Z;
  energyconf : Z;
  geomconf : Z
}.

(** The attributes that the methods assign, followed by the state of the
    world the object talks to: numpy's global generator, the number of
    [time.time()] readings taken so far, and the lines printed to the
    terminal. *)
Record Sim (F Rng : Type) : Type := mkSim {
  cfg : Cfg F;
  mol : Mol F;
  time : F;
  etemp : F;
  conf : Z;
  dispmag : F;
  n_accept : Z;
  n_reject : Z;
  rand_disp : list (V3 F);
  gfile : File F;
  efile : File F;
  stime : F;
  gtime : F;
  etime : F;
  gconf : Z;
  econf : Z;
  dconf : Z;
  rng : Rng;
  ticks : nat;
  stdout : list (Stamp F)
}.

Section Setters.
Context {F Rng : Type}.
Implicit Type s : Sim F Rng.

Definition set_mol (v : Mol F) s : Sim F Rng :=
  {| cfg := cfg s; mol := v; time := time s; etemp := etemp s;
     conf := conf s; dispmag := dispmag s; n_accept := n_accept s;
     n_reject := n_reject s; rand_disp := rand_disp s; gfile := gfile s;
     efile := efile s; stime := stime s; gtime := gtime s;
     etime := etime s; gconf := gconf s; econf := econf s;
     dconf := dconf s; rng := rng s; ticks := ticks s; stdout := stdout s |}.

Definition set_time (v : F) s : Sim F Rng :=
  {| cfg := cfg s; mol := mol s; time := v; etemp := etemp s;
     conf := conf s; dispmag := dispmag s; n_accept := n_accept s;
     n_reject := n_reject s; rand_disp := rand_disp s; gfile := gfile s;
     efile := efile s; stime := stime s; gtime := gtime s;
     etime := etime s; gconf := gconf s; econf := econf s;
     dconf := dconf s; rng := rng s; ticks := ticks s; stdout := stdout s |}.

Definition set_etemp (v : F) s : Sim F Rng :=
  {| cfg := cfg s; mol := mol s; time := time s; etemp := v;
     conf := conf s; dispmag := dispmag s; n_accept := n_accept s;
     n_reject := n_reject s; rand_disp := rand_disp s; gfile := gfile s;
     efile := efile s; stime := stime s; gtime := gtime s;
     etime := etime s; gconf := gconf s; econf := econf s;
     dconf := dconf s; rng := rng s; ticks := ticks s; stdout := stdout s |}.

Definition set_conf (v : Z) s : Sim F Rng :=
  {| cfg := cfg s; mol := mol s; time := time s; etemp := etemp s;
     conf := v; dispmag := dispmag s; n_accept := n_accept s;
     n_reject := n_reject s; rand_disp := rand_disp s; gfile := gfile s;
     efile := efile s; stime := stime s; gtime := gtime s;
     etime := etime s; gconf := gconf s; econf := econf s;
     dconf := dconf s; rng := rng s; ticks := ticks s; stdout := stdout s |}.

Definition set_dispmag (v : F) s : Sim F Rng :=
  {| cfg := cfg s; mol := mol s; time := time s; etemp := etemp s;
     conf := conf s; dispmag := v; n_accept := n_accept s;
     n_reject := n_reject s; rand_disp := rand_disp s; gfile := gfile s;
     efile := efile s; stime := stime s; gtime := gtime s;
     etime := etime s; gconf := gconf s; econf := econf s;
     dconf := dconf s; rng := rng s; ticks := ticks s; stdout := stdout s |}.

Definition set_n_accept (v : Z) s : Sim F Rng :=
  {| cfg := cfg s; mol := mol s; time := time s; etemp := etemp s;
     conf := conf s; dispmag := dispmag s; n_accept := v;
     n_reject := n_reject s; rand_disp := rand_disp s; gfile := gfile s;
     efile := efile s; stime := stime s; gtime := gtime s;
     etime := etime s; gconf := gconf s; econf := econf s;
     dconf := dconf s; rng := rng s; ticks := ticks s; stdout := stdout s |}.

Definition set_n_reject (v : Z) s : Sim F Rng :=
  {| cfg := cfg s; mol := mol s; time := time s; etemp := etemp s;
     conf := conf s; dispmag := dispmag s; n_accept := n_accept s;
     n_reject := v; rand_disp := rand_disp s; gfile := gfile s;
     efile := efile s; stime := stime s; gtime := gtime s;
     etime := etime s; gconf := gconf s; econf := econf s;
     dconf := dconf s; rng := rng s; ticks := ticks s; stdout := stdout s |}.

Definition set_rand_disp (v : list (V3 F)) s : Sim F Rng :=
  {| cfg := cfg s; mol := mol s; time := time s; etemp := etemp s;
     conf := conf s; dispmag := dispmag s; n_accept := n_accept s;
     n_reject := n_reject s; rand_disp := v; gfile := gfile s;
     efile := efile s; stime := stime s; gtime := gtime s;
     etime := etime s; gconf := gconf s; econf := econf s;
     dconf := dconf s; rng := rng s; ticks := ticks s; stdout := stdout s |}.

Definition set_gfile (v : File F) s : Sim F Rng :=
  {| cfg := cfg s; mol := mol s; time := time s; etemp := etemp s;
     conf := conf s; dispmag := dispmag s; n_accept := n_accept s;
     n_reject := n_reject s; rand_disp := rand_disp s; gfile := v;
     efile := efile s; stime := stime s; gtime := gtime s;
     etime := etime s; gconf := gconf s; econf := econf s;
     dconf := dconf s; rng := rng s; ticks := ticks s; stdout := stdout s |}.

Definition set_efile (v : File F) s : Sim F Rng :=
  {| cfg := cfg s; mol := mol s; time := time s; etemp := etemp s;
     conf := conf s; dispmag := dispmag s; n_accept := n_accept s;
     n_reject := n_reject s; rand_disp := rand_disp s; gfile := gfile s;
     efile := v; stime := stime s; gtime := gtime s; etime := etime s;
     gconf := gconf s; econf := econf s; dconf := dconf s; rng := rng s;
     ticks := ticks s; stdout := stdout s |}.

Definition set_stime (v : F) s : Sim F Rng :=
  {| cfg := cfg s; mol := mol s; time := time s; etemp := etemp s;
     conf := conf s; dispmag := dispmag s; n_accept := n_accept s;
     n_reject := n_reject s; rand_disp := rand_disp s; gfile := gfile s;
     efile := efile s; stime := v; gtime := gtime s; etime := etime s;
     gconf := gconf s; econf := econf s; dconf := dconf s; rng := rng s;
     ticks := ticks s; stdout := stdout s |}.

Definition set_gtime (v : F) s : Sim F Rng :=
  {| cfg := cfg s; mol := mol s; time := time s; etemp := etemp s;
     conf := conf s; dispmag := dispmag s; n_accept := n_accept s;
     n_reject := n_reject s; rand_disp := rand_disp s; gfile := gfile s;
     efile := efile s; stime := stime s; gtime := v; etime := etime s;
     gconf := gconf s; econf := econf s; dconf := dconf s; rng := rng s;
     ticks := ticks s; stdout := stdout s |}.

Definition set_etime (v : F) s : Sim F Rng :=
  {| cfg := cfg s; mol := mol s; time := time s; etemp := etemp s;
     conf := conf s; dispmag := dispmag s; n_accept := n_accept s;
     n_reject := n_reject s; rand_disp := rand_disp s; gfile := gfile s;
     efile := efile s; stime := stime s; gtime := gtime s; etime := v;
     gconf := gconf s; econf := econf s; dconf := dconf s; rng := rng s;
     ticks := ticks s; stdout := stdout s |}.

Definition set_gconf (v : Z) s : Sim F Rng :=
  {| cfg := cfg s; mol := mol s; time := time s; etemp := etemp s;
     conf := conf s; dispmag := dispmag s; n_accept := n_accept s;
     n_reject := n_reject s; rand_disp := rand_disp s; gfile := gfile s;
     efile := efile s; stime := stime s; gtime := gtime s;
     etime := etime s; gconf := v; econf := econf s; dconf := dconf s;
     rng := rng s; ticks := ticks s; stdout := stdout s |}.

Definition set_econf (v : Z) s : Sim F Rng :=
  {| cfg := cfg s; mol := mol s; time := time s; etemp := etemp s;
     conf := conf s; dispmag := dispmag s; n_accept := n_accept s;
     n_reject := n_reject s; rand_disp := rand_disp s; gfile := gfile s;
     efile := efile s; stime := stime s; gtime := gtime s;
     etime := etime s; gconf := gconf s; econf := v; dconf := dconf s;
     rng := rng s; ticks := ticks s; stdout := stdout s |}.

Definition set_dconf (v : Z) s : Sim F Rng :=
  {| cfg := cfg s; mol := mol s; time := time s; etemp := etemp s;
     conf := conf s; dispmag := dispmag s; n_accept := n_accept s;
     n_reject := n_reject s; rand_disp := rand_disp s; gfile := gfile s;
     efile := efile s; stime := stime s; gtime := gtime s;
     etime := etime s; gconf := gconf s; econf := econf s; dconf := v;
     rng := rng s; ticks := ticks s; stdout := stdout s |}.

Definition set_rng (v : Rng) s : Sim F Rng :=
  {| cfg := cfg s; mol := mol s; time := time s; etemp := etemp s;
     conf := conf s; dispmag := dispmag s; n_accept := n_accept s;
     n_reject := n_reject s; rand_disp := rand_disp s; gfile := gfile s;
     efile := efile s; stime := stime s; gtime := gtime s;
     etime := etime s; gconf := gconf s; econf := econf s;
     dconf := dconf s; rng := v; ticks := ticks s; stdout := stdout s |}.

Definition set_ticks (v : nat) s : Sim F Rng :=
  {| cfg := cfg s; mol := mol s; time := time s; etemp := etemp s;
     conf := conf s; dispmag := dispmag s; n_accept := n_accept s;
     n_reject := n_reject s; rand_disp := rand_disp s; gfile := gfile s;
     efile := efile s; stime := stime s; gtime := gtime s;
     etime := etime s; gconf := gconf s; econf := econf s;
     dconf := dconf s; rng := rng s; ticks := v; stdout := stdout s |}.

Definition set_stdout (v : list (Stamp F)) s : Sim F Rng :=
  {| cfg := cfg s; mol := mol s; time := time s; etemp := etemp s;
     conf := conf s; dispmag := dispmag s; n_accept := n_accept s;
     n_reject := n_reject s; rand_disp := rand_disp s; gfile := gfile s;
     efile := efile s; stime := stime s; gtime := gtime s;
     etime := etime s; gconf := gconf s; econf := econf s;
     dconf := dconf s; rng := rng s; ticks := ticks s; stdout := v |}.

End Setters.

(** ** Collaborators *)

Inductive exn : Type :=
| ZeroDivisionError
| IndexError
| ValueError
| ModelError (code : nat).

(** What the driver asks of the outside.  [get_energy] and [get_gradient]
    are the methods of the molecule: they return the molecule as they leave
    it and the exception they raise, if any.  [kb] is [energy.kb()].
    [rng_seed], [rng_normal] and [rng_random] are [numpy.random.seed],
    [numpy.random.normal] and [numpy.random.random] acting on the state of
    the global generator.  [wallclock k] is what the [k]-th call of
    [time.time()] returns. *)
Class Env (F Rng : Type) := {
  get_energy : EvalMode -> Mol F -> Mol F * option exn;
  get_gradient : Mol F -> Mol F * option exn;
  kb : F;
  rng_seed : option Z -> Rng -> Rng;
  rng_normal : F -> F -> Rng -> F * Rng;
  rng_random : Rng -> F * Rng;
  wallclock : nat -> F
}.

(** ** A state and exception monad *)

Inductive outcome (St A : Type) : Type :=
| Ok (a : A) (s : St)
| Raised (e : exn) (s : St)
| OutOfFuel.
Arguments OutOfFuel {St A}.
Arguments Raised {St A} e s.

Definition M (St A : Type) : Type := St -> outcome St A.

Definition ret {St A} (a : A) : M St A := fun s => Ok a s.

Definition bind {St A B} (m : M St A) (k : A -> M St B) : M St B :=
  fun s =>
    match m s with
    | Ok a s' => k a s'
    | Raised e s' => Raised e s'
    | OutOfFuel => OutOfFuel
    end.

Definition get {St} : M St St := fun s => Ok s s.

Definition modify {St} (f : St -> St) : M St unit := fun s => Ok tt (f s).

Definition raise {St A} (e : exn) : M St A := fun s => Raised e s.

Definition when {St} (b : bool) (m : M St unit) : M St unit :=
  if b then m else ret tt.

Notation "x <- m ;; k" := (bind m (fun x => k))
  (at level 61, m at next level, right associativity).
Notation "m ;; k" := (bind m (fun _ => k))
  (at level 61, right associativity).

(** [while cond: body], with a local variable threaded through the body.
    The result counts the executions of the body. *)
Fixpoint while {St L} (fuel : nat) (cond : L -> St -> bool) (body : L -> M St L)
    (l : L) (s : St) : outcome St (nat * L) :=
  match fuel with
  | O => if cond l s then OutOfFuel else Ok (O, l) s
  | S fuel' =>
      if cond l s then
        match body l s with
        | Ok l' s' =>
            match while fuel' cond body l' s' with
            | Ok (n, l'') s'' => Ok (S n, l'') s''
            | Raised e s'' => Raised e s''
            | OutOfFuel => OutOfFuel
            end
        | Raised e s' => Raised e s'
        | OutOfFuel => OutOfFuel
        end
      else Ok (O, l) s
  end.

(** ** Kinematic updates of one atom *)

Section AtomUpdates.
Context {F : Type} {AF : Arith F}.
Local Open Scope fl_scope.

Definition set_coords (v : V3 F) (a : Atom F) : Atom F :=
  {| mass := mass a; coords := v; vels := vels a; accs := accs a;
     pcoords := pcoords a; pvels := pvels a; paccs := paccs a |}.

Definition set_vels (v : V3 F) (a : Atom F) : Atom F :=
  {| mass := mass a; coords := coords a; vels := v; accs := accs a;
     pcoords := pcoords a; pvels := pvels a; paccs := paccs a |}.

Definition set_accs (v : V3 F) (a : Atom F) : Atom F :=
  {| mass := mass a; coords := coords a; vels := vels a; accs := v;
     pcoords := pcoords a; pvels := pvels a; paccs := paccs a |}.

Definition set_pcoords (v : V3 F) (a : Atom F) : Atom F :=
  {| mass := mass a; coords := coords a; vels := vels a; accs := accs a;
     pcoords := v; pvels := pvels a; paccs := paccs a |}.

Definition set_pvels (v : V3 F) (a : Atom F) : Atom F :=
  {| mass := mass a; coords := coords a; vels := vels a; accs := accs a;
     pcoords := pcoords a; pvels := v; paccs := paccs a |}.

Definition set_paccs (v : V3 F) (a : Atom F) : Atom F :=
  {| mass := mass a; coords := coords a; vels := vels a; accs := accs a;
     pcoords := pcoords a; pvels := pvels a; paccs := v |}.

(** The body of [update_accs] for atom [i], given the row [g_total[i]]. *)
Definition acc_atom (a : Atom F) (g : V3 F) : Atom F :=
  let m := mass a in
  set_accs (tab3 (fun j => - acc_conv * nth3 g j / m))
    (set_paccs (tab3 (fun j => nth3 (accs a) j)) a).

(** The body of [update_vels] for one atom. *)
Definition vel_atom (tstep : F) (a : Atom F) : Atom F :=
  set_vels (tab3 (fun j => nth3 (vels a) j + nth3 (accs a) j * tstep))
    (set_pvels (tab3 (fun j => nth3 (vels a) j)) a).

(** The body of [update_coords] for one atom: two successive [+=]. *)
Definition coord_atom (dt dt2 : F) (a : Atom F) : Atom F :=
  set_coords
    (tab3 (fun j => nth3 (coords a) j + nth3 (vels a) j * dt
                    + nth3 (accs a) j * dt2))
    (set_pcoords (tab3 (fun j => nth3 (coords a) j)) a).

(** The body of [zero_vels] for one atom. *)
Definition zero_atom (a : Atom F) : Atom F :=
  set_vels (tab3 (fun _ => dec 0 0)) a.

(** The body of [disp_coords] for atom [i], given the row [disp_vector[i]]. *)
Definition disp_atom (a : Atom F) (d : V3 F) : Atom F :=
  set_coords (tab3 (fun j => nth3 (coords a) j + nth3 d j))
    (set_pcoords (tab3 (fun j => nth3 (coords a) j)) a).

(** [vels[j] *= scale] for one atom. *)
Definition scale_atom (scale : F) (a : Atom F) : Atom F :=
  set_vels (tab3 (fun j => nth3 (vels a) j * scale)) a.

(** What is left of atom [i] when [g_total[i]] is out of range: the
    assignment [paccs[0] = accs[0]] has run.  Likewise for [disp_vector[i]]
    and [pcoords[0] = coords[0]]. *)
Definition acc_atom_partial (a : Atom F) : Atom F :=
  set_paccs (mkV3 (c0 (accs a)) (c1 (paccs a)) (c2 (paccs a))) a.

Definition disp_atom_partial (a : Atom F) : Atom F :=
  set_pcoords (mkV3 (c0 (coords a)) (c1 (pcoords a)) (c2 (pcoords a))) a.

(** A loop [for i in range(n_atoms)] whose body reads row [i] of an array:
    the atoms visited before the array ran out are updated, the boolean
    tells whether every atom found its row. *)
Fixpoint zip_rows (f : Atom F -> V3 F -> Atom F) (partial : Atom F -> Atom F)
    (l : list (Atom F)) (rows : list (V3 F)) : list (Atom F) * bool :=
  match l with
  | [] => ([], true)
  | a :: l' =>
      match rows with
      | [] => (partial a :: l', false)
      | r :: rows' =>
          let (l'', ok) := zip_rows f partial l' rows' in (f a r :: l'', ok)
      end
  end.

End AtomUpdates.

(** ** The methods of [Simulation] *)

Section Driver.
Context {F Rng : Type} {AF : Arith F} {W : Env F Rng}.
Local Open Scope fl_scope.

Local Abbreviation State := (Sim F Rng).
Local Abbreviation Run := (M (Sim F Rng)).

(** A loop over the atoms that needs no array besides the atoms. *)
Definition map_atoms (f : Atom F -> Atom F) (s : State) : State :=
  set_mol (set_atoms (map f (atoms (mol s))) (mol s)) s.

(** [self.mol.get_energy(mode)] and [self.mol.get_gradient('analytic')]. *)
Definition call_energy (mode : EvalMode) : Run unit :=
  fun s =>
    let (m, r) := get_energy mode (mol s) in
    match r with
    | None => Ok tt (set_mol m s)
    | Some e => Raised e (set_mol m s)
    end.

Definition call_gradient : Run unit :=
  fun s =>
    let (m, r) := get_gradient (mol s) in
    match r with
    | None => Ok tt (set_mol m s)
    | Some e => Raised e (set_mol m s)
    end.

(** [time.time()]. *)
Definition time_time : Run F :=
  fun s => Ok (wallclock (ticks s)) (set_ticks (S (ticks s)) s).

(** *** Velocities at the start of a trajectory *)

(** The first loop of [initialize_vels]: three draws per atom, in order. *)
Fixpoint draw_vels (T : F) (l : list (Atom F)) (g : Rng)
    : list (Atom F) * Rng :=
  match l with
  | [] => ([], g)
  | a :: l' =>
      let sigma := fsqrt (dec 2 0 * rgas * T / (dec 3 0 * mass a)) in
      let (x, g1) := rng_normal (dec 0 0) sigma g in
      let (y, g2) := rng_normal (dec 0 0) sigma g1 in
      let (z, g3) := rng_normal (dec 0 0) sigma g2 in
      let (l'', g') := draw_vels T l' g3 in
      (set_vels (mkV3 x y z) a :: l'', g')
  end.

Definition initialize_vels : Run unit :=
  s <- get ;;
  if temp (cfg s) >? dec 0 0 then
    modify (set_etemp (temp (cfg s))) ;;
    modify (fun s => set_rng (rng_seed (seed (cfg s)) (rng s)) s) ;;
    modify (fun s =>
      let (l, g) := draw_vels (temp (cfg s)) (atoms (mol s)) (rng s) in
      set_rng g (set_mol (set_atoms l (mol s)) s)) ;;
    call_energy standard ;;
    s <- get ;;
    let vscale := fsqrt (temp (cfg s) / mol_temp (mol s)) in
    modify (map_atoms (scale_atom vscale))
  else ret tt.

Definition equilibrate_temp : Run unit :=
  s <- get ;;
  let tscale := timestep (cfg s) / eqrate (cfg s) in
  let tweight := dec 10 0 * timestep (cfg s) in
  modify (set_etemp
    ((etemp s + tweight * mol_temp (mol s)) / (dec 1 0 + tweight))) ;;
  s <- get ;;
  let velscale :=
    dec 1 0 + tscale * (fsqrt (temp (cfg s) / etemp s) - dec 1 0) in
  modify (map_atoms (scale_atom velscale)).

(** *** Trial displacements *)

(** One pass of the inner loop body of [get_rand_disp]: [randval] is drawn
    and dropped, the entry is a further draw. *)
Definition draw_entry (sigma : F) (g : Rng) : F * Rng :=
  let (randval, g1) := rng_normal (dec 0 0) sigma g in
  rng_normal (dec 0 0) sigma g1.

Definition draw_row (sigma : F) (g : Rng) : V3 F * Rng :=
  let (x, g1) := draw_entry sigma g in
  let (y, g2) := draw_entry sigma g1 in
  let (z, g3) := draw_entry sigma g2 in
  (mkV3 x y z, g3).

Fixpoint draw_rows (n : nat) (sigma : F) (g : Rng) : list (V3 F) * Rng :=
  match n with
  | O => ([], g)
  | S n' =>
      let (r, g1) := draw_row sigma g in
      let (rs, g2) := draw_rows n' sigma g1 in
      (r :: rs, g2)
  end.

Definition get_rand_disp : Run unit :=
  modify (fun s =>
    let (rows, g) := draw_rows (n_atoms (mol s)) (dispmag s) (rng s) in
    set_rng g (set_rand_disp rows s)).

(** *** Accelerations, velocities, coordinates *)

Definition update_accs : Run unit :=
  fun s =>
    let (l, ok) :=
      zip_rows acc_atom acc_atom_partial (atoms (mol s)) (g_total (mol s)) in
    let s' := set_mol (set_atoms l (mol s)) s in
    if ok then Ok tt s' else Raised IndexError s'.

Definition update_vels (tstep : F) : Run unit :=
  modify (map_atoms (vel_atom tstep)).

(** [tstep**2] is the product [tstep * tstep]. *)
Definition update_coords (tstep vconst aconst : F) : Run unit :=
  let dt := vconst * tstep in
  let dt2 := aconst * (tstep * tstep) in
  modify (map_atoms (coord_atom dt dt2)).

Definition zero_vels : Run unit :=
  modify (map_atoms zero_atom).

Definition disp_coords (disp_vector : list (V3 F)) : Run unit :=
  fun s =>
    let (l, ok) :=
      zip_rows disp_atom disp_atom_partial (atoms (mol s)) disp_vector in
    let s' := set_mol (set_atoms l (mol s)) s in
    if ok then Ok tt s' else Raised IndexError s'.

(** *** Output *)

(** The label of a record: [self.time] in a dynamics run, [self.conf] in a
    Monte-Carlo run. *)
Definition stamp (s : State) : Stamp F :=
  match simtype (cfg s) with
  | md => AtTime (time s)
  | mc => AtConf F (conf s)
  end.

(** [file.write] and [file.flush] raise [ValueError] on a closed file. *)
Definition write_gfile (r : Row F) : Run unit :=
  s <- get ;;
  if is_open (gfile s) then modify (set_gfile (f_write r (gfile s)))
  else raise ValueError.

Definition write_efile (r : Row F) : Run unit :=
  s <- get ;;
  if is_open (efile s) then modify (set_efile (f_write r (efile s)))
  else raise ValueError.

Definition flush_gfile : Run unit :=
  s <- get ;;
  if is_open (gfile s) then modify (set_gfile (f_flush (gfile s)))
  else raise ValueError.

Definition flush_efile : Run unit :=
  s <- get ;;
  if is_open (efile s) then modify (set_efile (f_flush (efile s)))
  else raise ValueError.

Definition print_energy_header : Run unit := write_efile Header.

Definition print_geom : Run unit :=
  s <- get ;; write_gfile (GeomFrame (stamp s) (mol s)).

Definition print_energy : Run unit :=
  s <- get ;; write_efile (EnergyRow (stamp s) (mol s)).

Definition print_status : Run unit :=
  modify (fun s => set_stdout (stdout s ++ [stamp s]) s) ;;
  flush_gfile ;;
  flush_efile.

Definition open_output_files : Run unit :=
  modify (set_gfile f_open) ;;
  modify (set_efile f_open) ;;
  print_energy_header ;;
  now <- time_time ;;
  modify (set_stime now) ;;
  s <- get ;;
  match simtype (cfg s) with
  | md =>
      modify (set_gtime (dec 1 10)) ;;
      modify (set_etime (dec 1 10))
  | mc =>
      modify (set_gconf 0%Z) ;;
      modify (set_econf 0%Z) ;;
      modify (set_dconf 0%Z)
  end.

Definition close_output_files : Run unit :=
  print_status ;;
  modify (fun s => set_gfile (f_close (gfile s)) s) ;;
  modify (fun s => set_efile (f_close (efile s)) s).

(** The third statement of [check_print_md] and of [check_print_mc], the
    same in both.  Its test is
    [print_all or time.time() - self.stime > self.statustime]: the clock is
    read only when [print_all] is false. *)
Definition status_due (print_all : bool) : Run bool :=
  if print_all then ret true
  else
    now <- time_time ;;
    s <- get ;;
    ret (now - stime s >? statustime (cfg s)).

Definition check_status (print_all : bool) : Run unit :=
  due <- status_due print_all ;;
  when due
    (print_status ;; now <- time_time ;; modify (set_stime now)).

Definition check_print_md (ts : F) (print_all : bool) : Run unit :=
  s <- get ;;
  when (print_all || (etime s >=? energytime (cfg s)))
    (print_energy ;; modify (set_etime (dec 1 10))) ;;
  s <- get ;;
  when (print_all || (gtime s >=? geomtime (cfg s)))
    (print_geom ;; modify (set_gtime (dec 1 10))) ;;
  check_status print_all ;;
  modify (fun s => set_etime (etime s + ts) s) ;;
  modify (fun s => set_gtime (gtime s + ts) s).

Definition check_print_mc (n_conf : Z) (print_all : bool) : Run unit :=
  s <- get ;;
  when (print_all || (econf s >=? energyconf (cfg s))%Z)
    (print_energy ;; modify (set_econf 0%Z)) ;;
  s <- get ;;
  when (print_all || (gconf s >=? geomconf (cfg s))%Z)
    (print_geom ;; modify (set_gconf 0%Z)) ;;
  check_status print_all ;;
  modify (fun s => set_econf (econf s + n_conf)%Z s) ;;
  modify (fun s => set_gconf (gconf s + n_conf)%Z s).

(** *** Molecular dynamics *)

(** The statements of [run_md] before the loop. *)
Definition md_start : Run unit :=
  open_output_files ;;
  initialize_vels ;;
  call_energy standard ;;
  call_gradient ;;
  update_accs ;;
  check_print_md (dec 0 0) true ;;
  s <- get ;;
  update_vels (dec 5 1 * timestep (cfg s)).

(** The loop test [self.time < self.tottime] and the loop body. *)
Definition md_continue (s : State) : bool := time s <? tottime (cfg s).

Definition md_step : Run unit :=
  s <- get ;;
  update_coords (timestep (cfg s)) (dec 1 0) (dec 0 0) ;;
  call_gradient ;;
  update_accs ;;
  update_vels (timestep (cfg s)) ;;
  call_energy leapfrog ;;
  s <- get ;;
  when (time s <? eqtime (cfg s)) equilibrate_temp ;;
  check_print_md (timestep (cfg s)) false ;;
  modify (fun s => set_time (time s + timestep (cfg s)) s).

Definition md_loop (fuel : nat) : Run nat :=
  fun s =>
    match while fuel (fun _ => md_continue) (fun _ => md_step) tt s with
    | Ok (n, _) s' => Ok n s'
    | Raised e s' => Raised e s'
    | OutOfFuel => OutOfFuel
    end.

(** The statements of [run_md] after the loop. *)
Definition md_finish : Run unit :=
  s <- get ;;
  check_print_md (timestep (cfg s)) false ;;
  close_output_files.

Definition run_md (fuel : nat) : Run unit :=
  md_start ;;
  md_loop fuel ;;
  md_finish.

(** *** Metropolis Monte-Carlo *)

Context {EF : Elementary F}.

(** The factor [bf] of one trial, from [delta_e] and [self.temp]. *)
Definition boltzmann_factor (delta_e T : F) : F :=
  fexp (fmin (dec 1 0) (dec (-1) 0 * delta_e / (kb * T))).

Definition changedisp : Run unit :=
  s <- get ;;
  if (n_reject s + n_accept s =? 0)%Z then raise ZeroDivisionError
  else
    let p_accept := of_int (n_accept s) / of_int (n_reject s + n_accept s)%Z in
    modify (set_n_accept 0%Z) ;;
    modify (set_n_reject 0%Z) ;;
    modify (fun s =>
      set_dispmag
        (dispmag s * fexp (dec 2 0 * dispinc (cfg s) * (p_accept - dec 5 1)))
        s).

(** The test of [check_disp]. *)
Definition disp_due (s : State) : bool := (dconf s >=? dispconf (cfg s))%Z.

Definition check_disp : Run unit :=
  s <- get ;;
  when (disp_due s) (changedisp ;; modify (set_dconf 0%Z)) ;;
  modify (fun s => set_dconf (dconf s + 1)%Z s).

(** The statements of [run_mc] before the loop; the result is the initial
    value of the local variable [penergy]. *)
Definition mc_start : Run F :=
  open_output_files ;;
  zero_vels ;;
  modify (fun s => set_rng (rng_seed (seed (cfg s)) (rng s)) s) ;;
  call_energy standard ;;
  check_print_mc 0 true ;;
  s <- get ;;
  ret (e_total (mol s)).

(** The loop test [self.conf < self.totconfs]. *)
Definition mc_continue (s : State) : bool := (conf s <? totconfs (cfg s))%Z.

(** A trial up to the comparison [bf >= numpy.random.random()]. *)
Definition mc_propose (penergy : F) : Run bool :=
  get_rand_disp ;;
  s <- get ;;
  disp_coords (rand_disp s) ;;
  call_energy standard ;;
  s <- get ;;
  let delta_e := e_total (mol s) - penergy in
  let bf := boltzmann_factor delta_e (temp (cfg s)) in
  fun s =>
    let (u, g) := rng_random (rng s) in
    Ok (bf >=? u) (set_rng g s).

(** The two branches; each returns the value of [penergy] it leaves. *)
Definition mc_accept : Run F :=
  check_print_mc 1 false ;;
  modify (fun s => set_conf (conf s + 1)%Z s) ;;
  modify (fun s => set_n_accept (n_accept s + 1)%Z s) ;;
  s <- get ;;
  ret (e_total (mol s)).

Definition mc_reject (penergy : F) : Run F :=
  s <- get ;;
  disp_coords
    (map (fun r => tab3 (fun j => dec (-1) 0 * nth3 r j)) (rand_disp s)) ;;
  modify (fun s => set_n_reject (n_reject s + 1)%Z s) ;;
  ret penergy.

Definition mc_trial (penergy : F) : Run F :=
  accepted <- mc_propose penergy ;;
  penergy' <- (if accepted : bool then mc_accept else mc_reject penergy) ;;
  check_disp ;;
  ret penergy'.

Definition mc_loop (fuel : nat) (penergy : F) : Run nat :=
  fun s =>
    match while fuel (fun _ => mc_continue) mc_trial penergy s with
    | Ok (n, _) s' => Ok n s'
    | Raised e s' => Raised e s'
    | OutOfFuel => OutOfFuel
    end.

(** The statements of [run_mc] after the loop. *)
Definition mc_finish : Run unit :=
  check_print_mc 0 false ;;
  close_output_files.

Definition run_mc (fuel : nat) : Run unit :=
  penergy <- mc_start ;;
  mc_loop fuel penergy ;;
  mc_finish.

End Driver.

(** ** Construction

    [__init__] gives every attribute a default and [read_in_data] replaces
    those named in the input file.  [new_sim] is the object such a
    construction leaves when the input sets the configuration [c] and the
    molecule [m] and leaves the running attributes at their defaults:
    [time = 1.0 * 10**-10], [conf = 0], [dispmag = 0.1], no trial counted.
    The attributes that only [run_md] and [run_mc] create ([gfile],
    [efile], the output schedule, [rand_disp], and [etemp], which
    [initialize_vels] creates for a positive temperature) are plain fields
    here, with placeholders for values. *)

Definition new_sim {F Rng} `{Arith F} (c : Cfg F) (m : Mol F) (g : Rng)
    : Sim F Rng :=
  {| cfg := c; mol := m; time := dec 1 10; etemp := dec 0 0; conf := 0%Z;
     dispmag := dec 1 1; n_accept := 0%Z; n_reject := 0%Z; rand_disp := [];
     gfile := mkFile false [] []; efile := mkFile false [] [];
     stime := dec 0 0; gtime := dec 0 0; etime := dec 0 0;
     gconf := 0%Z; econf := 0%Z; dconf := 0%Z;
     rng := g; ticks := O; stdout := [] |}.

(** ** A small world to run the driver in

    One carbon-like atom at the origin; an energy model that reports a
    constant energy and temperature and a constant unit gradient along the
    first axis. *)

Section Demo.
Context {F : Type} {AF : Arith F}.
Local Open Scope fl_scope.

Definition zero3 : V3 F := mkV3 (dec 0 0) (dec 0 0) (dec 0 0).

Definition demo_atom : Atom F :=
  {| mass := dec 12011 3; coords := zero3;
     vels := mkV3 (dec 1 0) (dec 2 0) (dec 3 0); accs := zero3;
     pcoords := zero3; pvels := zero3; paccs := zero3 |}.

Definition demo_mol : Mol F :=
  {| atoms := [demo_atom]; g_total := []; e_total := dec 0 0;
     mol_temp := dec 0 0 |}.

Definition demo_energy (mode : EvalMode) (m : Mol F) : Mol F * option exn :=
  ({| atoms := atoms m; g_total := g_total m; e_total := dec (-5) 0;
      mol_temp := dec 300 0 |}, None).

Definition demo_gradient (m : Mol F) : Mol F * option exn :=
  ({| atoms := atoms m;
      g_total := map (fun _ => mkV3 (dec 1 0) (dec 0 0) (dec 0 0)) (atoms m);
      e_total := e_total m; mol_temp := mol_temp m |}, None).

(** The world around an energy model: the generator returns the mean it is
    asked for and counts its draws, uniform draws are zero, the clock stands
    still; [kb] is in [kcal/(mol*K)]. *)
Definition world (energy : EvalMode -> Mol F -> Mol F * option exn)
    : Env F nat :=
  {| get_energy := energy;
     get_gradient := demo_gradient;
     kb := dec 19872041 10;
     rng_seed := fun sd _ =>
       match sd with Some z => Z.to_nat z | None => O end;
     rng_normal := fun mu sigma g => (mu + sigma * dec 0 0, S g);
     rng_random := fun g => (dec 0 0, S g);
     wallclock := fun _ => dec 0 0 |}.

Definition demo_env : Env F nat := world demo_energy.

(** The same world, except that the energy model cannot evaluate, in
    leapfrog mode, a configuration whose first atom has gone below [-0.5]
    along the first axis. *)
Definition leapfrog_fails (mode : EvalMode) (m : Mol F)
    : Mol F * option exn :=
  match mode, atoms m with
  | leapfrog, a :: _ =>
      if c0 (coords a) <? dec (-5) 1 then (m, Some (ModelError 1))
      else demo_energy mode m
  | _, _ => demo_energy mode m
  end.

Definition failing_env : Env F nat := world leapfrog_fails.

(** The demo world again, with an energy model that can be evaluated once:
    it marks the molecule it has seen in the gradient array and gives up
    on a marked molecule. *)
Definition once_energy (mode : EvalMode) (m : Mol F) : Mol F * option exn :=
  match g_total m with
  | [] =>
      ({| atoms := atoms m; g_total := [zero3]; e_total := dec (-5) 0;
          mol_temp := dec 300 0 |}, None)
  | _ :: _ => (m, Some (ModelError 2))
  end.

Definition once_env : Env F nat := world once_energy.

(** The defaults of [__init__] with the run lengths and output intervals
    left to choose. *)
Definition demo_cfg (st : SimType) (total step every : F) (confs every_conf
    disp_every : Z) : Cfg F :=
  {| simtype := st; temp := dec 29815 2 + dec 1 20; press := dec 1 0;
     statustime := dec 60 0; seed := None;
     tottime := total; timestep := step; eqtime := dec 0 0;
     eqrate := dec 2 0; energytime := every; geomtime := every;
     totconfs := confs; dispinc := dec 693147 6; dispconf := disp_every;
     energyconf := every_conf; geomconf := every_conf |}.

(** The configuration of the concrete runs: [tottime = 0.25],
    [timestep = 0.1], output due every [1.0] ps; two configurations wanted,
    output due every 100 configurations, [dispconf = 1]. *)
Definition demo_run_cfg (st : SimType) : Cfg F :=
  demo_cfg st (dec 25 2) (dec 1 1) (dec 1 0) 2 100 1.

(** A dynamics configuration under which every check of the schedule
    finds both records due: [tottime = 1.0], [timestep = 0.1], output every
    [0.0] ps. *)
Definition demo_eager_cfg : Cfg F :=
  demo_cfg md (dec 1 0) (dec 1 1) (dec 0 0) 2 100 1.

(** A Monte-Carlo configuration that asks for no configuration at all. *)
Definition demo_done_cfg : Cfg F :=
  demo_cfg mc (dec 1 0) (dec 1 1) (dec 1 0) 0 100 1.

(** A freshly constructed simulation of the demo molecule, and the same
    with the gradient array filled in. *)
Definition demo_sim (c : Cfg F) : Sim F nat := new_sim c demo_mol O.

Definition demo_sim_grad (c : Cfg F) : Sim F nat :=
  new_sim c (fst (demo_gradient demo_mol)) O.

(** A Monte-Carlo simulation with [a] trials accepted and [b] rejected
    since the last adjustment of [dispmag]. *)
Definition demo_counts (a b : Z) : Sim F nat :=
  set_n_reject b (set_n_accept a (demo_sim (demo_run_cfg mc))).

End Demo.

(** ** Further worlds and starting states

    A world in which trials go uphill: every Gaussian draw is one standard
    deviation above its mean, the energy rises steeply along the first
    axis of the first atom, and the uniform draws are [0.5]. *)

Section FurtherDemo.
Context {F : Type} {AF : Arith F}.
Local Open Scope fl_scope.

Definition uphill_energy (mode : EvalMode) (m : Mol F) : Mol F * option exn :=
  ({| atoms := atoms m; g_total := g_total m;
      e_total := match atoms m with
                 | a :: _ => dec 1000 0 * c0 (coords a)
                 | [] => dec 0 0
                 end;
      mol_temp := dec 300 0 |}, None).

Definition uphill_env : Env F nat :=
  {| get_energy := uphill_energy;
     get_gradient := demo_gradient;
     kb := dec 19872041 10;
     rng_seed := fun sd _ =>
       match sd with Some z => Z.to_nat z | None => O end;
     rng_normal := fun mu sigma g => (mu + sigma, S g);
     rng_random := fun g => (dec 5 1, S g);
     wallclock := fun _ => dec 0 0 |}.

(** The demo simulation as [open_output_files] would hand it on: both
    files open and empty. *)
Definition demo_open_sim (c : Cfg F) : Sim F nat :=
  set_efile f_open (set_gfile f_open (demo_sim c)).

(** A dynamics configuration whose clock stands still: [timestep = 0.0]. *)
Definition demo_still_cfg : Cfg F :=
  demo_cfg md (dec 1 0) (dec 0 0) (dec 1 0) 2 100 1.


End FurtherDemo.

(** ** Pre- and postconditions *)

(** [wp D m Q E s]: from [s], if [m] returns [a] in [s'] then [Q a s'], if
    it raises [e] in [s'] then [E e s'], and if it runs out of fuel then
    [D].  With [D := False] the computation is known to end. *)
Definition wp {St A} (D : Prop) (m : M St A) (Q : A -> St -> Prop)
    (E : exn -> St -> Prop) (s : St) : Prop :=
  match m s with
  | Ok a s' => Q a s'
  | Raised e s' => E e s'
  | OutOfFuel => D
  end.

(** ** Vocabulary of the statements *)

(** Across an update of the atom list, field [prev] of every atom holds,
    component by component, what field [cur] held before. *)
Definition snapshot_of {F} (prev cur : Atom F -> V3 F)
    (before after : list (Atom F)) : Prop :=
  length after = length before /\
  forall i a a',
    nth_error before i = Some a ->
    nth_error after i = Some a' ->
    forall j, nth3 (prev a') j = nth3 (cur a) j.

(** The generator after one more Gaussian draw of width [sigma], and the
    value of the draw that follows [k] earlier ones. *)
Definition advance {F Rng} `{Arith F} `{Env F Rng} (sigma : F) (g : Rng)
    : Rng :=
  snd (rng_normal (dec 0 0) sigma g).

Definition nth_draw {F Rng} `{Arith F} `{Env F Rng} (sigma : F) (g : Rng)
    (k : nat) : F :=
  fst (rng_normal (dec 0 0) sigma (Nat.iter k (advance sigma) g)).

(** The position of a component in a row. *)
Definition ix (j : ix3) : nat :=
  match j with J0 => 0 | J1 => 1 | J2 => 2 end.

Section Frames.
Context {F Rng : Type}.
Implicit Types s : Sim F Rng.

(** Both output files are open. *)
Definition files_open s : Prop :=
  is_open (gfile s) = true /\ is_open (efile s) = true.

(** [s'] differs from [s] at most in the molecule, the running mean
    temperature, the generator and the trial displacement. *)
Definition moves_only s s' : Prop :=
  exists m e g r,
    s' = set_rand_disp r (set_rng g (set_etemp e (set_mol m s))).

(** [s'] differs from [s] at most in the files, the output schedule, the
    clock readings and the terminal. *)
Definition reports_only s s' : Prop :=
  exists gf ef st gt et gc ec tk so,
    s' = set_stdout so (set_ticks tk (set_econf ec (set_gconf gc
           (set_etime et (set_gtime gt (set_stime st
             (set_efile ef (set_gfile gf s)))))))).

(** The files are open in [s'], which has the configuration and the
    simulated time of [s]. *)
Definition md_kept s s' : Prop :=
  files_open s' /\ cfg s' = cfg s /\ time s' = time s.

(** The molecule has a gradient row for every atom. *)
Definition rows_enough s : Prop :=
  (n_atoms (mol s) <= length (g_total (mol s)))%nat.

(** The energy model never raises and supplies one gradient row per
    atom. *)
Definition model_ok `{Env F Rng} : Prop :=
  (forall mode m, snd (get_energy mode m) = None) /\
  (forall m, snd (get_gradient m) = None /\
             (n_atoms (fst (get_gradient m))
                <= length (g_total (fst (get_gradient m))))%nat).

End Frames.

(** Everything written to a file so far, flushed or not, in order. *)
Definition contents {F} (f : File F) : list (Row F) := disk f ++ pending f.

(** The record [print_energy] and [print_geom] write from a state. *)
Definition energy_row {F Rng} (s : Sim F Rng) : Row F :=
  EnergyRow (stamp s) (mol s).

Definition geom_frame {F Rng} (s : Sim F Rng) : Row F :=
  GeomFrame (stamp s) (mol s).

(** From [s] to [s'] only reporting happened, the files are open
    afterwards, and the energy and geometry files gained the records
    [erows] and [grows]. *)
Definition logged {F Rng} (s s' : Sim F Rng) (erows grows : list (Row F))
    : Prop :=
  reports_only s s' /\ files_open s' /\
  contents (efile s') = contents (efile s) ++ erows /\
  contents (gfile s') = contents (gfile s) ++ grows.

(** The label of a record, if it has one. *)
Definition row_stamp {F} (r : Row F) : option (Stamp F) :=
  match r with
  | Header => None
  | EnergyRow st _ => Some st
  | GeomFrame st _ => Some st
  end.

(** A file that has been closed with nothing left in its buffer. *)
Definition closed_clean {F} (f : File F) : Prop :=
  is_open f = false /\ pending f = [].

(** The number of passes of a loop [while t < tot: ...; t += dt], counted
    the way [while] counts them. *)
Fixpoint clock_trips {F} `{Arith F} (fuel : nat) (t tot dt : F)
    : option nat :=
  match fuel with
  | O => if (t <? tot)%fl then None else Some O
  | S fuel' =>
      if (t <? tot)%fl
      then option_map S (clock_trips fuel' (t + dt)%fl tot dt)
      else Some O
  end.

Section TrialVocabulary.
Context {F Rng : Type} {AF : Arith F} {W : Env F Rng} {EF : Elementary F}.
Implicit Types s : Sim F Rng.

(** The magnitude [changedisp] computes from the running one, the rate
    and the two trial counts. *)
Definition adjusted_dispmag (mag inc : F) (a r : Z) : F :=
  (mag * fexp (dec 2 0 * inc * (of_int a / of_int (r + a) - dec 5 1)))%fl.

(** The energy model is well behaved and keeps the number of atoms. *)
Definition mc_model_ok : Prop :=
  model_ok /\ forall mode m, n_atoms (fst (get_energy mode m)) = n_atoms m.

(** What a trial that returns has done to the counters, [accepted] being
    the outcome of its acceptance test: the configuration count moves by
    one exactly when the trial is accepted; [dconf] is counted up, from
    zero if the controller ran; the controller, when it ran, adjusted
    [dispmag] from the counts that include this trial and left both
    counters at zero; otherwise the trial is counted as accepted or
    rejected and [dispmag] is as before. *)
Definition trial_effect (accepted : bool) s s' : Prop :=
  let a := (n_accept s + (if accepted then 1 else 0))%Z in
  let r := (n_reject s + (if accepted then 0 else 1))%Z in
  files_open s' /\ cfg s' = cfg s /\
  conf s' = (conf s + (if accepted then 1 else 0))%Z /\
  dconf s' = (if disp_due s then 1 else dconf s + 1)%Z /\
  (if disp_due s
   then n_accept s' = 0%Z /\ n_reject s' = 0%Z /\
        dispmag s' = adjusted_dispmag (dispmag s) (dispinc (cfg s)) a r
   else dispmag s' = dispmag s /\ n_accept s' = a /\ n_reject s' = r).

(** What a trial that raises leaves: the files open, the configuration,
    a count moved by one at most; and it raises only if the energy model
    misbehaves or a trial counter was negative on entry. *)
Definition trial_failure s s' : Prop :=
  files_open s' /\ cfg s' = cfg s /\
  (conf s' = conf s \/ conf s' = (conf s + 1)%Z) /\
  ~ (mc_model_ok /\ (0 <= n_accept s)%Z /\ (0 <= n_reject s)%Z).

(** [mc_reaches penergy0 s0 n penergy s]: the loop of [run_mc], entered in
    [s0] with [penergy0], is at its test for the [n+1]-th time, in [s] with
    [penergy]. *)
Inductive mc_reaches (penergy0 : F) (s0 : Sim F Rng)
    : nat -> F -> Sim F Rng -> Prop :=
| mc_reaches_entry : mc_reaches penergy0 s0 O penergy0 s0
| mc_reaches_trial n penergy s penergy' s' :
    mc_reaches penergy0 s0 n penergy s ->
    mc_continue s = true ->
    mc_trial penergy s = Ok penergy' s' ->
    mc_reaches penergy0 s0 (S n) penergy' s'.

End TrialVocabulary.

(** The displacement [mc_reject] undoes a trial with: [-1.0 * rand_disp]. *)
Definition opposite {F} `{Arith F} (d : list (V3 F)) : list (V3 F) :=
  map (fun r => tab3 (fun j => (dec (-1) 0 * nth3 r j)%fl)) d.


(** The fields the output schedule is kept in. *)
Definition schedule_of {F Rng} (s : Sim F Rng) : F * F * Z * Z :=
  (etime s, gtime s, econf s, gconf s).

(** ** The text of the energy file

    [print_val], [print_e_terms], [print_energy] and
    [print_energy_header] as the characters they write.  The conversion of
    a float to its digits is C's; the padding to a field width is written
    out. *)

Module Text.
Import Ascii String.
Local Open Scope string_scope.

(** The digits C's [printf] produces for a float, without padding:
    ['%.*f' % (prec, x)] and ['%.*e' % (prec, x)]. *)
Class Printf (F : Type) := {
  fmt_f : nat -> F -> string;
  fmt_e : nat -> F -> string
}.

Definition nl : string := String "010"%char "".

Fixpoint blanks (n : nat) : string :=
  match n with
  | O => ""
  | S n' => String " "%char (blanks n')
  end.

(** Conversion with a field width: padded with blanks on the left up to
    [width] characters, never cut. *)
Definition rjust (width : nat) (t : string) : string :=
  blanks (width - length t) ++ t.

(** The attributes of the molecule that [print_e_terms] and
    [print_energy] read besides [e_total] and [temp]. *)
Record Terms (F : Type) : Type := mkTerms {
  e_kinetic : F;
  e_potential : F;
  e_nonbonded : F;
  e_bonded : F;
  e_bound : F;
  e_vdw : F;
  e_elst : F;
  e_bonds : F;
  e_angles : F;
  e_torsions : F;
  e_outofplanes : F;
  mol_press : F
}.

Section Printing.
Context {F Rng : Type} {PF : Printf F} {EF : Elementary F}.

(** What one call of [print_val] writes to the energy file. *)
Definition print_val (totstr decstr : nat) (val : F) (ptype : string)
    (n_space : nat) : string :=
  if ptype =? "f" then rjust n_space "" ++ rjust totstr (fmt_f decstr val)
  else if ptype =? "e" then
    rjust n_space "" ++ rjust totstr (fmt_e decstr val)
  else "".

Definition print_e_terms (st : SimType) (m : Terms F) (totstr decstr : nat)
    (ptype : string) : string :=
  let eterms :=
    [e_kinetic m; e_potential m; e_nonbonded m; e_bonded m; e_bound m;
     e_vdw m; e_elst m; e_bonds m; e_angles m; e_torsions m;
     e_outofplanes m]%list in
  let eterms := match st with mc => skipn 2 eterms | md => eterms end in
  fold_right append ""
    (map (fun x => print_val totstr decstr x ptype 1) eterms).

(** The line [print_energy] writes from the simulation [s], whose molecule
    has the further attributes [m]. *)
Definition print_energy (s : Sim F Rng) (m : Terms F) : string :=
  (match simtype (cfg s) with
   | md => print_val 7 4 (time s) "f" 0
   | mc => print_val 7 0 (of_int (conf s)) "f" 0
   end)
  ++ print_val 12 5 (e_total (mol s)) "e" 1
  ++ print_e_terms (simtype (cfg s)) m 10 3 "e"
  ++ (match simtype (cfg s) with
      | md => print_val 8 3 (mol_temp (mol s)) "f" 1
              ++ print_val 8 3 (mol_press m) "f" 1
      | mc => ""
      end)
  ++ nl.

(** The two lines [print_energy_header] writes for the molecule called
    [name]. *)
Definition print_energy_header (s : Sim F Rng) (name : string) : string :=
  ("# energy [kcal/mol] of " ++ name)
  ++ (match simtype (cfg s) with
      | md => (" (" ++ fmt_f 4 (eqtime (cfg s)) ++ " ps of eq)" ++ nl
               ++ "#  time")
              ++ "      e_total      e_kin      e_pot  "
      | mc => nl ++ "#  conf       e_pot  "
      end)
  ++ "e_nonbond   e_bonded  e_boundary      e_vdw     e_elst"
  ++ "     e_bond    e_angle     e_tors      e_oop"
  ++ (match simtype (cfg s) with
      | md => "     temp    press"
      | mc => ""
      end)
  ++ nl.

End Printing.

(** [property_keys()]. *)
Definition property_keys : list string :=
  ["e_total"; "e_kin"; "e_pot"; "e_nonbond"; "e_bonded"; "e_boundary";
   "e_vdw"; "e_elst"; "e_bond"; "e_angle"; "e_tors"; "e_oop"; "temp";
   "press"]%list.

(** Reading a line back: the maximal runs of characters other than the
    blank and the newline. *)
Definition is_sep (c : ascii) : bool :=
  (Ascii.eqb c " " || Ascii.eqb c "010")%bool.

Fixpoint words_from (cur : string) (t : string) : list string :=
  match t with
  | "" => if cur =? "" then []%list else [cur]%list
  | String c t' =>
      if is_sep c then
        if cur =? "" then words_from "" t'
        else (cur :: words_from "" t')%list
      else words_from (cur ++ String c "") t'
  end.

Definition words (t : string) : list string := words_from "" t.

(** A text that [words] reads as one word. *)
Fixpoint no_sep (t : string) : bool :=
  match t with
  | "" => true
  | String c t' => (negb (is_sep c) && no_sep t')%bool
  end.

Definition token (t : string) : Prop := t <> "" /\ no_sep t = true.

(** A text that begins with a blank or a newline. *)
Definition sep_headed (t : string) : Prop :=
  match t with
  | "" => False
  | String c _ => is_sep c = true
  end.

(** A printer for the demo world: every number reads [0]. *)
Definition demo_printf {F} : Printf F :=
  {| fmt_f := fun _ _ => "0"; fmt_e := fun _ _ => "0" |}.

Definition demo_terms {F} `{Arith F} : Terms F :=
  let z := dec 0 0 in mkTerms z z z z z z z z z z z z.

End Text.

(** * Properties *)

(** ** The monad *)

Section WpRules.
Context {St : Type} (D : Prop).

Lemma wp_ret {A} (a : A) (Q : A -> St -> Prop) E s :
  Q a s -> wp D (ret a) Q E s.
Proof. intro HQ. exact HQ. Qed.

Lemma wp_bind {A B} (m : M St A) (k : A -> M St B) Q E s :
  wp D m (fun a s' => wp D (k a) Q E s') E s -> wp D (bind m k) Q E s.
Proof.
  unfold wp, bind. destruct (m s) as [a s'|e s'|]; trivial.
Qed.

Lemma wp_get (Q : St -> St -> Prop) E s : Q s s -> wp D get Q E s.
Proof. intro HQ. exact HQ. Qed.

Lemma wp_modify (f : St -> St) (Q : unit -> St -> Prop) E s :
  Q tt (f s) -> wp D (modify f) Q E s.
Proof. intro HQ. exact HQ. Qed.

Lemma wp_raise {A} e (Q : A -> St -> Prop) (E : exn -> St -> Prop) s :
  E e s -> wp D (raise e) Q E s.
Proof. intro HE. exact HE. Qed.

Lemma wp_when (b : bool) (m : M St unit) Q E s :
  (b = true -> wp D m Q E s) -> (b = false -> Q tt s) ->
  wp D (when b m) Q E s.
Proof.
  destruct b; intros Ht Hf; [apply Ht | apply Hf]; reflexivity.
Qed.

Lemma wp_mono {A} (m : M St A) (Q Q' : A -> St -> Prop)
    (E E' : exn -> St -> Prop) s :
  wp D m Q E s ->
  (forall a s', Q a s' -> Q' a s') ->
  (forall e s', E e s' -> E' e s') ->
  wp D m Q' E' s.
Proof.
  unfold wp. destruct (m s); auto.
Qed.

End WpRules.

(** A computation that cannot run out of fuel and whose exceptional
    postcondition is absurd returns. *)
Lemma wp_returns {St A} (m : M St A) (Q : A -> St -> Prop) s :
  wp False m Q (fun _ _ => False) s -> exists a s', m s = Ok a s' /\ Q a s'.
Proof.
  unfold wp. destruct (m s) as [a s'|e s'|]; [eauto | easy | easy].
Qed.

(** A loop invariant holds when the loop ends, together with the negation
    of the test; a postcondition of the exceptional exits of the body is one
    of the loop. *)
Lemma wp_while {St L} (I : L -> St -> Prop) (E : exn -> St -> Prop) cond
    (body : L -> M St L) fuel :
  (forall l s, I l s -> cond l s = true -> wp True (body l) I E s) ->
  forall l s, I l s ->
    wp True (while fuel cond body l)
       (fun r s' => I (snd r) s' /\ cond (snd r) s' = false) E s.
Proof.
  intro Hbody. induction fuel as [|fuel IH]; intros l s HI; unfold wp; simpl.
  - destruct (cond l s) eqn:Hc; simpl; auto.
  - destruct (cond l s) eqn:Hc; simpl; auto.
    specialize (Hbody l s HI Hc). unfold wp in Hbody.
    destruct (body l s) as [l' s'|e s'|]; auto.
    specialize (IH l' s' Hbody). unfold wp in IH.
    destruct (while fuel cond body l' s') as [[n l''] s''|e s''|]; auto.
Qed.

(** ** Loops over the atoms *)

Section ZipRows.
Context {F : Type}.
Variables (f : Atom F -> V3 F -> Atom F) (partial : Atom F -> Atom F).

Lemma zip_rows_length l rows :
  length (fst (zip_rows f partial l rows)) = length l.
Proof.
  revert rows. induction l as [|a l IH]; intros [|r rows]; simpl; trivial.
  specialize (IH rows). destruct (zip_rows f partial l rows). simpl in *.
  now rewrite IH.
Qed.

Lemma zip_rows_complete l rows :
  (length l <= length rows)%nat -> snd (zip_rows f partial l rows) = true.
Proof.
  revert rows. induction l as [|a l IH]; intros [|r rows] Hlen; simpl in *;
    trivial; try lia.
  specialize (IH rows). destruct (zip_rows f partial l rows). simpl in *.
  apply IH. lia.
Qed.

Lemma zip_rows_nth l rows i a :
  snd (zip_rows f partial l rows) = true ->
  nth_error l i = Some a ->
  exists r, nth_error rows i = Some r /\
            nth_error (fst (zip_rows f partial l rows)) i = Some (f a r).
Proof.
  revert rows i. induction l as [|b l IH]; intros rows i Hok Hi.
  - destruct i; discriminate.
  - destruct rows as [|r rows]; simpl in Hok; [discriminate|].
    simpl. specialize (IH rows).
    destruct (zip_rows f partial l rows) as [l' ok]. simpl in *.
    destruct i as [|i]; simpl in *.
    + injection Hi as ->. eauto.
    + apply IH; assumption.
Qed.

End ZipRows.

Section Snapshots.
Context {F : Type}.
Implicit Types (prev cur : Atom F -> V3 F) (l : list (Atom F)).

Lemma snapshot_map prev cur (f : Atom F -> Atom F) l :
  (forall a j, nth3 (prev (f a)) j = nth3 (cur a) j) ->
  snapshot_of prev cur l (map f l).
Proof.
  intro Hf. split; [apply length_map|].
  intros i a a' Ha Ha' j. rewrite nth_error_map, Ha in Ha'. simpl in Ha'.
  injection Ha' as <-. apply Hf.
Qed.

Lemma snapshot_zip prev cur f partial l rows :
  (forall a r j, nth3 (prev (f a r)) j = nth3 (cur a) j) ->
  snd (zip_rows f partial l rows) = true ->
  snapshot_of prev cur l (fst (zip_rows f partial l rows)).
Proof.
  intros Hf Hok. split; [apply zip_rows_length|].
  intros i a a' Ha Ha' j.
  destruct (zip_rows_nth f partial l rows i Hok Ha) as (r & _ & Hr).
  rewrite Hr in Ha'. injection Ha' as <-. apply Hf.
Qed.

Lemma snapshot_same prev l l' :
  map prev l' = map prev l -> snapshot_of prev prev l l'.
Proof.
  intro Hmap. split.
  - rewrite <- (length_map prev l'), Hmap. apply length_map.
  - intros i a a' Ha Ha' j.
    assert (Hn : nth_error (map prev l') i = nth_error (map prev l) i)
      by now rewrite Hmap.
    rewrite !nth_error_map, Ha, Ha' in Hn. simpl in Hn.
    injection Hn as ->. reflexivity.
Qed.

End Snapshots.

(** ** Kinematic updates *)

Section Kinematics.
Context {F Rng : Type} {AF : Arith F}.
Implicit Type s : Sim F Rng.
Local Open Scope fl_scope.

Lemma update_accs_returns s :
  (n_atoms (mol s) <= length (g_total (mol s)))%nat ->
  update_accs s =
    Ok tt (set_mol
      (set_atoms
        (fst (zip_rows acc_atom acc_atom_partial (atoms (mol s))
                (g_total (mol s))))
        (mol s)) s).
Proof.
  intro Hlen. unfold update_accs.
  pose proof (zip_rows_complete acc_atom acc_atom_partial
                (atoms (mol s)) (g_total (mol s)) Hlen) as Hok.
  destruct (zip_rows _ _ _ _) as [l ok]. simpl in *. now rewrite Hok.
Qed.

Lemma update_accs_inv s s' :
  update_accs s = Ok tt s' ->
  snd (zip_rows acc_atom acc_atom_partial (atoms (mol s)) (g_total (mol s)))
    = true /\
  atoms (mol s') =
    fst (zip_rows acc_atom acc_atom_partial (atoms (mol s)) (g_total (mol s))).
Proof.
  unfold update_accs. destruct (zip_rows _ _ _ _) as [l [|]]; simpl;
    intro Hr; [|discriminate].
  injection Hr as <-. auto.
Qed.

Lemma disp_coords_inv d s s' :
  disp_coords d s = Ok tt s' ->
  snd (zip_rows disp_atom disp_atom_partial (atoms (mol s)) d) = true /\
  atoms (mol s') = fst (zip_rows disp_atom disp_atom_partial (atoms (mol s)) d).
Proof.
  unfold disp_coords. destruct (zip_rows _ _ _ _) as [l [|]]; simpl;
    intro Hr; [|discriminate].
  injection Hr as <-. auto.
Qed.

(** C7.  With one gradient row per atom, [update_accs] returns, keeps every
    mass, and leaves in each atom [i] and each component [j] the
    acceleration [-acc_conv() * g_total[i][j] / mass] -- [g_total] being
    the array the energy model supplied -- and in [paccs] the acceleration
    found on entry. *)
Theorem update_accs_sets_acceleration s :
  (n_atoms (mol s) <= length (g_total (mol s)))%nat ->
  exists s',
    update_accs s = Ok tt s' /\
    length (atoms (mol s')) = length (atoms (mol s)) /\
    forall i a,
      nth_error (atoms (mol s)) i = Some a ->
      exists g a',
        nth_error (g_total (mol s)) i = Some g /\
        nth_error (atoms (mol s')) i = Some a' /\
        mass a' = mass a /\
        forall j,
          nth3 (accs a') j = - acc_conv * nth3 g j / mass a /\
          nth3 (paccs a') j = nth3 (accs a) j.
Proof.
  intro Hlen. eexists. split; [apply update_accs_returns, Hlen|].
  simpl. split; [apply zip_rows_length|].
  intros i a Ha.
  pose proof (zip_rows_complete acc_atom acc_atom_partial _ _ Hlen) as Hok.
  destruct (zip_rows_nth _ _ _ _ i Hok Ha) as (g & Hg & Ha').
  exists g, (acc_atom a g). repeat split; trivial; now destruct j.
Qed.

End Kinematics.

(** [update_accs] on the demo molecule, its gradient row supplied. *)
Lemma update_accs_sets_acceleration_witness :
  let s : Sim R nat := demo_sim_grad (demo_run_cfg md) in
  (n_atoms (mol s) <= length (g_total (mol s)))%nat /\
  exists s', update_accs s = Ok tt s' /\ length (atoms (mol s')) = 1%nat.
Proof.
  intro s. split; [subst s; unfold n_atoms; simpl; lia|].
  destruct (update_accs_sets_acceleration s) as (s' & Hrun & Hlen & _);
    [subst s; unfold n_atoms; simpl; lia|].
  exists s'. split; [exact Hrun | exact Hlen].
Defined.

Section PreviousValues.
Context {F Rng : Type} {AF : Arith F} {W : Env F Rng}.
Implicit Type s : Sim F Rng.
Local Open Scope fl_scope.

Lemma draw_vels_keeps (field : Atom F -> V3 F) T l g :
  (forall v a, field (set_vels v a) = field a) ->
  map field (fst (draw_vels T l g)) = map field l.
Proof.
  intro Hfield. revert g. induction l as [|a l IH]; intro g; simpl; trivial.
  destruct (rng_normal _ _ g) as [x g1].
  destruct (rng_normal _ _ g1) as [y g2].
  destruct (rng_normal _ _ g2) as [z g3].
  specialize (IH g3). destruct (draw_vels T l g3) as [l' g']. simpl in *.
  now rewrite IH, Hfield.
Qed.

Lemma wp_call_energy D mode (Q : unit -> Sim F Rng -> Prop) E s :
  (forall m, get_energy mode (mol s) = (m, None) -> Q tt (set_mol m s)) ->
  (forall m e, get_energy mode (mol s) = (m, Some e) -> E e (set_mol m s)) ->
  wp D (call_energy mode) Q E s.
Proof.
  intros HQ HE. unfold wp, call_energy.
  destruct (get_energy mode (mol s)) as [m [e|]]; auto.
Qed.

Lemma initialize_vels_keeps_pvels s :
  (forall mode m,
     map pvels (atoms (fst (get_energy mode m))) = map pvels (atoms m)) ->
  wp False initialize_vels
     (fun _ s' => map pvels (atoms (mol s')) = map pvels (atoms (mol s)))
     (fun _ _ => True) s.
Proof.
  intro Hmodel. unfold initialize_vels.
  apply wp_bind, wp_get. destruct (_ >? _); [|now apply wp_ret].
  do 3 (apply wp_bind, wp_modify). simpl.
  pose proof (draw_vels_keeps pvels (temp (cfg s)) (atoms (mol s))
                (rng_seed (seed (cfg s)) (rng s)) (fun _ _ => eq_refl)) as Hd.
  destruct (draw_vels _ _ _) as [l g]. simpl in *.
  apply wp_bind, wp_call_energy; [|trivial].
  intros m Hm. simpl in Hm. apply wp_bind, wp_get, wp_modify. simpl.
  rewrite map_map. simpl. rewrite <- Hd.
  specialize (Hmodel standard (set_atoms l (mol s))).
  rewrite Hm in Hmodel. exact Hmodel.
Qed.

(** C3, as the code has it.  The four updates of the integrator and of the
    trial move -- [update_accs], [update_vels], [update_coords],
    [disp_coords] -- leave in the previous-value field, for every atom and
    component, the value the field they overwrite had on entry.  The three
    operations that set or rescale velocities outside a step --
    [zero_vels], [equilibrate_temp], [initialize_vels] -- take no snapshot:
    they leave [pvels] as it was (for [initialize_vels], as far as the
    energy model it calls leaves [pvels] alone). *)
Theorem previous_values_kept s :
  (forall s', update_accs s = Ok tt s' ->
     snapshot_of paccs accs (atoms (mol s)) (atoms (mol s'))) /\
  (forall tstep, exists s', update_vels tstep s = Ok tt s' /\
     snapshot_of pvels vels (atoms (mol s)) (atoms (mol s'))) /\
  (forall tstep vconst aconst, exists s',
     update_coords tstep vconst aconst s = Ok tt s' /\
     snapshot_of pcoords coords (atoms (mol s)) (atoms (mol s'))) /\
  (forall disp_vector s', disp_coords disp_vector s = Ok tt s' ->
     snapshot_of pcoords coords (atoms (mol s)) (atoms (mol s'))) /\
  (exists s', zero_vels s = Ok tt s' /\
     snapshot_of pvels pvels (atoms (mol s)) (atoms (mol s'))) /\
  (exists s', equilibrate_temp s = Ok tt s' /\
     snapshot_of pvels pvels (atoms (mol s)) (atoms (mol s'))) /\
  ((forall mode m,
      map pvels (atoms (fst (get_energy mode m))) = map pvels (atoms m)) ->
   forall s', initialize_vels s = Ok tt s' ->
     snapshot_of pvels pvels (atoms (mol s)) (atoms (mol s'))).
Proof.
  split; [|split; [|split; [|split; [|split; [|split]]]]].
  - intros s' Hrun. apply update_accs_inv in Hrun as [Hok ->].
    apply snapshot_zip; [|exact Hok]. intros a r j. now destruct j.
  - intro tstep. eexists. split; [reflexivity|]. simpl.
    apply snapshot_map. intros a j. now destruct j.
  - intros tstep vconst aconst. eexists. split; [reflexivity|]. simpl.
    apply snapshot_map. intros a j. now destruct j.
  - intros d s' Hrun. apply disp_coords_inv in Hrun as [Hok ->].
    apply snapshot_zip; [|exact Hok]. intros a r j. now destruct j.
  - eexists. split; [reflexivity|]. simpl.
    apply snapshot_map. intros a j. now destruct j.
  - eexists. split; [unfold equilibrate_temp, bind; simpl; reflexivity|].
    simpl. apply snapshot_map. intros a j. now destruct j.
  - intros Hmodel s' Hrun. apply snapshot_same.
    pose proof (initialize_vels_keeps_pvels s Hmodel) as Hwp.
    unfold wp in Hwp. now rewrite Hrun in Hwp.
Qed.

End PreviousValues.

(** The updates on the demo molecule, in binary64. *)
Lemma previous_values_kept_witness :
  let s : Sim float nat := demo_sim_grad (demo_run_cfg md) in
  (exists s', update_accs s = Ok tt s' /\
     snapshot_of paccs accs (atoms (mol s)) (atoms (mol s'))) /\
  (exists s', disp_coords [zero3] s = Ok tt s' /\
     snapshot_of pcoords coords (atoms (mol s)) (atoms (mol s'))) /\
  (exists s', initialize_vels (W := demo_env) s = Ok tt s' /\
     snapshot_of pvels pvels (atoms (mol s)) (atoms (mol s'))).
Proof.
  intro s.
  destruct (previous_values_kept (W := demo_env) s)
    as (Haccs & _ & _ & Hdisp & _ & _ & Hinit).
  split; [|split].
  - destruct (update_accs s) as [[] s'|e s'|] eqn:Hrun;
      [|vm_compute in Hrun; discriminate..].
    exists s'. split; [reflexivity|]. apply Haccs. reflexivity.
  - destruct (disp_coords [zero3] s) as [[] s'|e s'|] eqn:Hrun;
      [|vm_compute in Hrun; discriminate..].
    exists s'. split; [reflexivity|]. apply (Hdisp _ _ Hrun).
  - destruct (initialize_vels (W := demo_env) s) as [[] s'|e s'|] eqn:Hrun;
      [|vm_compute in Hrun; discriminate..].
    exists s'. split; [reflexivity|]. apply Hinit; [|reflexivity].
    intros mode m. reflexivity.
Defined.

(** C3, as stated, fails for [zero_vels]: the demo atom enters with
    velocity [(1, 2, 3)] and previous velocity [(0, 0, 0)], and leaves with
    the previous velocity still [(0, 0, 0)]. *)
Lemma zero_vels_takes_no_snapshot :
  let s : Sim R nat := demo_sim (demo_run_cfg mc) in
  exists s',
    zero_vels s = Ok tt s' /\
    ~ snapshot_of pvels vels (atoms (mol s)) (atoms (mol s')).
Proof.
  intro s. eexists. split; [reflexivity|].
  intros [_ Hsnap].
  specialize (Hsnap O demo_atom (zero_atom demo_atom) eq_refl eq_refl J0).
  simpl in Hsnap. lra.
Qed.

(** ** Trial displacements *)

Section RandomDisplacement.
Context {F Rng : Type} {AF : Arith F} {W : Env F Rng}.
Implicit Type s : Sim F Rng.
Implicit Type g : Rng.

Lemma draw_entry_second sigma g :
  draw_entry sigma g =
    (nth_draw sigma g 1, Nat.iter 2 (advance sigma) g).
Proof.
  unfold draw_entry, nth_draw, advance. simpl.
  destruct (rng_normal (dec 0 0) sigma g) as [randval g1]. simpl.
  now destruct (rng_normal (dec 0 0) sigma g1).
Qed.

Lemma nth_draw_shift sigma g k m :
  nth_draw sigma (Nat.iter k (advance sigma) g) m = nth_draw sigma g (m + k).
Proof. unfold nth_draw. now rewrite Nat.iter_add. Qed.

Lemma draw_row_spec sigma g :
  draw_row sigma g =
    (mkV3 (nth_draw sigma g 1) (nth_draw sigma g 3) (nth_draw sigma g 5),
     Nat.iter 6 (advance sigma) g).
Proof.
  unfold draw_row. rewrite draw_entry_second.
  rewrite draw_entry_second, (nth_draw_shift sigma g 2 1).
  rewrite draw_entry_second.
  change (Nat.iter 2 (advance sigma) (Nat.iter 2 (advance sigma) g))
    with (Nat.iter 4 (advance sigma) g).
  rewrite (nth_draw_shift sigma g 4 1). reflexivity.
Qed.

Lemma draw_rows_spec n sigma g :
  snd (draw_rows n sigma g) = Nat.iter (6 * n) (advance sigma) g /\
  length (fst (draw_rows n sigma g)) = n /\
  forall i r j,
    nth_error (fst (draw_rows n sigma g)) i = Some r ->
    nth3 r j = nth_draw sigma g (2 * (3 * i + ix j) + 1).
Proof.
  revert g. induction n as [|n IH]; intro g.
  - simpl. repeat split; trivial. intros [|i] r j Hr; discriminate.
  - cbn [draw_rows]. rewrite draw_row_spec.
    destruct (IH (Nat.iter 6 (advance sigma) g)) as (Hg & Hlen & Hrows).
    destruct (draw_rows n sigma (Nat.iter 6 (advance sigma) g)) as [rs g2].
    cbn [fst snd] in *. split; [|split].
    + rewrite Hg, <- Nat.iter_add. f_equal. lia.
    + simpl. now rewrite Hlen.
    + intros [|i] r j Hr; simpl in Hr.
      * injection Hr as <-. now destruct j.
      * rewrite (Hrows i r j Hr), nth_draw_shift. f_equal. lia.
Qed.

(** [get_rand_disp] returns with one row per atom and the molecule as it
    was. *)
Lemma get_rand_disp_rows s :
  exists s',
    get_rand_disp s = Ok tt s' /\
    length (rand_disp s') = n_atoms (mol s) /\ mol s' = mol s.
Proof.
  unfold get_rand_disp, modify.
  destruct (draw_rows_spec (n_atoms (mol s)) (dispmag s) (rng s))
    as (_ & Hlen & _).
  destruct (draw_rows _ _ _) as [rows g]. cbn [fst snd] in *.
  eexists. split; [reflexivity|]. split; [exact Hlen | reflexivity].
Qed.

(** C10.  One call of [get_rand_disp] on a molecule of [N] atoms returns
    with [N] rows in [rand_disp] and the generator advanced by exactly
    [6 * N] Gaussian draws of width [dispmag]: component [j] of row [i] is
    draw number [2 * (3 * i + j) + 2], the second of its pair, and the
    first of each pair is stored nowhere.  The draw that follows the call
    is therefore number [6 * N + 1] of the stream, discarded draws
    counted. *)
Theorem get_rand_disp_draws s :
  exists s',
    get_rand_disp s = Ok tt s' /\
    rng s' = Nat.iter (6 * n_atoms (mol s)) (advance (dispmag s)) (rng s) /\
    length (rand_disp s') = n_atoms (mol s) /\
    (forall i r j,
       nth_error (rand_disp s') i = Some r ->
       nth3 r j = nth_draw (dispmag s) (rng s) (2 * (3 * i + ix j) + 1)) /\
    fst (rng_normal (dec 0 0) (dispmag s) (rng s')) =
      nth_draw (dispmag s) (rng s) (6 * n_atoms (mol s)) /\
    mol s' = mol s /\ dispmag s' = dispmag s.
Proof.
  unfold get_rand_disp, modify.
  destruct (draw_rows_spec (n_atoms (mol s)) (dispmag s) (rng s))
    as (Hg & Hlen & Hrows).
  destruct (draw_rows _ _ _) as [rows g]. cbn [fst snd] in *.
  eexists. split; [reflexivity|]. simpl.
  repeat split; trivial. unfold nth_draw. now rewrite Hg.
Qed.

End RandomDisplacement.

(** ** Reading the driver over the real numbers *)

Section RealComparisons.
Local Open Scope R_scope.

Lemma Rleb_true x y : x <= y -> Rleb x y = true.
Proof. intro Hle. unfold Rleb. destruct (Rle_dec x y); [reflexivity|lra]. Qed.

(** Python's [min] is the minimum. *)
Lemma fmin_Rmin (a b : R) : fmin a b = Rmin a b.
Proof.
  unfold fmin, Rmin. simpl. unfold Rltb.
  destruct (Rlt_dec b a), (Rle_dec a b); lra.
Qed.

End RealComparisons.

Section MetropolisFactor.
Context {Rng : Type} {W : Env R Rng}.
Local Open Scope R_scope.

Lemma boltzmann_factor_real delta_e T :
  boltzmann_factor delta_e T = exp (Rmin 1 (- delta_e / (kb * T))).
Proof.
  unfold boltzmann_factor. rewrite fmin_Rmin. simpl.
  replace (1 / 1) with 1 by lra.
  replace (-1 / 1 * delta_e) with (- delta_e) by lra. reflexivity.
Qed.

Lemma exp_gt_1 x : 0 < x -> 1 < exp x.
Proof. intro Hx. rewrite <- exp_0. now apply exp_increasing. Qed.

Lemma exp_lt_1 x : x < 0 -> exp x < 1.
Proof. intro Hx. rewrite <- exp_0. now apply exp_increasing. Qed.

Lemma exp_le_mono x y : x <= y -> exp x <= exp y.
Proof.
  intros [Hlt | ->]; [left; now apply exp_increasing | right; reflexivity].
Qed.

(** C1, as the code has it.  The factor of a trial is
    [exp(min(1, -delta_e / (kb * temp)))].  With [kb] and [temp] positive:
    for [delta_e <= 0] it lies between [1] and [e], is [1] only at
    [delta_e = 0], and passes the test [bf >= u] against every draw
    [u < 1]; for [delta_e > 0] it is [exp(-delta_e / (kb * temp))], below
    [1]; and it tends to [0] as [delta_e] grows without bound. *)
Theorem boltzmann_factor_bounds (T : R) :
  0 < kb -> 0 < T ->
  (forall delta_e,
     boltzmann_factor delta_e T = exp (Rmin 1 (- delta_e / (kb * T)))) /\
  (forall delta_e, delta_e <= 0 ->
     1 <= boltzmann_factor delta_e T <= exp 1 /\
     (boltzmann_factor delta_e T = 1 <-> delta_e = 0) /\
     forall u, u < 1 -> (boltzmann_factor delta_e T >=? u)%fl = true) /\
  (forall delta_e, 0 < delta_e ->
     boltzmann_factor delta_e T = exp (- delta_e / (kb * T)) /\
     boltzmann_factor delta_e T < 1) /\
  (forall eps, 0 < eps ->
     exists bound, forall delta_e, bound < delta_e ->
       0 < boltzmann_factor delta_e T < eps).
Proof.
  intros Hkb HT.
  assert (HkT : 0 < kb * T) by now apply Rmult_lt_0_compat.
  assert (Hsign : forall d, 0 < d -> - d / (kb * T) < 0).
  { intros d Hd. unfold Rdiv. rewrite <- Ropp_mult_distr_l.
    apply Ropp_lt_gt_0_contravar, Rlt_gt, Rmult_lt_0_compat; [exact Hd|].
    now apply Rinv_0_lt_compat. }
  assert (Hnonneg : forall d, d <= 0 -> 0 <= - d / (kb * T)).
  { intros d Hd. unfold Rdiv. apply Rmult_le_pos; [lra|].
    left. now apply Rinv_0_lt_compat. }
  split; [|split; [|split]].
  - intro d. apply boltzmann_factor_real.
  - intros d Hd. rewrite boltzmann_factor_real.
    specialize (Hnonneg d Hd).
    assert (Hlo : 0 <= Rmin 1 (- d / (kb * T))) by (apply Rmin_glb; lra).
    assert (Hhi : Rmin 1 (- d / (kb * T)) <= 1) by apply Rmin_l.
    assert (Hone : 1 <= exp (Rmin 1 (- d / (kb * T))))
      by (apply Rle_trans with (exp 0);
          [rewrite exp_0; lra | now apply exp_le_mono]).
    split; [split; [exact Hone | now apply exp_le_mono]|]. split.
    + split.
      * intro Heq. destruct (Rle_lt_or_eq_dec _ _ Hd) as [Hneg | ->];
          [|reflexivity].
        exfalso.
        assert (Hpos : 0 < - d / (kb * T)).
        { unfold Rdiv. apply Rmult_lt_0_compat; [lra|].
          now apply Rinv_0_lt_compat. }
        assert (0 < Rmin 1 (- d / (kb * T))) by (apply Rmin_glb_lt; lra).
        pose proof (exp_gt_1 H). lra.
      * intros ->. replace (- 0 / (kb * T)) with 0 by (unfold Rdiv; lra).
        rewrite Rmin_right by lra. apply exp_0.
    + intros u Hu. simpl. apply Rleb_true. lra.
  - intros d Hd. rewrite boltzmann_factor_real.
    specialize (Hsign d Hd). rewrite Rmin_right by lra.
    split; [reflexivity | now apply exp_lt_1].
  - intros eps Heps. exists (Rmax 0 (- ln eps * (kb * T))).
    intros d Hd. rewrite boltzmann_factor_real.
    assert (Hd0 : 0 < d) by (eapply Rle_lt_trans; [apply Rmax_l | exact Hd]).
    assert (Hd1 : - ln eps * (kb * T) < d)
      by (eapply Rle_lt_trans; [apply Rmax_r | exact Hd]).
    specialize (Hsign d Hd0). rewrite Rmin_right by lra.
    split; [apply exp_pos|].
    apply Rlt_le_trans with (exp (ln eps)); [|rewrite exp_ln; lra].
    apply exp_increasing.
    apply Rmult_lt_reg_r with (kb * T); [exact HkT|].
    unfold Rdiv. rewrite Rmult_assoc, Rinv_l by lra. lra.
Qed.

End MetropolisFactor.

(** C1, as stated, fails: in the demo world at the default temperature a
    trial that lowers the energy by [1] has factor [e], not [1]. *)
Lemma boltzmann_factor_downhill_exceeds_one :
  boltzmann_factor (W := demo_env (F := R)) (-1)%R (temp (demo_run_cfg mc))
    = exp 1 /\
  boltzmann_factor (W := demo_env (F := R)) (-1)%R (temp (demo_run_cfg mc))
    <> 1%R.
Proof.
  assert (Heq : boltzmann_factor (W := demo_env (F := R)) (-1)%R
                  (temp (demo_run_cfg mc)) = exp 1).
  { rewrite boltzmann_factor_real. f_equal. apply Rmin_left.
    set (kT := (kb * temp (demo_run_cfg mc))%R).
    assert (HkT : (0 < kT <= 1)%R) by (subst kT; simpl; lra).
    replace (- -1)%R with 1%R by lra.
    apply Rmult_le_reg_r with kT; [lra|].
    unfold Rdiv. rewrite Rmult_assoc, Rinv_l by lra. lra. }
  split; [exact Heq|]. rewrite Heq.
  pose proof (exp_gt_1 Rlt_0_1). lra.
Qed.

(** In the demo world a trial that leaves the energy unchanged has factor
    [1]. *)
Lemma boltzmann_factor_bounds_witness :
  (0 < kb (Env := demo_env (F := R)))%R /\
  (0 < temp (demo_run_cfg (F := R) mc))%R /\
  boltzmann_factor (W := demo_env (F := R)) 0%R (temp (demo_run_cfg mc))
    = 1%R.
Proof.
  assert (Hkb : (0 < kb (Env := demo_env (F := R)))%R) by (simpl; lra).
  assert (HT : (0 < temp (demo_run_cfg (F := R) mc))%R) by (simpl; lra).
  split; [exact Hkb|]. split; [exact HT|].
  destruct (boltzmann_factor_bounds (W := demo_env (F := R)) Hkb HT)
    as (_ & Hdown & _).
  destruct (Hdown 0%R (Rle_refl 0)) as (_ & Hone & _).
  apply Hone. reflexivity.
Defined.

(** ** The displacement controller *)

Section DisplacementController.
Context {Rng : Type}.
Implicit Type s : Sim R Rng.
Local Open Scope R_scope.

Lemma changedisp_real s :
  (n_reject s + n_accept s <> 0)%Z ->
  changedisp s =
    Ok tt
      (set_dispmag
         (dispmag s *
          exp (2 * dispinc (cfg s) *
               (IZR (n_accept s) / IZR (n_accept s + n_reject s) - 0.5)))
         (set_n_reject 0%Z (set_n_accept 0%Z s))).
Proof.
  intro Hsum. unfold changedisp, bind, get, modify.
  apply Z.eqb_neq in Hsum. rewrite Hsum. simpl.
  replace (n_reject s + n_accept s)%Z with (n_accept s + n_reject s)%Z by lia.
  replace (2 / 1) with 2 by lra. replace (5 / (10 * 1)) with 0.5 by lra.
  reflexivity.
Qed.

(** C5.  With at least one trial counted, [changedisp] returns, resets
    both counters and multiplies [dispmag] by
    [exp(2 * dispinc * (p_accept - 0.5))] where
    [p_accept = n_accept / (n_accept + n_reject)]; so, for positive
    [dispinc] and [dispmag], the magnitude grows when [p_accept > 0.5],
    shrinks when [p_accept < 0.5] and stays when [p_accept = 0.5]. *)
Theorem changedisp_steers s :
  (0 < n_accept s + n_reject s)%Z ->
  let p_accept := IZR (n_accept s) / IZR (n_accept s + n_reject s) in
  exists s',
    changedisp s = Ok tt s' /\
    n_accept s' = 0%Z /\ n_reject s' = 0%Z /\
    dispmag s' = dispmag s * exp (2 * dispinc (cfg s) * (p_accept - 0.5)) /\
    (0 < dispinc (cfg s) -> 0 < dispmag s ->
       (0.5 < p_accept -> dispmag s < dispmag s') /\
       (p_accept < 0.5 -> dispmag s' < dispmag s) /\
       (p_accept = 0.5 -> dispmag s' = dispmag s)).
Proof.
  intros Hsum p_accept. eexists. split; [apply changedisp_real; lia|].
  simpl. fold p_accept. repeat split; trivial.
  - intro Hp.
    assert (Hx : 0 < 2 * dispinc (cfg s) * (p_accept - 0.5)) by nra.
    pose proof (exp_gt_1 Hx). nra.
  - intro Hp.
    assert (Hx : 2 * dispinc (cfg s) * (p_accept - 0.5) < 0) by nra.
    pose proof (exp_lt_1 Hx). nra.
  - intros ->. replace (2 * dispinc (cfg s) * (0.5 - 0.5)) with 0 by lra.
    rewrite exp_0. lra.
Qed.

End DisplacementController.

(** The three cases of the specification: 80 accepted and 20 rejected,
    20 and 80, 50 and 50. *)
Lemma changedisp_steers_witness :
  let s : Z -> Z -> Sim R nat := demo_counts in
  (0 < n_accept (s 80 20) + n_reject (s 80 20))%Z /\
  (exists s', changedisp (s 80 20)%Z = Ok tt s' /\
              (dispmag (s 80 20)%Z < dispmag s')%R) /\
  (exists s', changedisp (s 20 80)%Z = Ok tt s' /\
              (dispmag s' < dispmag (s 20 80)%Z)%R) /\
  (exists s', changedisp (s 50 50)%Z = Ok tt s' /\
              dispmag s' = dispmag (s 50 50)%Z).
Proof.
  intro s. subst s. split; [simpl; lia|]. split; [|split].
  - destruct (@changedisp_steers nat (demo_counts 80 20))
      as (s' & Hrun & _ & _ & _ & Hdir); [simpl; lia|].
    exists s'. split; [exact Hrun|]. apply Hdir; simpl; lra.
  - destruct (@changedisp_steers nat (demo_counts 20 80))
      as (s' & Hrun & _ & _ & _ & Hdir); [simpl; lia|].
    exists s'. split; [exact Hrun|]. apply Hdir; simpl; lra.
  - destruct (@changedisp_steers nat (demo_counts 50 50))
      as (s' & Hrun & _ & _ & _ & Hdir); [simpl; lia|].
    exists s'. split; [exact Hrun|]. apply Hdir; simpl; lra.
Defined.

(** ** What each method leaves alone *)

Section FrameLemmas.
Context {F Rng : Type} {AF : Arith F} {W : Env F Rng}.
Implicit Types s : Sim F Rng.
Local Open Scope fl_scope.

Lemma moves_only_refl s : moves_only s s.
Proof.
  exists (mol s), (etemp s), (rng s), (rand_disp s). now destruct s.
Qed.

Lemma moves_only_trans s1 s2 s3 :
  moves_only s1 s2 -> moves_only s2 s3 -> moves_only s1 s3.
Proof.
  intros (m & e & g & r & ->) (m' & e' & g' & r' & ->).
  exists m', e', g', r'. reflexivity.
Qed.

Lemma reports_only_refl s : reports_only s s.
Proof.
  exists (gfile s), (efile s), (stime s), (gtime s), (etime s), (gconf s),
    (econf s), (ticks s), (stdout s).
  now destruct s.
Qed.

Lemma reports_only_trans s1 s2 s3 :
  reports_only s1 s2 -> reports_only s2 s3 -> reports_only s1 s3.
Proof.
  intros (gf & ef & st & gt & et & gc & ec & tk & so & ->)
         (gf' & ef' & st' & gt' & et' & gc' & ec' & tk' & so' & ->).
  exists gf', ef', st', gt', et', gc', ec', tk', so'. reflexivity.
Qed.

Lemma moves_only_set_mol m s : moves_only s (set_mol m s).
Proof. exists m, (etemp s), (rng s), (rand_disp s). now destruct s. Qed.

Lemma moves_only_set_etemp e s : moves_only s (set_etemp e s).
Proof. exists (mol s), e, (rng s), (rand_disp s). now destruct s. Qed.

Lemma moves_only_set_rng g s : moves_only s (set_rng g s).
Proof. exists (mol s), (etemp s), g, (rand_disp s). now destruct s. Qed.

Lemma moves_only_set_rand_disp r s : moves_only s (set_rand_disp r s).
Proof. exists (mol s), (etemp s), (rng s), r. now destruct s. Qed.

(** The atom updates. *)

Lemma update_vels_moves D tstep s :
  wp D (update_vels tstep) (fun _ s' => moves_only s s')
     (fun _ _ => False) s.
Proof. apply moves_only_set_mol. Qed.

Lemma update_coords_moves D tstep vconst aconst s :
  wp D (update_coords tstep vconst aconst) (fun _ s' => moves_only s s')
     (fun _ _ => False) s.
Proof. apply moves_only_set_mol. Qed.

Lemma zero_vels_moves D s :
  wp D zero_vels (fun _ s' => moves_only s s') (fun _ _ => False) s.
Proof. apply moves_only_set_mol. Qed.

Lemma update_accs_moves D s :
  wp D update_accs (fun _ s' => moves_only s s')
     (fun _ s' => moves_only s s' /\ ~ rows_enough s) s.
Proof.
  unfold wp, update_accs, rows_enough.
  pose proof (zip_rows_complete acc_atom acc_atom_partial
                (atoms (mol s)) (g_total (mol s))) as Hok.
  destruct (zip_rows _ _ _ _) as [l [|]]; simpl in *.
  - apply moves_only_set_mol.
  - split; [apply moves_only_set_mol|]. intro Hlen.
    specialize (Hok Hlen). discriminate.
Qed.

Lemma call_energy_moves D mode s :
  wp D (call_energy mode) (fun _ s' => moves_only s s')
     (fun _ s' => moves_only s s' /\ ~ model_ok) s.
Proof.
  unfold wp, call_energy.
  destruct (get_energy mode (mol s)) as [m [e|]] eqn:Hm.
  - split; [apply moves_only_set_mol|]. intros [Hen _].
    specialize (Hen mode (mol s)). rewrite Hm in Hen. discriminate.
  - apply moves_only_set_mol.
Qed.

Lemma call_gradient_moves D s :
  wp D call_gradient
     (fun _ s' => moves_only s s' /\ (model_ok -> rows_enough s'))
     (fun _ s' => moves_only s s' /\ ~ model_ok) s.
Proof.
  unfold wp, call_gradient.
  destruct (get_gradient (mol s)) as [m [e|]] eqn:Hm.
  - split; [apply moves_only_set_mol|]. intros [_ Hgr].
    destruct (Hgr (mol s)) as [Hnone _]. rewrite Hm in Hnone. discriminate.
  - split; [apply moves_only_set_mol|]. intros [_ Hgr].
    destruct (Hgr (mol s)) as [_ Hrows]. rewrite Hm in Hrows. exact Hrows.
Qed.

Lemma equilibrate_temp_moves D s :
  wp D equilibrate_temp (fun _ s' => moves_only s s') (fun _ _ => False) s.
Proof.
  unfold equilibrate_temp. apply wp_bind, wp_get, wp_bind, wp_modify.
  apply wp_bind, wp_get, wp_modify.
  eapply moves_only_trans; [apply moves_only_set_etemp|].
  apply moves_only_set_mol.
Qed.

Lemma get_rand_disp_moves D s :
  wp D get_rand_disp (fun _ s' => moves_only s s') (fun _ _ => False) s.
Proof.
  unfold get_rand_disp. apply wp_modify.
  destruct (draw_rows _ _ _) as [rows g].
  eapply moves_only_trans; [apply moves_only_set_rand_disp|].
  apply moves_only_set_rng.
Qed.

Lemma initialize_vels_moves D s :
  wp D initialize_vels (fun _ s' => moves_only s s')
     (fun _ s' => moves_only s s' /\ ~ model_ok) s.
Proof.
  unfold initialize_vels. apply wp_bind, wp_get.
  destruct (_ >? _); [|apply wp_ret, moves_only_refl].
  do 3 (apply wp_bind, wp_modify).
  set (s1 := set_rng _ (set_etemp _ s)).
  assert (H1 : moves_only s s1).
  { eapply moves_only_trans; [apply moves_only_set_etemp|].
    apply moves_only_set_rng. }
  destruct (draw_vels _ _ _) as [l g].
  set (s2 := set_rng g _).
  assert (H2 : moves_only s s2).
  { eapply moves_only_trans; [exact H1|].
    eapply moves_only_trans; [apply moves_only_set_mol|].
    apply moves_only_set_rng. }
  apply wp_bind.
  eapply wp_mono; [apply call_energy_moves| |]; cbv beta.
  - intros _ s3 H3. apply wp_bind, wp_get, wp_modify.
    eapply moves_only_trans; [exact H2|].
    eapply moves_only_trans; [exact H3|]. apply moves_only_set_mol.
  - intros e s3 [H3 Hbad]. split; [|exact Hbad].
    eapply moves_only_trans; [exact H2 | exact H3].
Qed.

End FrameLemmas.

(** ** Output *)

Section OutputRules.
Context {F Rng : Type} {AF : Arith F} {W : Env F Rng}.
Implicit Types s : Sim F Rng.
Local Open Scope fl_scope.

Lemma reports_only_keeps s s' :
  reports_only s s' ->
  cfg s' = cfg s /\ mol s' = mol s /\ time s' = time s /\
  conf s' = conf s /\ dconf s' = dconf s /\ n_accept s' = n_accept s /\
  n_reject s' = n_reject s /\ dispmag s' = dispmag s /\
  rand_disp s' = rand_disp s /\ rng s' = rng s /\ etemp s' = etemp s.
Proof.
  intros (gf & ef & st & gt & et & gc & ec & tk & so & ->).
  repeat split.
Qed.

Lemma moves_only_keeps s s' :
  moves_only s s' ->
  cfg s' = cfg s /\ time s' = time s /\
  conf s' = conf s /\ dconf s' = dconf s /\ n_accept s' = n_accept s /\
  n_reject s' = n_reject s /\ dispmag s' = dispmag s /\
  gfile s' = gfile s /\ efile s' = efile s /\
  gtime s' = gtime s /\ etime s' = etime s /\
  gconf s' = gconf s /\ econf s' = econf s.
Proof.
  intros (m & e & g & r & ->). repeat split.
Qed.

Lemma logged_refl s : files_open s -> logged s s [] [].
Proof.
  intro Hopen. split; [apply reports_only_refl|]. split; [exact Hopen|].
  now rewrite !app_nil_r.
Qed.

Lemma logged_trans s1 s2 s3 e1 g1 e2 g2 :
  logged s1 s2 e1 g1 -> logged s2 s3 e2 g2 ->
  logged s1 s3 (e1 ++ e2) (g1 ++ g2).
Proof.
  intros (Hr1 & _ & He1 & Hg1) (Hr2 & Ho2 & He2 & Hg2).
  split; [eapply reports_only_trans; eassumption|]. split; [exact Ho2|].
  rewrite He2, He1, Hg2, Hg1, !app_assoc. auto.
Qed.

(** Setting one of the schedule fields reports nothing. *)
Lemma logged_schedule s (f : Sim F Rng -> Sim F Rng) :
  files_open s ->
  (exists st gt et gc ec tk so,
     f s = set_stdout so (set_ticks tk (set_econf ec (set_gconf gc
             (set_etime et (set_gtime gt (set_stime st s))))))) ->
  logged s (f s) [] [].
Proof.
  intros Hopen (st & gt & et & gc & ec & tk & so & ->).
  split; [|split; [exact Hopen | now rewrite !app_nil_r]].
  exists (gfile s), (efile s), st, gt, et, gc, ec, tk, so. now destruct s.
Qed.

Lemma logged_set_etime v s : files_open s -> logged s (set_etime v s) [] [].
Proof.
  intro Hopen. apply logged_schedule; [assumption|].
  exists (stime s), (gtime s), v, (gconf s), (econf s), (ticks s), (stdout s).
  now destruct s.
Qed.

Lemma logged_set_gtime v s : files_open s -> logged s (set_gtime v s) [] [].
Proof.
  intro Hopen. apply logged_schedule; [assumption|].
  exists (stime s), v, (etime s), (gconf s), (econf s), (ticks s), (stdout s).
  now destruct s.
Qed.

Lemma logged_set_econf v s : files_open s -> logged s (set_econf v s) [] [].
Proof.
  intro Hopen. apply logged_schedule; [assumption|].
  exists (stime s), (gtime s), (etime s), (gconf s), v, (ticks s), (stdout s).
  now destruct s.
Qed.

Lemma logged_set_gconf v s : files_open s -> logged s (set_gconf v s) [] [].
Proof.
  intro Hopen. apply logged_schedule; [assumption|].
  exists (stime s), (gtime s), (etime s), v, (econf s), (ticks s), (stdout s).
  now destruct s.
Qed.

Lemma logged_set_stime v s : files_open s -> logged s (set_stime v s) [] [].
Proof.
  intro Hopen. apply logged_schedule; [assumption|].
  exists v, (gtime s), (etime s), (gconf s), (econf s), (ticks s), (stdout s).
  now destruct s.
Qed.

Lemma wp_print_energy D (Q : unit -> Sim F Rng -> Prop) E s :
  is_open (efile s) = true ->
  Q tt (set_efile (f_write (energy_row s) (efile s)) s) ->
  wp D print_energy Q E s.
Proof.
  intros He HQ. unfold print_energy, write_efile.
  apply wp_bind, wp_get, wp_bind, wp_get. rewrite He. apply wp_modify, HQ.
Qed.

Lemma wp_print_geom D (Q : unit -> Sim F Rng -> Prop) E s :
  is_open (gfile s) = true ->
  Q tt (set_gfile (f_write (geom_frame s) (gfile s)) s) ->
  wp D print_geom Q E s.
Proof.
  intros Hg HQ. unfold print_geom, write_gfile.
  apply wp_bind, wp_get, wp_bind, wp_get. rewrite Hg. apply wp_modify, HQ.
Qed.

Lemma logged_energy_row s :
  files_open s ->
  logged s (set_efile (f_write (energy_row s) (efile s)) s) [energy_row s] [].
Proof.
  intros [Hg He]. split; [|split; [split; assumption|split]].
  - exists (gfile s), (f_write (energy_row s) (efile s)), (stime s),
      (gtime s), (etime s), (gconf s), (econf s), (ticks s), (stdout s).
    now destruct s.
  - unfold contents. simpl. now rewrite app_assoc.
  - simpl. now rewrite app_nil_r.
Qed.

Lemma logged_geom_frame s :
  files_open s ->
  logged s (set_gfile (f_write (geom_frame s) (gfile s)) s) [] [geom_frame s].
Proof.
  intros [Hg He]. split; [|split; [split; assumption|split]].
  - exists (f_write (geom_frame s) (gfile s)), (efile s), (stime s),
      (gtime s), (etime s), (gconf s), (econf s), (ticks s), (stdout s).
    now destruct s.
  - simpl. now rewrite app_nil_r.
  - unfold contents. simpl. now rewrite app_assoc.
Qed.

Lemma print_status_logged D s :
  files_open s ->
  wp D print_status
     (fun _ s' => logged s s' [] [] /\
                  pending (gfile s') = [] /\ pending (efile s') = [])
     (fun _ _ => False) s.
Proof.
  intros [Hg He]. unfold print_status, flush_gfile, flush_efile.
  apply wp_bind, wp_modify, wp_bind, wp_bind, wp_get. simpl. rewrite Hg.
  apply wp_modify, wp_bind, wp_get. simpl. rewrite He. apply wp_modify.
  simpl. split; [|split; reflexivity].
  split; [|split; [split; assumption|split]].
  - exists (f_flush (gfile s)), (f_flush (efile s)), (stime s),
      (gtime s), (etime s), (gconf s), (econf s), (ticks s),
      (stdout s ++ [stamp s]).
    now destruct s.
  - unfold contents. simpl. now rewrite !app_nil_r.
  - unfold contents. simpl. now rewrite !app_nil_r.
Qed.

Lemma time_time_logged D s :
  files_open s ->
  wp D time_time (fun _ s' => logged s s' [] []) (fun _ _ => False) s.
Proof.
  intro Hopen. unfold wp, time_time.
  apply logged_schedule; [assumption|].
  exists (stime s), (gtime s), (etime s), (gconf s), (econf s),
    (S (ticks s)), (stdout s).
  now destruct s.
Qed.

Lemma check_status_logged D pa s :
  files_open s ->
  wp D (check_status pa) (fun _ s' => logged s s' [] []) (fun _ _ => False) s.
Proof.
  intro Hopen. unfold check_status, status_due. apply wp_bind.
  assert (Hwhen : forall due s1, logged s s1 [] [] ->
    wp D (when due
            (print_status ;; now <- time_time ;; modify (set_stime now)))
       (fun _ s' => logged s s' [] []) (fun _ _ => False) s1).
  { intros due s1 H1. apply wp_when; [intros _ | intros _; exact H1].
    assert (Ho1 : files_open s1) by apply H1.
    apply wp_bind.
    eapply wp_mono; [apply print_status_logged, Ho1| |]; cbv beta;
      [|tauto].
    intros _ s2 [H2 _]. assert (Ho2 : files_open s2) by apply H2.
    apply wp_bind.
    eapply wp_mono; [apply time_time_logged, Ho2| |]; cbv beta; [|tauto].
    intros now s3 H3. assert (Ho3 : files_open s3) by apply H3.
    apply wp_modify.
    apply (logged_trans H1), (logged_trans H2), (logged_trans H3).
    apply logged_set_stime, Ho3. }
  destruct pa.
  - apply wp_ret, Hwhen, logged_refl, Hopen.
  - apply wp_bind.
    eapply wp_mono; [apply time_time_logged, Hopen| |]; cbv beta; [|tauto].
    intros now s1 H1. apply wp_bind, wp_get, wp_ret, Hwhen, H1.
Qed.

(** The schedule is consulted in the state the check is entered with. *)
Lemma check_print_md_logged D ts pa s :
  files_open s ->
  wp D (check_print_md ts pa)
     (fun _ s' =>
        logged s s'
          (if pa || (etime s >=? energytime (cfg s))
           then [energy_row s] else [])
          (if pa || (gtime s >=? geomtime (cfg s))
           then [geom_frame s] else []))
     (fun _ _ => False) s.
Proof.
  intro Hopen. unfold check_print_md. apply wp_bind, wp_get.
  set (be := pa || (etime s >=? energytime (cfg s))).
  set (bg := pa || (gtime s >=? geomtime (cfg s))).
  pose (s1 := if be
              then set_etime (dec 1 10)
                     (set_efile (f_write (energy_row s) (efile s)) s)
              else s).
  assert (H1 : logged s s1 (if be then [energy_row s] else []) []).
  { subst s1. destruct be; [|apply logged_refl, Hopen].
    pose proof (logged_energy_row Hopen) as Hrow.
    apply (logged_trans Hrow), logged_set_etime, Hrow. }
  assert (Ho1 : files_open s1) by apply H1.
  apply wp_bind, wp_mono with (Q := fun _ s' => s' = s1)
                              (E := fun _ _ => False); [| |tauto].
  { apply wp_when; intro Hb; subst s1; rewrite Hb; [|reflexivity].
    apply wp_bind, wp_print_energy; [apply Hopen|]. now apply wp_modify. }
  intros _ ? ->. apply wp_bind, wp_get.
  assert (Hsame : gtime s1 = gtime s /\ cfg s1 = cfg s /\
                  geom_frame s1 = geom_frame s)
    by (subst s1; destruct be; repeat split).
  destruct Hsame as (Hgt & Hcfg & Hframe). rewrite Hgt, Hcfg. fold bg.
  pose (s2 := if bg
              then set_gtime (dec 1 10)
                     (set_gfile (f_write (geom_frame s1) (gfile s1)) s1)
              else s1).
  assert (H2 : logged s1 s2 [] (if bg then [geom_frame s] else [])).
  { subst s2. destruct bg; [|apply logged_refl, Ho1].
    pose proof (logged_geom_frame Ho1) as Hrow. rewrite Hframe in Hrow at 2.
    apply (logged_trans Hrow), logged_set_gtime, Hrow. }
  assert (Ho2 : files_open s2) by apply H2.
  apply wp_bind, wp_mono with (Q := fun _ s' => s' = s2)
                              (E := fun _ _ => False); [| |tauto].
  { apply wp_when; intro Hb; subst s2; rewrite Hb; [|reflexivity].
    apply wp_bind, wp_print_geom; [apply Ho1|]. now apply wp_modify. }
  intros _ ? ->. apply wp_bind.
  eapply wp_mono; [apply check_status_logged, Ho2| |]; cbv beta; [|tauto].
  intros _ s3 H3. assert (Ho3 : files_open s3) by apply H3.
  apply wp_bind, wp_modify, wp_modify.
  pose proof (logged_set_etime (etime s3 + ts) Ho3) as H4.
  pose proof (logged_set_gtime
                (gtime (set_etime (etime s3 + ts) s3) + ts)
                (proj1 (proj2 H4))) as H5.
  pose proof (logged_trans H1 (logged_trans H2
               (logged_trans H3 (logged_trans H4 H5)))) as Hall.
  rewrite !app_nil_r in Hall. exact Hall.
Qed.

Lemma check_print_mc_logged D n_conf pa s :
  files_open s ->
  wp D (check_print_mc n_conf pa)
     (fun _ s' =>
        logged s s'
          (if pa || (econf s >=? energyconf (cfg s))%Z
           then [energy_row s] else [])
          (if pa || (gconf s >=? geomconf (cfg s))%Z
           then [geom_frame s] else []))
     (fun _ _ => False) s.
Proof.
  intro Hopen. unfold check_print_mc. apply wp_bind, wp_get.
  set (be := pa || (econf s >=? energyconf (cfg s))%Z).
  set (bg := pa || (gconf s >=? geomconf (cfg s))%Z).
  pose (s1 := if be
              then set_econf 0%Z
                     (set_efile (f_write (energy_row s) (efile s)) s)
              else s).
  assert (H1 : logged s s1 (if be then [energy_row s] else []) []).
  { subst s1. destruct be; [|apply logged_refl, Hopen].
    pose proof (logged_energy_row Hopen) as Hrow.
    apply (logged_trans Hrow), logged_set_econf, Hrow. }
  assert (Ho1 : files_open s1) by apply H1.
  apply wp_bind, wp_mono with (Q := fun _ s' => s' = s1)
                              (E := fun _ _ => False); [| |tauto].
  { apply wp_when; intro Hb; subst s1; rewrite Hb; [|reflexivity].
    apply wp_bind, wp_print_energy; [apply Hopen|]. now apply wp_modify. }
  intros _ ? ->. apply wp_bind, wp_get.
  assert (Hsame : gconf s1 = gconf s /\ cfg s1 = cfg s /\
                  geom_frame s1 = geom_frame s)
    by (subst s1; destruct be; repeat split).
  destruct Hsame as (Hgc & Hcfg & Hframe). rewrite Hgc, Hcfg. fold bg.
  pose (s2 := if bg
              then set_gconf 0%Z
                     (set_gfile (f_write (geom_frame s1) (gfile s1)) s1)
              else s1).
  assert (H2 : logged s1 s2 [] (if bg then [geom_frame s] else [])).
  { subst s2. destruct bg; [|apply logged_refl, Ho1].
    pose proof (logged_geom_frame Ho1) as Hrow. rewrite Hframe in Hrow at 2.
    apply (logged_trans Hrow), logged_set_gconf, Hrow. }
  assert (Ho2 : files_open s2) by apply H2.
  apply wp_bind, wp_mono with (Q := fun _ s' => s' = s2)
                              (E := fun _ _ => False); [| |tauto].
  { apply wp_when; intro Hb; subst s2; rewrite Hb; [|reflexivity].
    apply wp_bind, wp_print_geom; [apply Ho1|]. now apply wp_modify. }
  intros _ ? ->. apply wp_bind.
  eapply wp_mono; [apply check_status_logged, Ho2| |]; cbv beta; [|tauto].
  intros _ s3 H3. assert (Ho3 : files_open s3) by apply H3.
  apply wp_bind, wp_modify, wp_modify.
  pose proof (logged_set_econf (econf s3 + n_conf)%Z Ho3) as H4.
  pose proof (logged_set_gconf
                (gconf (set_econf (econf s3 + n_conf)%Z s3) + n_conf)%Z
                (proj1 (proj2 H4))) as H5.
  pose proof (logged_trans H1 (logged_trans H2
               (logged_trans H3 (logged_trans H4 H5)))) as Hall.
  rewrite !app_nil_r in Hall. exact Hall.
Qed.

(** [close_output_files] leaves both files closed with all they were given
    on disk. *)
Lemma close_output_files_closes D s :
  files_open s ->
  wp D close_output_files
     (fun _ s' =>
        reports_only s s' /\
        closed_clean (gfile s') /\ closed_clean (efile s') /\
        disk (gfile s') = contents (gfile s) /\
        disk (efile s') = contents (efile s))
     (fun _ _ => False) s.
Proof.
  intro Hopen. unfold close_output_files. apply wp_bind.
  eapply wp_mono; [apply print_status_logged, Hopen| |]; cbv beta; [|tauto].
  intros _ s1 ((Hr & [Hg He] & Hce & Hcg) & Hpg & Hpe).
  apply wp_bind, wp_modify, wp_modify. simpl.
  unfold f_close. rewrite Hg, He. simpl.
  rewrite !app_nil_r in Hce, Hcg. unfold contents in Hce, Hcg.
  rewrite Hpe in Hce. rewrite Hpg in Hcg. rewrite !app_nil_r in Hce, Hcg.
  rewrite Hpe, Hpg, !app_nil_r.
  split; [|repeat split; assumption].
  eapply reports_only_trans; [exact Hr|].
  exists (mkFile false [] (disk (gfile s1))),
    (mkFile false [] (disk (efile s1))), (stime s1), (gtime s1), (etime s1),
    (gconf s1), (econf s1), (ticks s1), (stdout s1).
  now destruct s1.
Qed.

(** [open_output_files] leaves both files open, the energy file holding the
    header and the geometry file empty; in a Monte-Carlo run it also resets
    [dconf]. *)
Lemma open_output_files_opens D s :
  wp D open_output_files
     (fun _ s' =>
        files_open s' /\
        reports_only
          (match simtype (cfg s) with md => s | mc => set_dconf 0%Z s end) s' /\
        contents (efile s') = [Header] /\ contents (gfile s') = [])
     (fun _ _ => False) s.
Proof.
  unfold open_output_files, print_energy_header, write_efile.
  apply wp_bind, wp_modify, wp_bind, wp_modify, wp_bind, wp_bind, wp_get.
  simpl. apply wp_modify, wp_bind. unfold wp at 1, time_time.
  apply wp_bind, wp_modify, wp_bind, wp_get. simpl.
  destruct (simtype (cfg s)); repeat (apply wp_bind, wp_modify);
    apply wp_modify; simpl.
  - repeat split.
    exists f_open, (f_write Header f_open), (wallclock (ticks s)),
      (dec 1 10), (dec 1 10), (gconf s), (econf s), (S (ticks s)), (stdout s).
    now destruct s.
  - repeat split.
    exists f_open, (f_write Header f_open), (wallclock (ticks s)),
      (gtime s), (etime s), 0%Z, 0%Z, (S (ticks s)), (stdout s).
    now destruct s.
Qed.

End OutputRules.

(** ** Molecular dynamics *)

Section Dynamics.
Context {F Rng : Type} {AF : Arith F} {W : Env F Rng}.
Implicit Types s : Sim F Rng.
Local Open Scope fl_scope.

Lemma md_kept_moves s s1 s2 :
  md_kept s s1 -> moves_only s1 s2 -> md_kept s s2.
Proof.
  intros ([Hg He] & Hc & Ht) Hm.
  apply moves_only_keeps in Hm
    as (Hc' & Ht' & _ & _ & _ & _ & _ & Hg' & He' & _).
  repeat split; congruence.
Qed.

Lemma md_kept_logged s s1 s2 er gr :
  md_kept s s1 -> logged s1 s2 er gr -> md_kept s s2.
Proof.
  intros (_ & Hc & Ht) (Hr & Ho & _).
  apply reports_only_keeps in Hr as (Hc' & _ & Ht' & _).
  repeat split; try apply Ho; congruence.
Qed.

Lemma md_step_spec D s :
  files_open s ->
  wp D md_step
     (fun _ s' => files_open s' /\ cfg s' = cfg s /\
                  time s' = time s + timestep (cfg s))
     (fun _ s' => files_open s' /\ cfg s' = cfg s /\ ~ model_ok) s.
Proof.
  intro Hopen.
  assert (K0 : md_kept s s) by (repeat split; apply Hopen).
  assert (Hexc : forall s1 s2, md_kept s s1 -> moves_only s1 s2 ->
            files_open s2 /\ cfg s2 = cfg s).
  { intros s1 s2 K Hm. destruct (md_kept_moves K Hm) as (? & ? & _). auto. }
  unfold md_step. apply wp_bind, wp_get, wp_bind.
  eapply wp_mono; [apply update_coords_moves| |]; cbv beta; [|tauto].
  intros _ s1 H1. pose proof (md_kept_moves K0 H1) as K1. apply wp_bind.
  eapply wp_mono; [apply call_gradient_moves| |]; cbv beta.
  2:{ intros e s2 [H2 Hbad]. destruct (Hexc _ _ K1 H2). auto. }
  intros _ s2 [H2 Hrows]. pose proof (md_kept_moves K1 H2) as K2.
  apply wp_bind.
  eapply wp_mono; [apply update_accs_moves| |]; cbv beta.
  2:{ intros e s3 [H3 Hbad]. destruct (Hexc _ _ K2 H3) as [Ho Hc].
      split; [exact Ho|]. split; [exact Hc|].
      intro Hok. apply Hbad, Hrows, Hok. }
  intros _ s3 H3. pose proof (md_kept_moves K2 H3) as K3. apply wp_bind.
  eapply wp_mono; [apply update_vels_moves| |]; cbv beta; [|tauto].
  intros _ s4 H4. pose proof (md_kept_moves K3 H4) as K4. apply wp_bind.
  eapply wp_mono; [apply call_energy_moves| |]; cbv beta.
  2:{ intros e s5 [H5 Hbad]. destruct (Hexc _ _ K4 H5). auto. }
  intros _ s5 H5. pose proof (md_kept_moves K4 H5) as K5.
  apply wp_bind, wp_get, wp_bind.
  apply wp_mono with (Q := fun _ s6 => md_kept s s6)
                     (E := fun _ _ => False); [| |tauto].
  { apply wp_when; intros _; [|exact K5].
    eapply wp_mono; [apply equilibrate_temp_moves| |]; cbv beta; [|tauto].
    intros _ s6 H6. apply (md_kept_moves K5 H6). }
  intros _ s6 K6. apply wp_bind.
  eapply wp_mono; [apply check_print_md_logged, K6| |]; cbv beta; [|tauto].
  intros _ s7 H7. destruct (md_kept_logged K6 H7) as (Ho7 & Hc7 & Ht7).
  apply wp_modify. simpl. rewrite Hc7, Ht7. auto.
Qed.

Lemma md_start_spec D s :
  wp D md_start
     (fun _ s' => files_open s' /\ cfg s' = cfg s /\ time s' = time s)
     (fun _ s' => files_open s' /\ cfg s' = cfg s /\ ~ model_ok) s.
Proof.
  assert (Hexc : forall s1 s2, md_kept s s1 -> moves_only s1 s2 ->
            files_open s2 /\ cfg s2 = cfg s).
  { intros s1 s2 K Hm. destruct (md_kept_moves K Hm) as (? & ? & _). auto. }
  unfold md_start. apply wp_bind.
  eapply wp_mono; [apply open_output_files_opens| |]; cbv beta; [|tauto].
  intros _ s1 (Ho1 & Hr1 & _).
  assert (K1 : md_kept s s1).
  { apply reports_only_keeps in Hr1 as (Hc & _ & Ht & _).
    split; [exact Ho1|]. rewrite Hc, Ht. now destruct (simtype (cfg s)). }
  apply wp_bind.
  eapply wp_mono; [apply initialize_vels_moves| |]; cbv beta.
  2:{ intros e s2 [H2 Hbad]. destruct (Hexc _ _ K1 H2). auto. }
  intros _ s2 H2. pose proof (md_kept_moves K1 H2) as K2. apply wp_bind.
  eapply wp_mono; [apply call_energy_moves| |]; cbv beta.
  2:{ intros e s3 [H3 Hbad]. destruct (Hexc _ _ K2 H3). auto. }
  intros _ s3 H3. pose proof (md_kept_moves K2 H3) as K3. apply wp_bind.
  eapply wp_mono; [apply call_gradient_moves| |]; cbv beta.
  2:{ intros e s4 [H4 Hbad]. destruct (Hexc _ _ K3 H4). auto. }
  intros _ s4 [H4 Hrows]. pose proof (md_kept_moves K3 H4) as K4.
  apply wp_bind.
  eapply wp_mono; [apply update_accs_moves| |]; cbv beta.
  2:{ intros e s5 [H5 Hbad]. destruct (Hexc _ _ K4 H5) as [Ho Hc].
      split; [exact Ho|]. split; [exact Hc|].
      intro Hok. apply Hbad, Hrows, Hok. }
  intros _ s5 H5. pose proof (md_kept_moves K4 H5) as K5. apply wp_bind.
  eapply wp_mono; [apply check_print_md_logged, K5| |]; cbv beta; [|tauto].
  intros _ s6 H6. pose proof (md_kept_logged K5 H6) as K6.
  apply wp_bind, wp_get.
  eapply wp_mono; [apply update_vels_moves| |]; cbv beta; [|tauto].
  intros _ s7 H7. apply (md_kept_moves K6 H7).
Qed.

Lemma md_loop_spec fuel s :
  files_open s ->
  wp True (md_loop fuel)
     (fun _ s' => files_open s' /\ cfg s' = cfg s /\ md_continue s' = false)
     (fun _ s' => files_open s' /\ cfg s' = cfg s /\ ~ model_ok) s.
Proof.
  intro Hopen.
  pose proof (wp_while
    (fun (_ : unit) s' => files_open s' /\ cfg s' = cfg s)
    (fun _ s' => files_open s' /\ cfg s' = cfg s /\ ~ model_ok)
    (fun _ => md_continue) (fun _ => md_step) fuel) as Hloop.
  assert (Hbody : forall (l : unit) s1,
            files_open s1 /\ cfg s1 = cfg s -> md_continue s1 = true ->
            wp True md_step
               (fun _ s' => files_open s' /\ cfg s' = cfg s)
               (fun _ s' => files_open s' /\ cfg s' = cfg s /\ ~ model_ok) s1).
  { intros _ s1 [Ho1 Hc1] _.
    eapply wp_mono; [apply (md_step_spec True Ho1)| |]; cbv beta.
    - intros _ s2 (Ho2 & Hc2 & _). split; [exact Ho2 | congruence].
    - intros e s2 (Ho2 & Hc2 & Hbad).
      split; [exact Ho2|]. split; [congruence | exact Hbad]. }
  specialize (Hloop Hbody tt s (conj Hopen eq_refl)).
  unfold wp in *. unfold md_loop.
  destruct (while fuel _ _ tt s) as [[n []] s'|e s'|]; simpl in *; tauto.
Qed.

Lemma md_step_returns s :
  model_ok -> files_open s ->
  exists s',
    md_step s = Ok tt s' /\ files_open s' /\ cfg s' = cfg s /\
    time s' = time s + timestep (cfg s).
Proof.
  intros Hok Hopen.
  destruct (@wp_returns _ _ md_step
              (fun _ s' => files_open s' /\ cfg s' = cfg s /\
                           time s' = time s + timestep (cfg s)) s)
    as ([] & s' & Hrun & Hpost).
  - eapply wp_mono; [apply (md_step_spec False Hopen)| |]; cbv beta;
      [auto | tauto].
  - eauto.
Qed.

Lemma clock_trips_more fuel k (t tot dt : F) n :
  clock_trips fuel t tot dt = Some n ->
  clock_trips (fuel + k) t tot dt = Some n.
Proof.
  revert t n. induction fuel as [|fuel IH]; intros t n; simpl.
  - destruct (t <? tot) eqn:Hlt; [discriminate|].
    intros [= <-]. destruct k; simpl; now rewrite Hlt.
  - destruct (t <? tot); [|trivial].
    destruct (clock_trips fuel (t + dt) tot dt) as [m|] eqn:Hm;
      [|discriminate].
    intros [= <-]. now rewrite (IH _ _ Hm).
Qed.

(** With an energy model that does not fail, the loop of [run_md] makes as
    many passes as its clock allows. *)
Lemma md_loop_count fuel s n :
  model_ok -> files_open s ->
  clock_trips fuel (time s) (tottime (cfg s)) (timestep (cfg s)) = Some n ->
  exists s',
    md_loop fuel s = Ok n s' /\ files_open s' /\ cfg s' = cfg s /\
    md_continue s' = false /\
    time s' = Nat.iter n (fun t => t + timestep (cfg s)) (time s).
Proof.
  intro Hok. unfold md_loop. revert s n.
  induction fuel as [|fuel IH]; intros s n Hopen; simpl;
    unfold md_continue at 1.
  - destruct (time s <? tottime (cfg s)) eqn:Hlt; [discriminate|].
    intros [= <-]. exists s. auto.
  - destruct (time s <? tottime (cfg s)) eqn:Hlt.
    + destruct (md_step_returns Hok Hopen) as (s1 & Hrun & Ho1 & Hc1 & Ht1).
      rewrite Hrun, <- Ht1, <- Hc1.
      destruct (clock_trips fuel _ _ _) as [m|] eqn:Hm; [|discriminate].
      intros [= <-].
      destruct (IH s1 m Ho1 Hm) as (s' & Hloop & Ho' & Hc' & Hend & Ht').
      destruct (while fuel _ _ tt s1) as [[k []] s2|e s2|];
        try discriminate.
      injection Hloop as -> ->. exists s'.
      split; [reflexivity|]. split; [exact Ho'|]. split; [congruence|].
      split; [exact Hend|].
      rewrite Ht', Nat.iter_succ_r, Ht1, Hc1. reflexivity.
    + intros [= <-]. exists s. auto.
Qed.

End Dynamics.

(** The demo energy model is well behaved. *)
Lemma demo_model_ok {F} `{Arith F} : @model_ok F nat demo_env.
Proof.
  split; [reflexivity|]. intro m. split; [reflexivity|].
  unfold n_atoms. simpl. now rewrite length_map.
Qed.

(** ** The number of dynamics steps, in binary64 *)

(** The literals of the statement below are the doubles Python reads:
    [(0.1).hex()] is [0x1.999999999999ap-4] and [(1e-10).hex()] is
    [0x1.b7cdfd9d7bdbbp-34]. *)
Lemma b64_literals :
  FloatOps.Prim2SF (dec 1 1) =
    SpecFloat.S754_finite false 0x1999999999999a (-56) /\
  FloatOps.Prim2SF (dec 1 10) =
    SpecFloat.S754_finite false 0x1b7cdfd9d7bdbb (-86) /\
  FloatOps.Prim2SF (dec 1 0) = SpecFloat.S754_finite false 0x10000000000000 (-52).
Proof. repeat split; vm_compute; reflexivity. Qed.

Section TenSteps.
Context {Rng : Type} {W : Env float Rng}.
Implicit Types s : Sim float Rng.
Local Open Scope fl_scope.

Lemma ten_trips fuel :
  (10 <= fuel)%nat ->
  clock_trips (F := float) fuel (dec 1 10) (dec 1 0) (dec 1 1) = Some 10%nat.
Proof.
  intro Hfuel. replace fuel with (10 + (fuel - 10))%nat by lia.
  apply clock_trips_more. vm_compute. reflexivity.
Qed.

(** C8.  In binary64, with [tottime = 1.0], [timestep = 0.1] and the clock
    at the [1.0 * 10**-10] that [__init__] gives it, and with an energy
    model that does not fail: [run_md] reaches its loop with the clock
    untouched, the loop [while self.time < self.tottime], whose body adds
    [timestep] to [time] once, makes exactly 10 passes, and [1.0 / 0.1] is
    exactly [10.0], so that this is [ceil(tottime / timestep)]. *)
Theorem md_loop_ten_steps s0 :
  model_ok ->
  tottime (cfg s0) = dec 1 0 ->
  timestep (cfg s0) = dec 1 1 ->
  time s0 = dec 1 10 ->
  tottime (cfg s0) / timestep (cfg s0) = dec 10 0 /\
  exists s1,
    md_start s0 = Ok tt s1 /\ time s1 = time s0 /\
    forall fuel, (10 <= fuel)%nat ->
      exists s2,
        md_loop fuel s1 = Ok 10%nat s2 /\ md_continue s2 = false /\
        time s2 = Nat.iter 10 (fun t => t + timestep (cfg s0)) (time s0).
Proof.
  intros Hok Htot Hstep Htime. split.
  { rewrite Htot, Hstep. vm_compute. reflexivity. }
  destruct (@wp_returns _ _ md_start
              (fun _ s' => files_open s' /\ cfg s' = cfg s0 /\
                           time s' = time s0) s0)
    as ([] & s1 & Hstart & Ho1 & Hc1 & Ht1).
  { eapply wp_mono; [apply (md_start_spec False)| |]; cbv beta;
      [auto | tauto]. }
  exists s1. split; [exact Hstart|]. split; [exact Ht1|].
  intros fuel Hfuel.
  destruct (@md_loop_count _ _ _ _ fuel s1 10%nat Hok Ho1)
    as (s2 & Hloop & _ & _ & Hend & Ht2).
  { rewrite Ht1, Hc1, Htime, Htot, Hstep. apply ten_trips, Hfuel. }
  exists s2. split; [exact Hloop|]. split; [exact Hend|].
  rewrite Ht2, Ht1, Hc1. reflexivity.
Qed.

(** Started at [0.0] the same clock would make an eleventh pass: ten
    additions of [0.1] fall short of [1.0]. *)
Lemma eleven_trips_from_zero :
  clock_trips (F := float) 20 (dec 0 0) (dec 1 0) (dec 1 1) = Some 11%nat.
Proof. vm_compute. reflexivity. Qed.

End TenSteps.

(** The demo molecule run for [1.0] ps in steps of [0.1] ps. *)
Lemma md_loop_ten_steps_witness :
  let s0 : Sim float nat :=
    demo_sim (demo_cfg md (dec 1 0) (dec 1 1) (dec 1 2) 1000 100 100) in
  @model_ok float nat demo_env /\
  tottime (cfg s0) = dec 1 0 /\ timestep (cfg s0) = dec 1 1 /\
  time s0 = dec 1 10 /\
  exists s1 s2,
    md_start (W := demo_env) s0 = Ok tt s1 /\
    md_loop (W := demo_env) 10 s1 = Ok 10%nat s2.
Proof.
  intro s0. split; [apply demo_model_ok|]. repeat split.
  destruct (md_loop_ten_steps (W := demo_env) s0 demo_model_ok
              eq_refl eq_refl eq_refl) as (_ & s1 & Hstart & _ & Hloop).
  destruct (Hloop 10%nat (le_n 10)) as (s2 & Hrun & _).
  exists s1, s2. split; [exact Hstart | exact Hrun].
Defined.

(** ** Monte-Carlo trials *)

Section Trials.
Context {F Rng : Type} {AF : Arith F} {W : Env F Rng} {EF : Elementary F}.
Implicit Types s : Sim F Rng.
Local Open Scope fl_scope.

Lemma disp_coords_enough D d s :
  wp D (disp_coords d)
     (fun _ s' => s' = set_mol (mol s') s /\
                  n_atoms (mol s') = n_atoms (mol s))
     (fun _ s' => moves_only s s' /\ ~ (n_atoms (mol s) <= length d)%nat) s.
Proof.
  unfold wp, disp_coords, n_atoms.
  pose proof (zip_rows_complete disp_atom disp_atom_partial
                (atoms (mol s)) d) as Hok.
  pose proof (zip_rows_length disp_atom disp_atom_partial
                (atoms (mol s)) d) as Hlen.
  destruct (zip_rows _ _ _ _) as [l [|]]; simpl in *.
  - split; [now destruct s | exact Hlen].
  - split; [apply moves_only_set_mol|]. intro Hrows.
    specialize (Hok Hrows). discriminate.
Qed.

Lemma check_disp_spec D s :
  wp D check_disp
     (fun _ s' =>
        gfile s' = gfile s /\ efile s' = efile s /\ cfg s' = cfg s /\
        conf s' = conf s /\
        dconf s' = (if disp_due s then 1 else dconf s + 1)%Z /\
        (if disp_due s
         then n_accept s' = 0%Z /\ n_reject s' = 0%Z /\
              dispmag s' =
                adjusted_dispmag (dispmag s) (dispinc (cfg s))
                  (n_accept s) (n_reject s)
         else dispmag s' = dispmag s /\ n_accept s' = n_accept s /\
              n_reject s' = n_reject s))
     (fun e s' => s' = s /\ e = ZeroDivisionError /\ disp_due s = true /\
                  (n_reject s + n_accept s)%Z = 0%Z) s.
Proof.
  unfold check_disp. apply wp_bind, wp_get, wp_bind.
  destruct (disp_due s) eqn:Hdue; simpl.
  - unfold changedisp. apply wp_bind, wp_bind, wp_get.
    destruct (n_reject s + n_accept s =? 0)%Z eqn:Hsum.
    + apply wp_raise. apply Z.eqb_eq in Hsum. auto.
    + repeat (apply wp_bind, wp_modify). repeat apply wp_modify. simpl.
      repeat split.
  - apply wp_ret, wp_modify. simpl. repeat split.
Qed.

Lemma mc_accept_spec D s :
  files_open s ->
  wp D mc_accept
     (fun _ s' =>
        files_open s' /\ cfg s' = cfg s /\ dconf s' = dconf s /\
        dispmag s' = dispmag s /\ conf s' = (conf s + 1)%Z /\
        n_accept s' = (n_accept s + 1)%Z /\ n_reject s' = n_reject s)
     (fun _ _ => False) s.
Proof.
  intro Hopen. unfold mc_accept. apply wp_bind.
  eapply wp_mono; [apply check_print_mc_logged, Hopen| |]; cbv beta;
    [|tauto].
  intros _ s1 (Hr & Ho1 & _).
  apply reports_only_keeps in Hr
    as (Hc & _ & _ & Hn & Hd & Ha & Hj & Hm & _).
  repeat (apply wp_bind, wp_modify). apply wp_bind, wp_get, wp_ret.
  unfold files_open in *. simpl.
  repeat split; try apply Ho1; congruence.
Qed.

Lemma mc_reject_spec D penergy s :
  files_open s ->
  wp D (mc_reject penergy)
     (fun _ s' =>
        files_open s' /\ cfg s' = cfg s /\ dconf s' = dconf s /\
        dispmag s' = dispmag s /\ conf s' = conf s /\
        n_accept s' = n_accept s /\ n_reject s' = (n_reject s + 1)%Z)
     (fun _ s' =>
        files_open s' /\ cfg s' = cfg s /\ conf s' = conf s /\
        ~ (n_atoms (mol s) <= length (rand_disp s))%nat) s.
Proof.
  intros [Hg He]. unfold mc_reject. apply wp_bind, wp_get, wp_bind.
  eapply wp_mono; [apply disp_coords_enough| |]; cbv beta.
  - intros _ s1 [Hm _].
    assert (Hmv : moves_only s s1) by (rewrite Hm; apply moves_only_set_mol).
    apply moves_only_keeps in Hmv
      as (Hc & _ & Hn & Hd & Ha & Hj & Hmag & Hg' & He' & _).
    apply wp_bind, wp_modify, wp_ret. unfold files_open. simpl.
    repeat split; congruence.
  - intros e s1 [Hm Hrows]. rewrite length_map in Hrows.
    apply moves_only_keeps in Hm
      as (Hc & _ & Hn & _ & _ & _ & _ & Hg' & He' & _).
    unfold files_open. repeat split; congruence || exact Hrows.
Qed.

Lemma mc_propose_spec D penergy s :
  wp D (mc_propose penergy)
     (fun _ s' =>
        moves_only s s' /\
        (mc_model_ok -> (n_atoms (mol s') <= length (rand_disp s'))%nat))
     (fun _ s' => moves_only s s' /\ ~ mc_model_ok) s.
Proof.
  unfold mc_propose. apply wp_bind.
  destruct (get_rand_disp_rows s) as (s1 & Hrun & Hlen & Hmol).
  pose proof (get_rand_disp_moves D s) as Hm1. unfold wp in Hm1 |- * at 1.
  rewrite Hrun in *. apply wp_bind, wp_get, wp_bind.
  eapply wp_mono; [apply disp_coords_enough| |]; cbv beta.
  2:{ intros e s2 [_ Hbad]. exfalso. apply Hbad. rewrite Hlen, Hmol. lia. }
  intros _ s2 [Hs2 Hn2].
  assert (Hm2 : moves_only s s2).
  { eapply moves_only_trans; [exact Hm1|]. rewrite Hs2.
    apply moves_only_set_mol. }
  assert (Hr2 : rand_disp s2 = rand_disp s1) by now rewrite Hs2.
  apply wp_bind, wp_call_energy.
  - intros m Hm. apply wp_bind, wp_get. unfold wp. simpl.
    destruct (rng_random (rng s2)) as [u g]. simpl. split.
    + eapply moves_only_trans; [exact Hm2|].
      eapply moves_only_trans; [apply moves_only_set_mol|].
      apply moves_only_set_rng.
    + intros [_ Hkeep]. specialize (Hkeep standard (mol s2)).
      rewrite Hm in Hkeep. simpl in Hkeep.
      rewrite Hkeep, Hn2, Hr2, Hlen, Hmol. lia.
  - intros m e Hm. split.
    + eapply moves_only_trans; [exact Hm2|]. apply moves_only_set_mol.
    + intros [[Hen _] _]. specialize (Hen standard (mol s2)).
      rewrite Hm in Hen. discriminate.
Qed.

(** The part of a trial that follows the acceptance test. *)
Lemma mc_settle_spec D accepted penergy s :
  files_open s ->
  wp D (penergy' <- (if accepted : bool then mc_accept
                     else mc_reject penergy) ;;
        check_disp ;; ret penergy')
     (fun _ s' => trial_effect accepted s s')
     (fun _ s' =>
        files_open s' /\ cfg s' = cfg s /\
        (conf s' = conf s \/ conf s' = (conf s + 1)%Z) /\
        ~ ((n_atoms (mol s) <= length (rand_disp s))%nat /\
           (0 <= n_accept s)%Z /\ (0 <= n_reject s)%Z)) s.
Proof.
  intro Hopen. apply wp_bind.
  assert (Hcheck : forall da dr s1 (pe : F),
    files_open s1 -> cfg s1 = cfg s -> dconf s1 = dconf s ->
    dispmag s1 = dispmag s -> conf s1 = (conf s + da)%Z ->
    n_accept s1 = (n_accept s + da)%Z -> n_reject s1 = (n_reject s + dr)%Z ->
    (da = 0 \/ da = 1)%Z -> (da + dr = 1)%Z ->
    wp D (check_disp ;; ret pe)
       (fun _ s' =>
          files_open s' /\ cfg s' = cfg s /\ conf s' = (conf s + da)%Z /\
          dconf s' = (if disp_due s then 1 else dconf s + 1)%Z /\
          (if disp_due s
           then n_accept s' = 0%Z /\ n_reject s' = 0%Z /\
                dispmag s' =
                  adjusted_dispmag (dispmag s) (dispinc (cfg s))
                    (n_accept s + da) (n_reject s + dr)
           else dispmag s' = dispmag s /\
                n_accept s' = (n_accept s + da)%Z /\
                n_reject s' = (n_reject s + dr)%Z))
       (fun _ s' =>
          files_open s' /\ cfg s' = cfg s /\
          (conf s' = conf s \/ conf s' = (conf s + 1)%Z) /\
          ~ ((n_atoms (mol s) <= length (rand_disp s))%nat /\
             (0 <= n_accept s)%Z /\ (0 <= n_reject s)%Z)) s1).
  { intros da dr s1 pe [Hg1 He1] Hc1 Hd1 Hmag1 Hn1 Ha1 Hr1 Hda Hsum.
    assert (Hdue : disp_due s1 = disp_due s)
      by (unfold disp_due; now rewrite Hc1, Hd1).
    apply wp_bind.
    eapply wp_mono; [apply check_disp_spec| |]; cbv beta.
    - intros _ s2 (Hg2 & He2 & Hc2 & Hn2 & Hd2 & Hrest). apply wp_ret.
      rewrite Hdue in Hd2, Hrest. unfold files_open.
      split; [split; congruence|]. split; [congruence|].
      split; [congruence|]. split; [destruct (disp_due s); congruence|].
      destruct (disp_due s).
      * destruct Hrest as (? & ? & Hmag2). repeat split; trivial.
        rewrite Hmag2, Hmag1, Hc1, Ha1, Hr1. reflexivity.
      * destruct Hrest as (? & ? & ?). repeat split; congruence.
    - intros e s2 (-> & _ & _ & Hzero).
      split; [split; assumption|]. split; [exact Hc1|].
      split; [lia|]. intros (_ & Hna & Hnr). lia. }
  destruct accepted.
  - eapply wp_mono; [apply mc_accept_spec, Hopen| |]; cbv beta; [|tauto].
    intros pe s1 (Ho1 & Hc1 & Hd1 & Hmag1 & Hn1 & Ha1 & Hr1).
    eapply wp_mono;
      [apply (Hcheck 1%Z 0%Z s1 pe); trivial; lia | |]; cbv beta;
      [|trivial].
    intros _ s2 Hpost. exact Hpost.
  - eapply wp_mono; [apply mc_reject_spec, Hopen| |]; cbv beta.
    + intros pe s1 (Ho1 & Hc1 & Hd1 & Hmag1 & Hn1 & Ha1 & Hr1).
      eapply wp_mono;
        [apply (Hcheck 0%Z 1%Z s1 pe); trivial; lia | |]; cbv beta;
        [|trivial].
      intros _ s2 Hpost. exact Hpost.
    + intros e s1 (Ho1 & Hc1 & Hn1 & Hbad).
      split; [exact Ho1|]. split; [exact Hc1|]. split; [auto|]. tauto.
Qed.

Lemma trial_effect_moves accepted s s1 s' :
  moves_only s s1 -> trial_effect accepted s1 s' -> trial_effect accepted s s'.
Proof.
  intros Hm. apply moves_only_keeps in Hm
    as (Hc & _ & Hn & Hd & Ha & Hr & Hmag & _).
  unfold trial_effect, disp_due. now rewrite Hc, Hn, Hd, Ha, Hr, Hmag.
Qed.

Lemma files_open_moves s s1 : files_open s -> moves_only s s1 -> files_open s1.
Proof.
  intros [Hg He] Hm. apply moves_only_keeps in Hm
    as (_ & _ & _ & _ & _ & _ & _ & Hg' & He' & _).
  split; congruence.
Qed.

Lemma mc_trial_spec D penergy s :
  files_open s ->
  wp D (mc_trial penergy)
     (fun _ s' => exists accepted, trial_effect accepted s s')
     (fun _ s' => trial_failure s s') s.
Proof.
  intro Hopen. unfold mc_trial. apply wp_bind.
  eapply wp_mono; [apply mc_propose_spec| |]; cbv beta.
  - intros accepted s1 [Hm Hrows].
    pose proof (files_open_moves Hopen Hm) as Ho1.
    eapply wp_mono; [apply (mc_settle_spec D accepted penergy Ho1)| |];
      cbv beta.
    + intros _ s' Heff. exists accepted. apply (trial_effect_moves Hm Heff).
    + intros e s' (Ho' & Hc' & Hn' & Hbad).
      apply moves_only_keeps in Hm as (Hc & _ & Hn & _ & Ha & Hr & _).
      split; [exact Ho'|]. split; [congruence|].
      split; [rewrite <- Hn; exact Hn'|].
      intros (Hok & Hna & Hnr). apply Hbad. rewrite Ha, Hr. auto.
  - intros e s1 [Hm Hbad].
    split; [apply (files_open_moves Hopen Hm)|].
    apply moves_only_keeps in Hm as (Hc & _ & Hn & _).
    split; [exact Hc|]. split; [auto|]. tauto.
Qed.

(** A trial that returns has run its acceptance test, and its effect is
    that of the outcome of the test. *)
Lemma mc_trial_inv penergy s penergy' s' :
  files_open s ->
  mc_trial penergy s = Ok penergy' s' ->
  exists accepted s1,
    mc_propose penergy s = Ok accepted s1 /\ trial_effect accepted s s'.
Proof.
  intros Hopen Hrun. unfold mc_trial, bind at 1 in Hrun.
  pose proof (mc_propose_spec True penergy s) as Hp. unfold wp in Hp.
  destruct (mc_propose penergy s) as [accepted s1|e s1|]; try discriminate.
  destruct Hp as [Hm _]. exists accepted, s1. split; [reflexivity|].
  pose proof (mc_settle_spec True accepted penergy
                (files_open_moves Hopen Hm)) as Hs.
  unfold wp in Hs. rewrite Hrun in Hs. apply (trial_effect_moves Hm Hs).
Qed.

Lemma mc_start_spec D s :
  wp D mc_start
     (fun _ s' =>
        files_open s' /\ cfg s' = cfg s /\ conf s' = conf s /\
        n_accept s' = n_accept s /\ n_reject s' = n_reject s /\
        dispmag s' = dispmag s /\
        (simtype (cfg s) = mc -> dconf s' = 0%Z))
     (fun _ s' => files_open s' /\ cfg s' = cfg s /\ ~ model_ok) s.
Proof.
  unfold mc_start. apply wp_bind.
  eapply wp_mono; [apply open_output_files_opens| |]; cbv beta; [|tauto].
  intros _ s1 (Ho1 & Hr1 & _).
  apply reports_only_keeps in Hr1
    as (Hc1 & _ & _ & Hn1 & Hd1 & Ha1 & Hj1 & Hm1 & _).
  assert (K1 : cfg s1 = cfg s /\ conf s1 = conf s /\
               n_accept s1 = n_accept s /\ n_reject s1 = n_reject s /\
               dispmag s1 = dispmag s /\
               (simtype (cfg s) = mc -> dconf s1 = 0%Z)).
  { rewrite Hc1, Hn1, Hd1, Ha1, Hj1, Hm1.
    destruct (simtype (cfg s)); repeat split; discriminate. }
  clear Hc1 Hn1 Hd1 Ha1 Hj1 Hm1.
  destruct K1 as (Hc1 & Hn1 & Ha1 & Hj1 & Hm1 & Hd1).
  apply wp_bind.
  eapply wp_mono; [apply zero_vels_moves| |]; cbv beta; [|tauto].
  intros _ s2 H2. apply wp_bind, wp_modify, wp_bind.
  set (s3 := set_rng _ s2).
  assert (H3 : moves_only s1 s3).
  { eapply moves_only_trans; [exact H2|]. apply moves_only_set_rng. }
  eapply wp_mono; [apply call_energy_moves| |]; cbv beta.
  2:{ intros e s4 [H4 Hbad].
      pose proof (moves_only_trans H3 H4) as H14.
      split; [apply (files_open_moves Ho1 H14)|].
      apply moves_only_keeps in H14 as (Hc & _). split; [congruence|tauto]. }
  intros _ s4 H4. pose proof (moves_only_trans H3 H4) as H14.
  pose proof (files_open_moves Ho1 H14) as Ho4.
  apply moves_only_keeps in H14 as (Hc4 & _ & Hn4 & Hd4 & Ha4 & Hj4 & Hm4 & _).
  apply wp_bind.
  eapply wp_mono; [apply check_print_mc_logged, Ho4| |]; cbv beta; [|tauto].
  intros _ s5 (Hr5 & Ho5 & _). apply wp_bind, wp_get, wp_ret.
  apply reports_only_keeps in Hr5
    as (Hc5 & _ & _ & Hn5 & Hd5 & Ha5 & Hj5 & Hm5 & _).
  split; [exact Ho5|]. repeat split; try congruence.
  intro Hmc. rewrite Hd5, Hd4. apply Hd1, Hmc.
Qed.

Lemma mc_reaches_front penergy s penergy1 s1 n penergy' s' :
  mc_continue s = true ->
  mc_trial penergy s = Ok penergy1 s1 ->
  mc_reaches penergy1 s1 n penergy' s' ->
  mc_reaches penergy s (S n) penergy' s'.
Proof.
  intros Hc Hrun Hreach. induction Hreach.
  - eapply mc_reaches_trial; [apply mc_reaches_entry | exact Hc | exact Hrun].
  - eapply mc_reaches_trial; eassumption.
Qed.

(** When the loop ends normally, the state it ends in was reached by as
    many trials as the loop counted, and fails the loop test. *)
Lemma mc_loop_reaches fuel penergy s n s' :
  mc_loop fuel penergy s = Ok n s' ->
  mc_continue s' = false /\
  exists penergy', mc_reaches penergy s n penergy' s'.
Proof.
  unfold mc_loop. revert penergy s n.
  induction fuel as [|fuel IH]; intros penergy s n; simpl.
  - destruct (mc_continue s) eqn:Hc; [discriminate|].
    intros [= <- <-]. split; [exact Hc|]. eexists. apply mc_reaches_entry.
  - destruct (mc_continue s) eqn:Hc.
    + destruct (mc_trial penergy s) as [pe1 s1|e s1|] eqn:Hrun;
        try discriminate.
      specialize (IH pe1 s1).
      destruct (while fuel _ mc_trial pe1 s1) as [[k pe2] s2|e s2|];
        try discriminate.
      intros [= <- <-]. destruct (IH k eq_refl) as [Hend [pe' Hreach]].
      split; [exact Hend|]. exists pe'.
      eapply mc_reaches_front; eassumption.
    + intros [= <- <-]. split; [exact Hc|]. eexists. apply mc_reaches_entry.
Qed.

(** What holds each time the loop of [run_mc] is at its test. *)
Lemma mc_reaches_keeps penergy0 s0 n penergy s :
  files_open s0 ->
  mc_reaches penergy0 s0 n penergy s ->
  files_open s /\ cfg s = cfg s0 /\
  (conf s0 <= conf s <= conf s0 + Z.of_nat n)%Z /\
  (conf s0 <= totconfs (cfg s0) -> conf s <= totconfs (cfg s0))%Z.
Proof.
  intros Hopen Hreach. induction Hreach as [|n pe s pe' s' _ IH Hc Hrun].
  - split; [exact Hopen|]. split; [reflexivity|]. lia.
  - destruct IH as (Ho & Hcfg & Hn & Hle).
    destruct (mc_trial_inv pe Ho Hrun) as (acc & s1 & _ & Heff).
    destruct Heff as (Ho' & Hc' & Hn' & _).
    unfold mc_continue in Hc. apply Z.ltb_lt in Hc. rewrite Hcfg in Hc.
    split; [exact Ho'|]. split; [congruence|].
    destruct acc; split; lia.
Qed.

End Trials.

(** ** The end of a run *)

Section Finishing.
Context {F Rng : Type} {AF : Arith F} {W : Env F Rng} {EF : Elementary F}.
Implicit Types s : Sim F Rng.
Local Open Scope fl_scope.

Lemma md_finish_spec D s :
  files_open s ->
  wp D md_finish
     (fun _ s' =>
        reports_only s s' /\
        closed_clean (efile s') /\ closed_clean (gfile s') /\
        disk (efile s') =
          contents (efile s) ++
          (if etime s >=? energytime (cfg s) then [energy_row s] else []) /\
        disk (gfile s') =
          contents (gfile s) ++
          (if gtime s >=? geomtime (cfg s) then [geom_frame s] else []))
     (fun _ _ => False) s.
Proof.
  intro Hopen. unfold md_finish. apply wp_bind, wp_get, wp_bind.
  eapply wp_mono; [apply check_print_md_logged, Hopen| |]; cbv beta;
    [|tauto].
  intros _ s1 (Hr1 & Ho1 & He1 & Hg1). simpl in He1, Hg1.
  eapply wp_mono; [apply close_output_files_closes, Ho1| |]; cbv beta;
    [|tauto].
  intros _ s2 (Hr2 & Hcg & Hce & Hdg & Hde).
  split; [eapply reports_only_trans; eassumption|].
  repeat split; try apply Hcg; try apply Hce; congruence.
Qed.

Lemma mc_finish_spec D s :
  files_open s ->
  wp D mc_finish
     (fun _ s' =>
        reports_only s s' /\
        closed_clean (efile s') /\ closed_clean (gfile s') /\
        disk (efile s') =
          contents (efile s) ++
          (if (econf s >=? energyconf (cfg s))%Z
           then [energy_row s] else []) /\
        disk (gfile s') =
          contents (gfile s) ++
          (if (gconf s >=? geomconf (cfg s))%Z then [geom_frame s] else []))
     (fun _ _ => False) s.
Proof.
  intro Hopen. unfold mc_finish. apply wp_bind.
  eapply wp_mono; [apply check_print_mc_logged, Hopen| |]; cbv beta;
    [|tauto].
  intros _ s1 (Hr1 & Ho1 & He1 & Hg1). simpl in He1, Hg1.
  eapply wp_mono; [apply close_output_files_closes, Ho1| |]; cbv beta;
    [|tauto].
  intros _ s2 (Hr2 & Hcg & Hce & Hdg & Hde).
  split; [eapply reports_only_trans; eassumption|].
  repeat split; try apply Hcg; try apply Hce; congruence.
Qed.

(** Where a run is when its loop has ended: the files are open. *)
Lemma md_loop_exit fuel s0 s1 n s :
  md_start s0 = Ok tt s1 -> md_loop fuel s1 = Ok n s ->
  files_open s /\ run_md fuel s0 = md_finish s.
Proof.
  intros Hstart Hloop. split.
  - pose proof (md_start_spec True s0) as H1. unfold wp in H1.
    rewrite Hstart in H1. destruct H1 as (Ho1 & _).
    pose proof (md_loop_spec fuel Ho1) as H2. unfold wp in H2.
    rewrite Hloop in H2. apply H2.
  - unfold run_md, bind. now rewrite Hstart, Hloop.
Qed.

Lemma mc_loop_exit fuel s0 penergy s1 n s :
  mc_start s0 = Ok penergy s1 -> mc_loop fuel penergy s1 = Ok n s ->
  files_open s /\ run_mc fuel s0 = mc_finish s.
Proof.
  intros Hstart Hloop. split.
  - pose proof (mc_start_spec True s0) as H1. unfold wp in H1.
    rewrite Hstart in H1. destruct H1 as (Ho1 & _).
    destruct (mc_loop_reaches _ _ _ Hloop) as (_ & pe' & Hreach).
    apply (mc_reaches_keeps Ho1 Hreach).
  - unfold run_mc, bind. now rewrite Hstart, Hloop.
Qed.

(** C2, as the code has it.  When the loop of [run_md] or of [run_mc] has
    ended, the files are open and the run ends with one more check of the
    output schedule, called without [print_all], and with
    [close_output_files]: the run returns; an energy record of the final
    state is written only if [etime >= energytime] ([econf >= energyconf]
    in a Monte-Carlo run) there, a geometry record only if
    [gtime >= geomtime] ([gconf >= geomconf]); and both files end closed,
    with everything they were given on disk. *)
Theorem final_check_follows_schedule fuel s0 s :
  (forall s1 n,
     md_start s0 = Ok tt s1 -> md_loop fuel s1 = Ok n s ->
     exists s',
       run_md fuel s0 = Ok tt s' /\
       closed_clean (efile s') /\ closed_clean (gfile s') /\
       disk (efile s') =
         contents (efile s) ++
         (if etime s >=? energytime (cfg s) then [energy_row s] else []) /\
       disk (gfile s') =
         contents (gfile s) ++
         (if gtime s >=? geomtime (cfg s) then [geom_frame s] else [])) /\
  (forall penergy s1 n,
     mc_start s0 = Ok penergy s1 -> mc_loop fuel penergy s1 = Ok n s ->
     exists s',
       run_mc fuel s0 = Ok tt s' /\
       closed_clean (efile s') /\ closed_clean (gfile s') /\
       disk (efile s') =
         contents (efile s) ++
         (if (econf s >=? energyconf (cfg s))%Z
          then [energy_row s] else []) /\
       disk (gfile s') =
         contents (gfile s) ++
         (if (gconf s >=? geomconf (cfg s))%Z then [geom_frame s] else [])).
Proof.
  split.
  - intros s1 n Hstart Hloop.
    destruct (md_loop_exit _ _ Hstart Hloop) as [Hopen ->].
    pose proof (md_finish_spec False Hopen) as Hfin.
    apply wp_returns in Hfin as ([] & s' & Hrun & _ & Hpost).
    exists s'. split; [exact Hrun | exact Hpost].
  - intros penergy s1 n Hstart Hloop.
    destruct (mc_loop_exit _ _ Hstart Hloop) as [Hopen ->].
    pose proof (mc_finish_spec False Hopen) as Hfin.
    apply wp_returns in Hfin as ([] & s' & Hrun & _ & Hpost).
    exists s'. split; [exact Hrun | exact Hpost].
Qed.

End Finishing.

(** C2, as stated, fails.  The demo run of three steps of [0.1] ps with
    output due every [1.0] ps returns with the clock at [0.3] ps, and its
    files hold the records of the start alone, labelled [1e-10]: the final
    check wrote nothing, the state the run ended in is on no record. *)
Lemma final_check_is_not_forced :
  match run_md (W := demo_env) 10
          (demo_sim (F := float) (demo_run_cfg md)) with
  | Ok _ s' =>
      map row_stamp (disk (efile s')) = [None; Some (AtTime (dec 1 10))] /\
      map row_stamp (disk (gfile s')) = [Some (AtTime (dec 1 10))] /\
      fltb (dec 3 1) (time s') = true /\
      fleb (energytime (cfg s')) (etime s') = false
  | _ => False
  end.
Proof. vm_compute. repeat split. Qed.

(** ** Failures *)

Section Failures.
Context {F Rng : Type} {AF : Arith F} {W : Env F Rng} {EF : Elementary F}.
Implicit Types s : Sim F Rng.
Local Open Scope fl_scope.

Lemma mc_loop_spec fuel penergy s :
  files_open s ->
  wp True (mc_loop fuel penergy)
     (fun _ s' => files_open s' /\ cfg s' = cfg s)
     (fun _ s' => files_open s' /\ cfg s' = cfg s) s.
Proof.
  intro Hopen.
  pose proof (wp_while
    (fun (_ : F) s' => files_open s' /\ cfg s' = cfg s)
    (fun _ s' => files_open s' /\ cfg s' = cfg s)
    (fun _ => mc_continue) mc_trial fuel) as Hloop.
  assert (Hbody : forall (pe : F) s1,
            files_open s1 /\ cfg s1 = cfg s -> mc_continue s1 = true ->
            wp True (mc_trial pe)
               (fun _ s' => files_open s' /\ cfg s' = cfg s)
               (fun _ s' => files_open s' /\ cfg s' = cfg s) s1).
  { intros pe s1 [Ho1 Hc1] _.
    eapply wp_mono; [apply (mc_trial_spec True pe Ho1)| |]; cbv beta.
    - intros _ s2 (acc & Ho2 & Hc2 & _). split; [exact Ho2 | congruence].
    - intros e s2 (Ho2 & Hc2 & _). split; [exact Ho2 | congruence]. }
  specialize (Hloop Hbody penergy s (conj Hopen eq_refl)).
  unfold wp in *. unfold mc_loop.
  destruct (while fuel _ _ penergy s) as [[n pe] s'|e s'|]; simpl in *; tauto.
Qed.

Lemma run_md_spec fuel s0 :
  wp True (run_md fuel)
     (fun _ s' => closed_clean (gfile s') /\ closed_clean (efile s'))
     (fun _ s' => files_open s') s0.
Proof.
  unfold run_md. apply wp_bind.
  eapply wp_mono; [apply md_start_spec| |]; cbv beta; [|tauto].
  intros _ s1 (Ho1 & _). apply wp_bind.
  eapply wp_mono; [apply md_loop_spec, Ho1| |]; cbv beta; [|tauto].
  intros _ s2 (Ho2 & _).
  eapply wp_mono; [apply md_finish_spec, Ho2| |]; cbv beta; tauto.
Qed.

Lemma run_mc_spec fuel s0 :
  wp True (run_mc fuel)
     (fun _ s' => closed_clean (gfile s') /\ closed_clean (efile s'))
     (fun _ s' => files_open s') s0.
Proof.
  unfold run_mc. apply wp_bind.
  eapply wp_mono; [apply mc_start_spec| |]; cbv beta; [|tauto].
  intros pe s1 (Ho1 & _). apply wp_bind.
  eapply wp_mono; [apply mc_loop_spec, Ho1| |]; cbv beta; [|tauto].
  intros _ s2 (Ho2 & _).
  eapply wp_mono; [apply mc_finish_spec, Ho2| |]; cbv beta; tauto.
Qed.

(** C9, as the code has it.  A run that returns leaves both output files
    closed, with nothing in their buffers.  A failure in the loop is not
    intercepted: the run ends where the loop failed, with the same
    exception, and in whatever state a run ends with an exception both
    files are still open -- [close_output_files] has not run, and what was
    written since the last status line is still in the buffers. *)
Theorem failure_leaves_files_open fuel s0 :
  (forall s', run_md fuel s0 = Ok tt s' ->
     closed_clean (gfile s') /\ closed_clean (efile s')) /\
  (forall s1 e s',
     md_start s0 = Ok tt s1 -> md_loop fuel s1 = Raised e s' ->
     run_md fuel s0 = Raised e s') /\
  (forall e s', run_md fuel s0 = Raised e s' -> files_open s') /\
  (forall s', run_mc fuel s0 = Ok tt s' ->
     closed_clean (gfile s') /\ closed_clean (efile s')) /\
  (forall penergy s1 e s',
     mc_start s0 = Ok penergy s1 -> mc_loop fuel penergy s1 = Raised e s' ->
     run_mc fuel s0 = Raised e s') /\
  (forall e s', run_mc fuel s0 = Raised e s' -> files_open s').
Proof.
  pose proof (run_md_spec fuel s0) as Hmd.
  pose proof (run_mc_spec fuel s0) as Hmc.
  unfold wp in Hmd, Hmc.
  split; [|split; [|split; [|split; [|split]]]].
  - intros s' Hrun. now rewrite Hrun in Hmd.
  - intros s1 e s' Hstart Hloop. unfold run_md, bind.
    now rewrite Hstart, Hloop.
  - intros e s' Hrun. now rewrite Hrun in Hmd.
  - intros s' Hrun. now rewrite Hrun in Hmc.
  - intros pe s1 e s' Hstart Hloop. unfold run_mc, bind.
    now rewrite Hstart, Hloop.
  - intros e s' Hrun. now rewrite Hrun in Hmc.
Qed.

End Failures.

(** C9, as stated, fails.  In the world whose energy model gives up on the
    second step, the run with every record due at every check ends with
    that exception, both files open, and the records of the first step
    written but not flushed. *)
Lemma failed_run_leaves_buffers :
  match run_md (W := failing_env) 10
          (demo_sim (F := float) demo_eager_cfg) with
  | Raised e s' =>
      e = ModelError 1 /\
      is_open (efile s') = true /\ is_open (gfile s') = true /\
      map row_stamp (pending (efile s')) = [Some (AtTime (dec 1 10))] /\
      map row_stamp (pending (gfile s')) = [Some (AtTime (dec 1 10))] /\
      map row_stamp (disk (efile s')) = [None; Some (AtTime (dec 1 10))]
  | _ => False
  end.
Proof. vm_compute. repeat split. Qed.

(** ** The trial loop *)

Section TrialLoop.
Context {F Rng : Type} {AF : Arith F} {W : Env F Rng} {EF : Elementary F}.
Implicit Types s : Sim F Rng.
Local Open Scope fl_scope.

Lemma mc_start_returns s :
  model_ok ->
  exists penergy s1,
    mc_start s = Ok penergy s1 /\
    files_open s1 /\ cfg s1 = cfg s /\ conf s1 = conf s /\
    n_accept s1 = n_accept s /\ n_reject s1 = n_reject s /\
    dispmag s1 = dispmag s /\ (simtype (cfg s) = mc -> dconf s1 = 0%Z).
Proof.
  intro Hok. apply wp_returns.
  eapply wp_mono; [apply (mc_start_spec False)| |]; cbv beta; [auto|tauto].
Qed.

Lemma mc_trial_returns penergy s :
  mc_model_ok -> files_open s ->
  (0 <= n_accept s)%Z -> (0 <= n_reject s)%Z ->
  exists penergy' s',
    mc_trial penergy s = Ok penergy' s' /\
    exists accepted, trial_effect accepted s s'.
Proof.
  intros Hok Hopen Ha Hr. apply wp_returns.
  eapply wp_mono; [apply (mc_trial_spec False penergy Hopen)| |]; cbv beta;
    [auto|].
  intros e s' (_ & _ & _ & Hbad). apply Hbad. auto.
Qed.

Lemma mc_loop_done fuel penergy s :
  mc_continue s = false -> mc_loop fuel penergy s = Ok O s.
Proof.
  intro Hend. unfold mc_loop. destruct fuel; simpl; now rewrite Hend.
Qed.

Lemma mc_reaches_first penergy0 s0 n penergy s :
  mc_reaches penergy0 s0 (S n) penergy s ->
  exists penergy1 s1,
    mc_continue s0 = true /\ mc_trial penergy0 s0 = Ok penergy1 s1 /\
    mc_reaches penergy1 s1 n penergy s.
Proof.
  revert penergy s. induction n as [|n IH]; intros pe s Hreach;
    inversion Hreach as [|? pe2 s2 ? ? Hprev Hcont Hrun]; subst.
  - inversion Hprev; subst. exists pe, s.
    repeat split; trivial. apply mc_reaches_entry.
  - destruct (IH _ _ Hprev) as (pe1 & s1 & Hc0 & Hrun0 & Hrest).
    exists pe1, s1. repeat split; trivial.
    eapply mc_reaches_trial; eassumption.
Qed.

(** With fuel for the trials it takes, the loop returns in the state in
    which its test first fails. *)
Lemma mc_loop_complete n penergy0 s0 penergy s fuel :
  mc_reaches penergy0 s0 n penergy s ->
  mc_continue s = false ->
  (n <= fuel)%nat ->
  mc_loop fuel penergy0 s0 = Ok n s.
Proof.
  unfold mc_loop. revert penergy0 s0 fuel.
  induction n as [|n IH]; intros pe0 s0 fuel Hreach Hend Hfuel.
  - inversion Hreach; subst. destruct fuel; simpl; now rewrite Hend.
  - destruct (mc_reaches_first Hreach) as (pe1 & s1 & Hc0 & Hrun & Hrest).
    destruct fuel as [|fuel]; [lia|]. simpl. rewrite Hc0, Hrun.
    specialize (IH pe1 s1 fuel Hrest Hend ltac:(lia)).
    destruct (while fuel _ mc_trial pe1 s1) as [[k pe2] s2|e s2|];
      try discriminate.
    now injection IH as -> ->.
Qed.

(** C4.  In a run of [run_mc] that starts, as [__init__] leaves it, with
    no configuration counted and a total that is not negative: each time
    the loop is at its test the count is between zero and the total, and
    the test fails exactly when the count equals the total; a trial that
    returns has added one to the count if its acceptance test succeeded
    and left the count alone if it failed; a trial that raises leaves the
    count within the total; and when the loop has ended, and when the run
    has returned, the count equals the total, after at least that many
    trials.  The loop goes on as long as the count is short of the total:
    given fuel for the trials it takes, it ends in the first state, of
    those reached, in which the count equals the total. *)
Theorem mc_configuration_count s_init penergy0 s0 :
  (0 <= totconfs (cfg s_init))%Z ->
  conf s_init = 0%Z ->
  mc_start s_init = Ok penergy0 s0 ->
  (forall n penergy s,
     mc_reaches penergy0 s0 n penergy s ->
     (0 <= conf s <= totconfs (cfg s_init))%Z /\
     totconfs (cfg s) = totconfs (cfg s_init) /\
     (mc_continue s = false <-> conf s = totconfs (cfg s_init)) /\
     (forall penergy' s',
        mc_trial penergy s = Ok penergy' s' ->
        exists accepted s1,
          mc_propose penergy s = Ok accepted s1 /\
          conf s' = (conf s + (if accepted then 1 else 0))%Z) /\
     (forall e s',
        mc_continue s = true -> mc_trial penergy s = Raised e s' ->
        (conf s <= conf s' <= totconfs (cfg s_init))%Z)) /\
  (forall fuel n s',
     mc_loop fuel penergy0 s0 = Ok n s' ->
     conf s' = totconfs (cfg s_init) /\
     (totconfs (cfg s_init) <= Z.of_nat n)%Z /\
     exists penergy', mc_reaches penergy0 s0 n penergy' s') /\
  (forall n penergy s fuel,
     mc_reaches penergy0 s0 n penergy s ->
     conf s = totconfs (cfg s_init) ->
     (n <= fuel)%nat ->
     mc_loop fuel penergy0 s0 = Ok n s) /\
  (forall fuel s',
     run_mc fuel s_init = Ok tt s' -> conf s' = totconfs (cfg s_init)).
Proof.
  intros Htot Hconf Hstart.
  pose proof (mc_start_spec True s_init) as H0. unfold wp in H0.
  rewrite Hstart in H0. destruct H0 as (Ho0 & Hc0 & Hn0 & _).
  rewrite Hconf in Hn0.
  assert (Hinv : forall n penergy s,
            mc_reaches penergy0 s0 n penergy s ->
            files_open s /\ cfg s = cfg s_init /\
            (0 <= conf s <= totconfs (cfg s_init))%Z /\
            (conf s <= Z.of_nat n)%Z).
  { intros n pe s Hreach.
    destruct (mc_reaches_keeps Ho0 Hreach) as (Ho & Hc & Hn & Hle).
    rewrite Hc0, Hn0 in *. repeat split; try apply Ho; try lia; congruence. }
  assert (Hexit : forall n penergy s,
            mc_reaches penergy0 s0 n penergy s ->
            (mc_continue s = false <-> conf s = totconfs (cfg s_init))).
  { intros n pe s Hreach. destruct (Hinv _ _ _ Hreach) as (_ & Hc & Hn & _).
    unfold mc_continue. rewrite Hc, Z.ltb_ge. lia. }
  split; [|split; [|split]].
  - intros n pe s Hreach. destruct (Hinv _ _ _ Hreach) as (Ho & Hc & Hn & _).
    split; [exact Hn|]. split; [now rewrite Hc|].
    split; [apply (Hexit _ _ _ Hreach)|]. split.
    + intros pe' s' Hrun.
      destruct (mc_trial_inv pe Ho Hrun) as (acc & s1 & Hp & Heff).
      exists acc, s1. split; [exact Hp | apply Heff].
    + intros e s' Hcont Hrun.
      pose proof (mc_trial_spec True pe Ho) as Ht. unfold wp in Ht.
      rewrite Hrun in Ht. destruct Ht as (_ & _ & Hn' & _).
      unfold mc_continue in Hcont. apply Z.ltb_lt in Hcont.
      rewrite Hc in Hcont. lia.
  - intros fuel n s' Hloop.
    destruct (mc_loop_reaches _ _ _ Hloop) as (Hend & pe' & Hreach).
    destruct (Hinv _ _ _ Hreach) as (_ & _ & _ & Hn).
    apply (Hexit _ _ _ Hreach) in Hend.
    split; [exact Hend|]. split; [lia|]. exists pe'. exact Hreach.
  - intros n pe s fuel Hreach Hend Hfuel.
    apply (mc_loop_complete Hreach); [|exact Hfuel].
    now apply (Hexit _ _ _ Hreach).
  - intros fuel s' Hrun. unfold run_mc, bind in Hrun. rewrite Hstart in Hrun.
    destruct (mc_loop fuel penergy0 s0) as [n s1|e s1|] eqn:Hloop;
      try discriminate.
    destruct (mc_loop_reaches _ _ _ Hloop) as (Hend & pe' & Hreach).
    destruct (Hinv _ _ _ Hreach) as (Ho1 & Hc1 & _).
    apply (Hexit _ _ _ Hreach) in Hend.
    pose proof (mc_finish_spec True Ho1) as Hfin. unfold wp in Hfin.
    rewrite Hrun in Hfin. destruct Hfin as (Hr & _).
    apply reports_only_keeps in Hr as (_ & _ & _ & Hn & _). congruence.
Qed.

Lemma cadence_step (c d n : Z) :
  (1 <= c)%Z -> (1 <= n)%Z -> d = ((n - 1) mod c + 1)%Z ->
  ((d >=? c)%Z = true <-> (n mod c = 0)%Z) /\
  (if (d >=? c)%Z then 1 else d + 1)%Z = (n mod c + 1)%Z.
Proof.
  intros Hc Hn ->.
  pose proof (Z.mod_pos_bound (n - 1) c ltac:(lia)) as Hb1.
  pose proof (Z.mod_pos_bound n c ltac:(lia)) as Hb.
  pose proof (Z.div_mod (n - 1) c ltac:(lia)) as Hd1.
  pose proof (Z.div_mod n c ltac:(lia)) as Hd.
  assert (Hrel : ((n - 1) mod c = c - 1 /\ n mod c = 0 \/
                  (n - 1) mod c < c - 1 /\
                  n mod c = (n - 1) mod c + 1)%Z).
  { destruct (Z.eq_dec ((n - 1) mod c) (c - 1)) as [Heq|Hne].
    - left. split; [exact Heq|]. symmetry.
      apply Z.mod_unique_pos with (q := ((n - 1) / c + 1)%Z); [lia|nia].
    - right. split; [lia|]. symmetry.
      apply Z.mod_unique_pos with (q := ((n - 1) / c)%Z); [lia|nia]. }
  destruct ((n - 1) mod c + 1 >=? c)%Z eqn:Hge.
  - apply Z.geb_le in Hge. split; [|lia]. split; lia.
  - rewrite Z.geb_leb in Hge. apply Z.leb_gt in Hge.
    split; [|lia]. split; [discriminate | lia].
Qed.

(** C6, as the code has it.  In a run whose loop is entered with
    [dconf = 0], as [open_output_files] leaves it, and with
    [dispconf = c >= 1]: when [n] trials, accepted or rejected, have
    returned, [dconf] is [0] if [n = 0] and [(n - 1) mod c + 1] otherwise,
    so that the test of [check_disp] in the next trial, trial [n + 1],
    succeeds exactly when [n] is a positive multiple of [c].  The
    controller therefore runs for the [k]-th time in trial [k * c + 1],
    not in trial [k * c]: first after [c + 1] trials, then every [c]
    trials; and the trial it runs in adjusts [dispmag] from counts that
    include that trial and restarts [dconf] at [1]. *)
Theorem controller_cadence penergy0 s0 :
  files_open s0 ->
  dconf s0 = 0%Z ->
  (1 <= dispconf (cfg s0))%Z ->
  forall n penergy s,
    mc_reaches penergy0 s0 n penergy s ->
    dconf s =
      (if (n =? 0)%nat then 0
       else (Z.of_nat n - 1) mod dispconf (cfg s0) + 1)%Z /\
    (disp_due s = true <->
     (1 <= n)%nat /\ (Z.of_nat n mod dispconf (cfg s0) = 0)%Z) /\
    (forall penergy' s',
       mc_trial penergy s = Ok penergy' s' ->
       exists accepted, trial_effect accepted s s').
Proof.
  intros Hopen Hd0 Hc n penergy s Hreach.
  assert (Hdconf : dconf s =
            (if (n =? 0)%nat then 0
             else (Z.of_nat n - 1) mod dispconf (cfg s0) + 1)%Z).
  { induction Hreach as [|n pe s pe' s' Hprev IH Hcont Hrun];
      [exact Hd0|].
    destruct (mc_reaches_keeps Hopen Hprev) as (Ho & Hcfg & _).
    destruct (mc_trial_inv pe Ho Hrun) as (acc & s1 & _ & Heff).
    destruct Heff as (_ & _ & _ & Hd' & _).
    unfold disp_due in Hd'. rewrite Hcfg, IH in Hd'. rewrite Hd'.
    change (S n =? 0)%nat with false. cbv iota.
    replace (Z.of_nat (S n) - 1)%Z with (Z.of_nat n) by lia.
    destruct n as [|n].
    - simpl. destruct (0 >=? dispconf (cfg s0))%Z eqn:Hge.
      + apply Z.geb_le in Hge. lia.
      + try rewrite Z.mod_0_l by lia. lia.
    - change (S n =? 0)%nat with false. cbv iota.
      apply (cadence_step Hc); [lia | reflexivity]. }
  destruct (mc_reaches_keeps Hopen Hreach) as (Ho & Hcfg & _).
  split; [exact Hdconf|]. split.
  - unfold disp_due. rewrite Hcfg, Hdconf. destruct n as [|n].
    + simpl. split; [|lia]. intro Hge. apply Z.geb_le in Hge. lia.
    + change (S n =? 0)%nat with false. cbv iota.
      destruct (cadence_step (d := ((Z.of_nat (S n) - 1)
                                      mod dispconf (cfg s0) + 1)%Z)
                  (n := Z.of_nat (S n)) Hc ltac:(lia) eq_refl) as [Hiff _].
      rewrite Hiff. split; [intro; split; [lia | assumption] | tauto].
  - intros pe' s' Hrun.
    destruct (mc_trial_inv penergy Ho Hrun) as (acc & s1 & _ & Heff).
    exists acc. exact Heff.
Qed.

End TrialLoop.

(** ** The demo world over the real numbers *)

Lemma demo_mc_model_ok {F} `{Arith F} : @mc_model_ok F nat demo_env.
Proof. split; [apply demo_model_ok | reflexivity]. Qed.

(** The first trial of the demo run, with two configurations wanted and
    [dispconf = 1]. *)
Lemma demo_first_trial :
  let s_init : Sim R nat := demo_sim (demo_run_cfg mc) in
  exists penergy0 s0 penergy1 s1 accepted,
    mc_start (W := demo_env) s_init = Ok penergy0 s0 /\
    files_open s0 /\ cfg s0 = cfg s_init /\ conf s0 = 0%Z /\
    dconf s0 = 0%Z /\
    mc_trial (W := demo_env) penergy0 s0 = Ok penergy1 s1 /\
    trial_effect accepted s0 s1 /\
    disp_due s0 = false /\
    n_accept s0 = 0%Z /\ n_reject s0 = 0%Z.
Proof.
  intro s_init.
  destruct (mc_start_returns (W := demo_env) s_init demo_model_ok)
    as (pe0 & s0 & Hstart & Ho0 & Hc0 & Hn0 & Ha0 & Hr0 & _ & Hd0).
  specialize (Hd0 eq_refl).
  assert (Ha : n_accept s0 = 0%Z) by (rewrite Ha0; reflexivity).
  assert (Hr : n_reject s0 = 0%Z) by (rewrite Hr0; reflexivity).
  destruct (mc_trial_returns (W := demo_env) pe0 demo_mc_model_ok Ho0)
    as (pe1 & s1 & Hrun & acc & Heff); [lia | lia |].
  exists pe0, s0, pe1, s1, acc.
  repeat split; try apply Ho0; try apply Heff; trivial.
  unfold disp_due. rewrite Hd0, Hc0. reflexivity.
Qed.

(** C6, as stated, fails.  With [dispconf = 1] the first invocation of the
    controller would be due in trial 1.  In the demo run trial 1 returns
    with [dispmag] as it was and one trial counted, the controller not
    having run; it is trial 2 whose test succeeds. *)
Lemma controller_skips_first_window :
  let s_init : Sim R nat := demo_sim (demo_run_cfg mc) in
  exists penergy0 s0 penergy1 s1,
    mc_start (W := demo_env) s_init = Ok penergy0 s0 /\
    mc_trial (W := demo_env) penergy0 s0 = Ok penergy1 s1 /\
    dispconf (cfg s0) = 1%Z /\
    disp_due s0 = false /\
    dispmag s1 = dispmag s0 /\
    (n_accept s1 + n_reject s1 = 1)%Z /\
    disp_due s1 = true.
Proof.
  intro s_init.
  destruct demo_first_trial
    as (pe0 & s0 & pe1 & s1 & acc & Hstart & Ho0 & Hc0 & Hn0 & Hd0 & Hrun &
        Heff & Hdue & Ha0 & Hr0).
  exists pe0, s0, pe1, s1.
  destruct Heff as (_ & Hc1 & _ & Hd1 & Hrest). rewrite Hdue in Hd1, Hrest.
  destruct Hrest as (Hmag & Ha1 & Hr1).
  split; [exact Hstart|]. split; [exact Hrun|].
  split; [now rewrite Hc0|]. split; [exact Hdue|]. split; [exact Hmag|].
  split; [destruct acc; lia|].
  unfold disp_due. rewrite Hd1, Hd0, Hc1, Hc0. reflexivity.
Qed.

(** After the first trial of the demo run [dconf] is [1]. *)
Lemma controller_cadence_witness :
  let s_init : Sim R nat := demo_sim (demo_run_cfg mc) in
  exists penergy0 s0 penergy1 s1,
    mc_start (W := demo_env) s_init = Ok penergy0 s0 /\
    files_open s0 /\ dconf s0 = 0%Z /\ (1 <= dispconf (cfg s0))%Z /\
    mc_reaches (W := demo_env) penergy0 s0 1 penergy1 s1 /\
    dconf s1 = 1%Z.
Proof.
  intro s_init.
  destruct demo_first_trial
    as (pe0 & s0 & pe1 & s1 & acc & Hstart & Ho0 & Hc0 & Hn0 & Hd0 & Hrun &
        _).
  assert (Hc : (1 <= dispconf (cfg s0))%Z) by (rewrite Hc0; simpl; lia).
  assert (Hreach : mc_reaches (W := demo_env) pe0 s0 1 pe1 s1).
  { eapply mc_reaches_trial; [apply mc_reaches_entry | | exact Hrun].
    unfold mc_continue. rewrite Hn0, Hc0. reflexivity. }
  exists pe0, s0, pe1, s1.
  split; [exact Hstart|]. split; [exact Ho0|]. split; [exact Hd0|].
  split; [exact Hc|]. split; [exact Hreach|].
  destruct (controller_cadence (W := demo_env) Ho0 Hd0 Hc Hreach)
    as (Hd1 & _).
  rewrite Hd1, Hc0. reflexivity.
Defined.

(** Over the reals a draw that is not positive passes the acceptance
    test whatever the energies: the factor is an exponential. *)
Lemma mc_propose_accepts {Rng} {W : Env R Rng} penergy (s : Sim R Rng)
    accepted s1 :
  (forall g, (fst (rng_random g) <= 0)%R) ->
  mc_propose penergy s = Ok accepted s1 ->
  accepted = true.
Proof.
  intros Hdraw. unfold mc_propose, bind at 1.
  destruct (get_rand_disp s) as [[] sa|e sa|]; try discriminate.
  unfold bind at 1, get, bind at 1.
  destruct (disp_coords (rand_disp sa) sa) as [[] sb|e sb|];
    try discriminate.
  unfold bind at 1.
  destruct (call_energy standard sb) as [[] sc|e sc|]; try discriminate.
  unfold bind.
  specialize (Hdraw (rng sc)). destruct (rng_random (rng sc)) as [u g].
  simpl in Hdraw. intros [= <- _]. unfold boltzmann_factor. simpl.
  apply Rleb_true. eapply Rle_trans; [exact Hdraw|]. left. apply exp_pos.
Qed.

(** The demo run to its end: two trials, both accepted. *)
Lemma demo_two_trials :
  let s_init : Sim R nat := demo_sim (demo_run_cfg mc) in
  exists penergy0 s0 penergy2 s2 s',
    mc_start (W := demo_env) s_init = Ok penergy0 s0 /\
    mc_reaches (W := demo_env) penergy0 s0 2 penergy2 s2 /\
    conf s2 = 2%Z /\
    mc_loop (W := demo_env) 5 penergy0 s0 = Ok 2%nat s2 /\
    run_mc (W := demo_env) 5 s_init = Ok tt s'.
Proof.
  intro s_init.
  destruct demo_first_trial
    as (pe0 & s0 & pe1 & s1 & acc0 & Hstart & Ho0 & Hc0 & Hn0 & Hd0 & Hrun1 &
        _ & Hdue0 & Ha0 & Hr0).
  assert (Hdraw : forall g : nat,
            (fst (rng_random (Env := demo_env (F := R)) g) <= 0)%R)
    by (intro g; simpl; lra).
  destruct (mc_trial_inv (W := demo_env) pe0 Ho0 Hrun1)
    as (acc1 & sa & Hp1 & Heff1).
  rewrite (mc_propose_accepts _ _ Hdraw Hp1) in Heff1.
  destruct Heff1 as (Ho1 & Hc1 & Hn1 & _ & Hrest1). rewrite Hdue0 in Hrest1.
  destruct Hrest1 as (_ & Ha1 & Hr1).
  assert (Hcont0 : mc_continue s0 = true)
    by (unfold mc_continue; rewrite Hn0, Hc0; reflexivity).
  assert (Hcont1 : mc_continue s1 = true)
    by (unfold mc_continue; rewrite Hn1, Hn0, Hc1, Hc0; reflexivity).
  destruct (mc_trial_returns (W := demo_env) pe1 demo_mc_model_ok Ho1)
    as (pe2 & s2 & Hrun2 & _); [lia | lia |].
  destruct (mc_trial_inv (W := demo_env) pe1 Ho1 Hrun2)
    as (acc2 & sb & Hp2 & Heff2).
  rewrite (mc_propose_accepts _ _ Hdraw Hp2) in Heff2.
  destruct Heff2 as (Ho2 & Hc2 & Hn2 & _).
  assert (Hreach : mc_reaches (W := demo_env) pe0 s0 2 pe2 s2).
  { eapply mc_reaches_trial; [|exact Hcont1 | exact Hrun2].
    eapply mc_reaches_trial; [apply mc_reaches_entry | exact Hcont0 |].
    exact Hrun1. }
  assert (Hconf : conf s2 = 2%Z) by lia.
  assert (Hend : mc_continue s2 = false)
    by (unfold mc_continue; rewrite Hconf, Hc2, Hc1, Hc0; reflexivity).
  pose proof (mc_loop_complete (fuel := 5) Hreach Hend ltac:(lia)) as Hloop.
  destruct (mc_loop_exit (W := demo_env) _ _ Hstart Hloop) as [_ Hrun].
  pose proof (mc_finish_spec (W := demo_env) False Ho2) as Hfin.
  apply wp_returns in Hfin as ([] & s' & Hfin & _).
  exists pe0, s0, pe2, s2, s'.
  repeat split; trivial. unfold s_init. now rewrite Hrun.
Qed.

(** The demo run counts its two configurations and returns. *)
Lemma mc_configuration_count_witness :
  let s_init : Sim R nat := demo_sim (demo_run_cfg mc) in
  (0 <= totconfs (cfg s_init))%Z /\ conf s_init = 0%Z /\
  exists penergy0 s0 penergy2 s2 s',
    mc_start (W := demo_env) s_init = Ok penergy0 s0 /\
    mc_reaches (W := demo_env) penergy0 s0 2 penergy2 s2 /\
    (0 <= conf s2 <= totconfs (cfg s_init))%Z /\
    run_mc (W := demo_env) 5 s_init = Ok tt s' /\
    conf s' = totconfs (cfg s_init).
Proof.
  intro s_init. split; [simpl; lia|]. split; [reflexivity|].
  destruct demo_two_trials
    as (pe0 & s0 & pe2 & s2 & s' & Hstart & Hreach & _ & _ & Hrun).
  exists pe0, s0, pe2, s2, s'.
  assert (Htot : (0 <= totconfs (cfg s_init))%Z) by (simpl; lia).
  destruct (mc_configuration_count (W := demo_env) s_init Htot eq_refl Hstart)
    as (Hinv & _ & _ & Hret).
  split; [exact Hstart|]. split; [exact Hreach|].
  split; [apply (Hinv _ _ _ Hreach)|]. split; [exact Hrun|].
  apply (Hret _ _ Hrun).
Defined.

(** A run that wants no configuration returns. *)
Lemma demo_done_run :
  let s0 : Sim R nat := demo_sim demo_done_cfg in
  exists penergy s1,
    mc_start (W := demo_env) s0 = Ok penergy s1 /\
    mc_loop (W := demo_env) 5 penergy s1 = Ok O s1.
Proof.
  intro s0.
  destruct (mc_start_returns (W := demo_env) s0 demo_model_ok)
    as (pe & s1 & Hstart & _ & Hc1 & Hn1 & _).
  exists pe, s1. split; [exact Hstart|].
  apply mc_loop_done. unfold mc_continue. rewrite Hn1, Hc1. reflexivity.
Qed.

(** So does the run as a whole. *)
Lemma demo_done_returns :
  exists s',
    run_mc (W := demo_env) 5 (demo_sim (F := R) demo_done_cfg) = Ok tt s'.
Proof.
  destruct demo_done_run as (pe & s1 & Hstart & Hloop).
  destruct (mc_loop_exit (W := demo_env) _ _ Hstart Hloop) as [Hopen Hrun].
  pose proof (mc_finish_spec (W := demo_env) False Hopen) as Hfin.
  apply wp_returns in Hfin as ([] & s' & Hfin & _).
  exists s'. now rewrite Hrun.
Qed.

(** The run that wants no configuration ends with both files closed. *)
Lemma final_check_follows_schedule_witness :
  let s0 : Sim R nat := demo_sim demo_done_cfg in
  exists penergy s1 s',
    mc_start (W := demo_env) s0 = Ok penergy s1 /\
    mc_loop (W := demo_env) 5 penergy s1 = Ok O s1 /\
    run_mc (W := demo_env) 5 s0 = Ok tt s' /\
    closed_clean (efile s') /\ closed_clean (gfile s').
Proof.
  intro s0. destruct demo_done_run as (pe & s1 & Hstart & Hloop).
  destruct (final_check_follows_schedule (W := demo_env) 5 s0 s1)
    as (_ & Hmc).
  destruct (Hmc pe s1 O Hstart Hloop) as (s' & Hrun & Hce & Hcg & _).
  exists pe, s1, s'. repeat split; try apply Hce; try apply Hcg; assumption.
Defined.

(** A run that returns and a run whose energy model gives up in the first
    trial. *)
Lemma failure_leaves_files_open_witness :
  (exists s',
     run_mc (W := demo_env) 5 (demo_sim (F := R) demo_done_cfg) = Ok tt s' /\
     closed_clean (gfile s') /\ closed_clean (efile s')) /\
  (exists e s',
     run_mc (W := once_env) 5 (demo_sim (F := R) (demo_run_cfg mc))
       = Raised e s' /\
     files_open s').
Proof.
  split.
  - destruct demo_done_returns as (s' & Hrun).
    exists s'. split; [exact Hrun|].
    apply (failure_leaves_files_open (W := demo_env) 5
             (demo_sim (F := R) demo_done_cfg)).
    exact Hrun.
  - destruct (run_mc (W := once_env) 5 (demo_sim (F := R) (demo_run_cfg mc)))
      as [[] s'|e s'|] eqn:Hrun.
    + vm_compute in Hrun. discriminate.
    + exists e, s'. split; [reflexivity|].
      apply (failure_leaves_files_open (W := once_env) 5
               (demo_sim (F := R) (demo_run_cfg mc))) with (e := e).
      exact Hrun.
    + vm_compute in Hrun. discriminate.
Defined.

(** * Further properties

    More of what the methods do: the thermostat, the
    undoing of a rejected trial, the length of a trajectory, the labels
    and the cadence of the records, the windows of the displacement
    controller, arrays that are too short, files that are closed, seeds,
    and the layout of the energy file. *)

(** ** Two more rules for the monad *)

Lemma wp_conj {St A} D (m : M St A) (Q1 Q2 : A -> St -> Prop)
    (E1 E2 : exn -> St -> Prop) s :
  wp D m Q1 E1 s -> wp D m Q2 E2 s ->
  wp D m (fun a s' => Q1 a s' /\ Q2 a s') (fun e s' => E1 e s' /\ E2 e s') s.
Proof. unfold wp. destruct (m s); auto. Qed.

Lemma bind_run {St A B} (m : M St A) (k : A -> M St B) s :
  bind m k s =
    match m s with
    | Ok a s' => k a s'
    | Raised e s' => Raised e s'
    | OutOfFuel => OutOfFuel
    end.
Proof. reflexivity. Qed.

(** ** The thermostat *)

Section Thermostat.
Context {Rng : Type}.
Implicit Type s : Sim R Rng.
Local Open Scope R_scope.

Lemma sqrt_above_1 x : 1 < x -> 1 < sqrt x.
Proof. intro H. rewrite <- sqrt_1 at 1. apply sqrt_lt_1_alt. lra. Qed.

Lemma sqrt_below_1 x : 0 <= x < 1 -> sqrt x < 1.
Proof. intro H. rewrite <- sqrt_1. apply sqrt_lt_1_alt. lra. Qed.

Lemma equilibrate_temp_real s :
  equilibrate_temp s =
    Ok tt
      (map_atoms
         (scale_atom
            (1 + timestep (cfg s) / eqrate (cfg s) *
                 (sqrt (temp (cfg s) /
                        ((etemp s + 10 * timestep (cfg s) * mol_temp (mol s)) /
                         (1 + 10 * timestep (cfg s)))) - 1)))
         (set_etemp
            ((etemp s + 10 * timestep (cfg s) * mol_temp (mol s)) /
             (1 + 10 * timestep (cfg s))) s)).
Proof.
  unfold equilibrate_temp, bind, get, modify. simpl.
  replace (10 / 1) with 10 by lra. replace (1 / 1) with 1 by lra.
  reflexivity.
Qed.

(** X1.  Over the reals, with [timestep], [eqrate], [temp] and [etemp]
    positive and a kinetic temperature that is not negative:
    [equilibrate_temp] returns; the new [etemp] is the weighted mean
    [(etemp + 10*timestep*mol.temp) / (1 + 10*timestep)], which lies
    between the old [etemp] and [mol.temp]; every velocity component is
    multiplied by [velscale = 1 + timestep/eqrate * (sqrt(temp/etemp) - 1)]
    and nothing else of an atom moves; the velocities grow when the mean
    is below the target [temp], shrink when it is above, stay when it is
    equal; and for [timestep <= eqrate] the factor is positive, so that no
    velocity changes direction. *)
Theorem equilibrate_temp_steers s :
  0 < timestep (cfg s) -> 0 < eqrate (cfg s) -> 0 < temp (cfg s) ->
  0 < etemp s -> 0 <= mol_temp (mol s) ->
  let w := 10 * timestep (cfg s) in
  let mean := (etemp s + w * mol_temp (mol s)) / (1 + w) in
  let velscale :=
    1 + timestep (cfg s) / eqrate (cfg s) * (sqrt (temp (cfg s) / mean) - 1) in
  exists s',
    equilibrate_temp s = Ok tt s' /\
    etemp s' = mean /\
    Rmin (etemp s) (mol_temp (mol s)) <= mean
      <= Rmax (etemp s) (mol_temp (mol s)) /\
    length (atoms (mol s')) = length (atoms (mol s)) /\
    (forall i a,
       nth_error (atoms (mol s)) i = Some a ->
       exists a',
         nth_error (atoms (mol s')) i = Some a' /\
         coords a' = coords a /\ mass a' = mass a /\
         forall j, nth3 (vels a') j = nth3 (vels a) j * velscale) /\
    (mean < temp (cfg s) -> 1 < velscale) /\
    (temp (cfg s) < mean -> velscale < 1) /\
    (mean = temp (cfg s) -> velscale = 1) /\
    (timestep (cfg s) <= eqrate (cfg s) -> 0 < velscale).
Proof.
  intros Hdt Hrate HT He Hm w mean velscale.
  assert (Hw : 0 < w) by (subst w; lra).
  assert (Hmean : 0 < mean).
  { subst mean. apply Rdiv_lt_0_compat; [|lra].
    assert (0 <= w * mol_temp (mol s)) by (apply Rmult_le_pos; lra). lra. }
  assert (Hr : 0 < timestep (cfg s) / eqrate (cfg s))
    by now apply Rdiv_lt_0_compat.
  assert (Hq : 0 < temp (cfg s) / mean) by now apply Rdiv_lt_0_compat.
  exists (map_atoms (scale_atom velscale) (set_etemp mean s)).
  split; [apply equilibrate_temp_real|]. split; [reflexivity|].
  assert (Hdef : mean * (1 + w) = etemp s + w * mol_temp (mol s))
    by (subst mean; field; lra).
  assert (Hqdef : temp (cfg s) / mean * mean = temp (cfg s))
    by (field; lra).
  assert (Hrdef : timestep (cfg s) / eqrate (cfg s) * eqrate (cfg s)
                  = timestep (cfg s)) by (field; lra).
  split; [|split; [|split; [|split; [|split; [|split]]]]].
  - unfold Rmin, Rmax.
    destruct (Rle_dec (etemp s) (mol_temp (mol s))) as [Hle|Hgt]; split; nra.
  - simpl. apply length_map.
  - intros i a Ha. simpl. rewrite nth_error_map, Ha. simpl.
    eexists. split; [reflexivity|]. repeat split. intros []; reflexivity.
  - intro Hlt. assert (H : 1 < temp (cfg s) / mean) by nra.
    pose proof (sqrt_above_1 H) as Hs. subst velscale. nra.
  - intro Hlt. assert (H : 0 <= temp (cfg s) / mean < 1) by (split; nra).
    pose proof (sqrt_below_1 H) as Hs. subst velscale. nra.
  - intro Heq. subst velscale. rewrite Heq. unfold Rdiv at 2.
    rewrite Rinv_r by lra. rewrite sqrt_1. lra.
  - intro Hle. assert (Hs : 0 < sqrt (temp (cfg s) / mean))
      by now apply sqrt_lt_R0.
    assert (Hr1 : timestep (cfg s) / eqrate (cfg s) <= 1) by nra.
    subst velscale. nra.
Qed.

End Thermostat.

(** The demo molecule with a running mean of [300] and no kinetic
    temperature yet: the mean halves. *)
Lemma equilibrate_temp_steers_witness :
  let s : Sim R nat := set_etemp 300%R (demo_sim (demo_run_cfg md)) in
  exists s', equilibrate_temp s = Ok tt s' /\ etemp s' = 150%R.
Proof.
  intro s.
  destruct (@equilibrate_temp_steers nat s) as (s' & Hrun & He & _);
    try (subst s; simpl; lra).
  exists s'. split; [exact Hrun|]. rewrite He. subst s. simpl. lra.
Defined.

(** ** A rejected trial *)

Section RejectedMove.
Local Open Scope R_scope.

(** Over the reals a displacement followed by its opposite is no
    displacement; the previous coordinates are then those of the
    displaced molecule. *)
Lemma disp_there_and_back (l : list (Atom R)) d :
  (length l <= length d)%nat ->
  let l1 := fst (zip_rows disp_atom disp_atom_partial l d) in
  let l2 := fst (zip_rows disp_atom disp_atom_partial l1 (opposite d)) in
  snd (zip_rows disp_atom disp_atom_partial l1 (opposite d)) = true /\
  map coords l2 = map coords l /\
  map pcoords l2 = map coords l1 /\
  map vels l2 = map vels l /\ map mass l2 = map mass l.
Proof.
  revert d. induction l as [|a l IH]; intros d Hlen.
  { destruct d; simpl; repeat split. }
  destruct d as [|r d]; simpl in *; [lia|].
  specialize (IH d).
  destruct (zip_rows disp_atom disp_atom_partial l d) as [l1 ok1]. simpl in *.
  destruct (zip_rows disp_atom disp_atom_partial l1 (opposite d))
    as [l2 ok2]. simpl in *.
  destruct IH as (Hok & Hc & Hp & Hv & Hm); [lia|].
  split; [exact Hok|]. rewrite Hc, Hp, Hv, Hm.
  repeat split. f_equal. destruct a as [m [x y z] v ac pc pv pa].
  destruct r as [dx dy dz]. unfold tab3. simpl. f_equal; lra.
Qed.

End RejectedMove.

Section TrialSteps.
Context {F Rng : Type} {AF : Arith F} {W : Env F Rng} {EF : Elementary F}.
Implicit Type s : Sim F Rng.
Local Open Scope fl_scope.

(** A proposal that returns, step by step. *)
Lemma mc_propose_inv penergy s accepted s1 :
  mc_propose penergy s = Ok accepted s1 ->
  exists rows g m u g',
    draw_rows (n_atoms (mol s)) (dispmag s) (rng s) = (rows, g) /\
    get_energy standard
      (set_atoms
         (fst (zip_rows disp_atom disp_atom_partial (atoms (mol s)) rows))
         (mol s)) = (m, None) /\
    rng_random g = (u, g') /\
    accepted = (boltzmann_factor (e_total m - penergy) (temp (cfg s)) >=? u) /\
    s1 = set_rng g' (set_mol m (set_rng g (set_rand_disp rows s))).
Proof.
  unfold mc_propose, bind at 1, get_rand_disp, modify.
  destruct (draw_rows (n_atoms (mol s)) (dispmag s) (rng s)) as [rows g]
    eqn:Hrows.
  unfold bind at 1, get, bind at 1, disp_coords. simpl.
  destruct (zip_rows disp_atom disp_atom_partial (atoms (mol s)) rows)
    as [l [|]] eqn:Hzip; simpl; [|discriminate].
  unfold bind at 1, call_energy. simpl.
  destruct (get_energy standard (set_atoms l (mol s))) as [m [e|]] eqn:Hen;
    [discriminate|].
  unfold bind. simpl. destruct (rng_random g) as [u g'] eqn:Hu.
  intros [= <- <-]. exists rows, g, m, u, g'. rewrite Hzip. simpl.
  repeat split; trivial.
Qed.

(** [check_disp] touches the trial counters, [dconf] and [dispmag]. *)
Lemma check_disp_frame D s :
  wp D check_disp
     (fun _ s' => mol s' = mol s /\ rand_disp s' = rand_disp s /\
                  rng s' = rng s /\ time s' = time s /\
                  econf s' = econf s /\ gconf s' = gconf s /\
                  etime s' = etime s /\ gtime s' = gtime s)
     (fun _ _ => True) s.
Proof.
  unfold check_disp. apply wp_bind, wp_get, wp_bind.
  destruct (disp_due s); simpl.
  - unfold changedisp. apply wp_bind, wp_bind, wp_get.
    destruct (n_reject s + n_accept s =? 0)%Z; [now apply wp_raise|].
    repeat (apply wp_bind, wp_modify). repeat apply wp_modify. simpl.
    repeat split.
  - apply wp_ret, wp_modify. simpl. repeat split.
Qed.

End TrialSteps.

Section RejectedTrial.
Context {Rng : Type} {W : Env R Rng}.
Implicit Type s : Sim R Rng.
Local Open Scope R_scope.

(** X2.  Over the reals, with an energy model that leaves the atoms as it
    finds them: when the acceptance test of a trial fails, [mc_reject]
    returns and puts every coordinate back where it was before the trial,
    velocities untouched; [pcoords] then holds the coordinates of the
    rejected configuration and [mol.e_total] is still the energy of the
    rejected configuration, not of the restored one; one rejection is
    counted and [conf] stays; and the trial as a whole leaves this
    molecule and hands the old [penergy] on. *)
Theorem rejected_trial_restores penergy s s1 :
  (forall mode m, atoms (fst (get_energy mode m)) = atoms m) ->
  mc_propose penergy s = Ok false s1 ->
  exists s2,
    mc_reject penergy s1 = Ok penergy s2 /\
    map coords (atoms (mol s2)) = map coords (atoms (mol s)) /\
    map pcoords (atoms (mol s2)) = map coords (atoms (mol s1)) /\
    map vels (atoms (mol s2)) = map vels (atoms (mol s)) /\
    e_total (mol s2) = e_total (mol s1) /\
    n_reject s2 = (n_reject s + 1)%Z /\ n_accept s2 = n_accept s /\
    conf s2 = conf s /\
    forall penergy' s',
      mc_trial penergy s = Ok penergy' s' ->
      penergy' = penergy /\ mol s' = mol s2.
Proof.
  intros Hkeep Hprop.
  destruct (mc_propose_inv _ _ Hprop)
    as (rows & g & m & u & g' & Hrows & Hen & Hu & _ & Hs1).
  assert (Hlen : length rows = n_atoms (mol s)).
  { pose proof (draw_rows_spec (n_atoms (mol s)) (dispmag s) (rng s))
      as (_ & Hl & _). now rewrite Hrows in Hl. }
  pose proof (Hkeep standard
    (set_atoms (fst (zip_rows disp_atom disp_atom_partial
                       (atoms (mol s)) rows)) (mol s))) as Hat.
  rewrite Hen in Hat. simpl in Hat.
  assert (Hle : (length (atoms (mol s)) <= length rows)%nat)
    by (rewrite Hlen; unfold n_atoms; lia).
  destruct (disp_there_and_back (atoms (mol s)) rows Hle)
    as (Hok & Hc & Hp & Hv & _).
  rewrite <- Hat in Hok, Hc, Hp, Hv.
  assert (Hrej : mc_reject penergy s1 =
    Ok penergy
      (set_n_reject (n_reject s1 + 1)%Z
         (set_mol
            (set_atoms
               (fst (zip_rows disp_atom disp_atom_partial (atoms m)
                       (opposite rows))) (mol s1)) s1))).
  { unfold mc_reject, bind at 1, get, bind at 1, disp_coords.
    assert (Hm1 : atoms (mol s1) = atoms m) by now rewrite Hs1.
    assert (Hr1 : rand_disp s1 = rows) by now rewrite Hs1.
    rewrite Hm1, Hr1. fold (opposite rows).
    destruct (zip_rows disp_atom disp_atom_partial (atoms m) (opposite rows))
      as [l2 ok2]. simpl in Hok |- *. rewrite Hok. reflexivity. }
  eexists. split; [exact Hrej|].
  assert (Hm1 : atoms (mol s1) = atoms m) by now rewrite Hs1.
  split; [exact Hc|]. split; [simpl; now rewrite Hm1|].
  split; [exact Hv|]. split; [reflexivity|].
  split; [now rewrite Hs1|]. split; [now rewrite Hs1|].
  split; [now rewrite Hs1|].
  intros pe' s' Htrial. unfold mc_trial, bind at 1 in Htrial.
  rewrite Hprop in Htrial. unfold bind at 1 in Htrial.
  rewrite Hrej in Htrial. unfold bind at 1 in Htrial.
  pose proof (check_disp_frame True
    (set_n_reject (n_reject s1 + 1)%Z
       (set_mol
          (set_atoms
             (fst (zip_rows disp_atom disp_atom_partial (atoms m)
                     (opposite rows))) (mol s1)) s1))) as Hcd.
  unfold wp in Hcd.
  destruct (check_disp _) as [[] s3|e s3|]; try discriminate.
  unfold ret in Htrial. injection Htrial as <- <-.
  split; [reflexivity|]. apply Hcd.
Qed.

End RejectedTrial.

Lemma Rleb_false x y : (y < x)%R -> Rleb x y = false.
Proof. intro H. unfold Rleb. destruct (Rle_dec x y); [lra | reflexivity]. Qed.

Lemma exp_below_half x : (x <= -1)%R -> (exp x < 1 / 2)%R.
Proof.
  intro Hx. apply Rle_lt_trans with (exp (-1)).
  - destruct Hx as [Hx| ->];
      [left; now apply exp_increasing | right; reflexivity].
  - replace (-1)%R with (- (1))%R by lra. rewrite exp_Ropp.
    pose proof (exp_ineq1 1 ltac:(lra)) as H.
    pose proof (exp_pos 1) as Hp.
    apply Rmult_lt_reg_r with (exp 1); [exact Hp|].
    rewrite Rinv_l by lra. lra.
Qed.

(** In the uphill world the first proposal raises the energy by [100]
    and is turned down. *)
Lemma uphill_proposal :
  let s : Sim R nat := demo_sim (demo_run_cfg mc) in
  exists s1, mc_propose (W := uphill_env) 0%R s = Ok false s1.
Proof.
  intro s. unfold mc_propose, bind, get_rand_disp, modify, get, disp_coords,
    call_energy. simpl.
  eexists. f_equal. unfold boltzmann_factor. simpl.
  apply Rleb_false. rewrite fmin_Rmin.
  eapply Rlt_le_trans; [apply exp_below_half|].
  2:{ simpl. lra. }
  eapply Rle_trans; [apply Rmin_r|]. simpl.
  match goal with |- (_ / ?d <= _)%R => set (kT := d) end.
  assert (HkT : (0 < kT <= 1)%R) by (subst kT; lra).
  apply Rmult_le_reg_r with kT; [lra|].
  unfold Rdiv at 1. rewrite Rmult_assoc, Rinv_l by lra. lra.
Qed.

(** The rejected trial of the uphill world leaves the atom where it
    was. *)
Lemma rejected_trial_restores_witness :
  let s : Sim R nat := demo_sim (demo_run_cfg mc) in
  exists s1 s2,
    mc_propose (W := uphill_env) 0%R s = Ok false s1 /\
    mc_reject 0%R s1 = Ok 0%R s2 /\
    map coords (atoms (mol s2)) = map coords (atoms (mol s)).
Proof.
  intro s. destruct uphill_proposal as [s1 Hp].
  destruct (rejected_trial_restores (W := uphill_env) 0%R s
              (fun _ _ => eq_refl) Hp) as (s2 & Hrej & Hc & _).
  exists s1, s2. split; [exact Hp|]. split; [exact Hrej | exact Hc].
Defined.

(** ** The length of a trajectory *)

Section ClockReal.
Local Open Scope R_scope.

Lemma Rltb_true x y : x < y -> Rltb x y = true.
Proof. intro H. unfold Rltb. destruct (Rlt_dec x y); [reflexivity | lra]. Qed.

Lemma Rltb_false x y : y <= x -> Rltb x y = false.
Proof. intro H. unfold Rltb. destruct (Rlt_dec x y); [lra | reflexivity]. Qed.

Lemma iter_clock n (t dt : R) :
  Nat.iter n (fun t => (t + dt)%fl) t = t + INR n * dt.
Proof.
  induction n as [|n IH]; [simpl; lra|].
  rewrite Nat.iter_succ, IH, S_INR. simpl. lra.
Qed.

(** The least number of increments that take the clock to the total. *)
Lemma clock_reaches (t tot dt : R) :
  0 < dt ->
  exists n,
    (forall k, (k < n)%nat -> t + INR k * dt < tot) /\
    tot <= t + INR n * dt.
Proof.
  intro Hdt.
  assert (Hsome : exists N, tot <= t + INR N * dt).
  { destruct (archimed ((tot - t) / dt)) as [Hup _].
    exists (Z.to_nat (up ((tot - t) / dt))).
    assert (Hq : (tot - t) / dt * dt = tot - t) by (field; lra).
    destruct (Z_lt_le_dec (up ((tot - t) / dt)) 0) as [Hneg|Hpos].
    - replace (Z.to_nat (up ((tot - t) / dt))) with O by lia. simpl.
      apply IZR_lt in Hneg. nra.
    - rewrite INR_IZR_INZ, Z2Nat.id by lia. nra. }
  destruct Hsome as [N HN]. induction N as [|N IH].
  - exists O. split; [intros k Hk; lia | exact HN].
  - destruct (Rle_dec tot (t + INR N * dt)) as [Hle|Hgt]; [now apply IH|].
    exists (S N). split; [|exact HN].
    intros k Hk. assert (Hkn : INR k <= INR N) by (apply le_INR; lia).
    nra.
Qed.

Lemma clock_trips_real n : forall fuel (t tot dt : R),
  (forall k, (k < n)%nat -> t + INR k * dt < tot) ->
  tot <= t + INR n * dt ->
  (n <= fuel)%nat ->
  clock_trips fuel t tot dt = Some n.
Proof.
  induction n as [|n IH]; intros fuel t tot dt Hlt Hle Hfuel.
  - simpl in Hle. assert (Hf : Rltb t tot = false)
      by (apply Rltb_false; lra).
    destruct fuel; simpl; now rewrite Hf.
  - destruct fuel as [|fuel]; [lia|]. simpl.
    assert (Ht : Rltb t tot = true).
    { apply Rltb_true. specialize (Hlt O ltac:(lia)). simpl in Hlt. lra. }
    rewrite Ht, (IH fuel); [reflexivity| | |lia].
    + intros k Hk. specialize (Hlt (S k) ltac:(lia)).
      rewrite S_INR in Hlt. simpl. lra.
    + rewrite S_INR in Hle. simpl. lra.
Qed.

End ClockReal.

Section DynamicsReal.
Context {Rng : Type} {W : Env R Rng}.
Implicit Type s : Sim R Rng.
Local Open Scope R_scope.

(** X3.  Over the reals, with a positive [timestep] and an energy model
    that does not fail, the loop of [run_md] ends: it makes exactly [n]
    passes, [n] being the least number with
    [time + n * timestep >= tottime] -- none if the clock is already
    there --, and leaves the clock at [time + n * timestep]. *)
Theorem md_loop_steps s :
  model_ok -> files_open s -> 0 < timestep (cfg s) ->
  exists n,
    (forall k, (k < n)%nat ->
       time s + INR k * timestep (cfg s) < tottime (cfg s)) /\
    tottime (cfg s) <= time s + INR n * timestep (cfg s) /\
    forall fuel, (n <= fuel)%nat ->
      exists s',
        md_loop fuel s = Ok n s' /\
        time s' = time s + INR n * timestep (cfg s) /\
        cfg s' = cfg s /\ files_open s'.
Proof.
  intros Hok Hopen Hdt.
  destruct (clock_reaches (time s) (tottime (cfg s)) Hdt) as (n & Hlt & Hle).
  exists n. split; [exact Hlt|]. split; [exact Hle|].
  intros fuel Hfuel.
  pose proof (clock_trips_real Hlt Hle Hfuel) as Htrips.
  destruct (md_loop_count _ Hok Hopen Htrips)
    as (s' & Hrun & Ho' & Hc' & _ & Ht').
  exists s'. split; [exact Hrun|]. rewrite Ht'.
  split; [apply iter_clock|]. split; assumption.
Qed.

(** X4.  Over the reals, a [timestep] that is zero or negative while
    [time < tottime] keeps the loop of [run_md] from ever ending: on no
    amount of fuel does it return, and with an energy model that does
    not fail it does not raise either. *)
Theorem md_loop_needs_progress s :
  files_open s -> timestep (cfg s) <= 0 -> time s < tottime (cfg s) ->
  (forall fuel n s', md_loop fuel s <> Ok n s') /\
  (model_ok -> forall fuel, md_loop fuel s = OutOfFuel).
Proof.
  intros Hopen Hdt Hlt.
  assert (Hinv : forall fuel s1,
    files_open s1 -> cfg s1 = cfg s -> time s1 <= time s ->
    match md_loop fuel s1 with
    | Ok _ _ => False
    | Raised _ _ => ~ model_ok
    | OutOfFuel => True
    end).
  { unfold md_loop. induction fuel as [|fuel IH]; intros s1 Ho1 Hc1 Ht1;
      cbn [while]; unfold md_continue at 1; rewrite Hc1;
      change (time s1 <? tottime (cfg s))%fl
        with (Rltb (time s1) (tottime (cfg s)));
      rewrite (Rltb_true (x := time s1) (y := tottime (cfg s))) by lra;
      [exact I|].
    pose proof (md_step_spec True Ho1) as Hstep. unfold wp in Hstep.
    destruct (md_step s1) as [[] s2|e s2|]; [| apply Hstep | exact I].
    destruct Hstep as (Ho2 & Hc2 & Ht2).
    assert (Ht : time s2 <= time s).
    { rewrite Ht2, Hc1. simpl. lra. }
    specialize (IH s2 Ho2 (eq_trans Hc2 Hc1) Ht).
    destruct (while fuel _ _ tt s2) as [[k []] s3|e s3|]; exact IH. }
  split.
  - intros fuel n s' Hrun.
    specialize (Hinv fuel s Hopen eq_refl (Rle_refl _)).
    now rewrite Hrun in Hinv.
  - intros Hok fuel.
    specialize (Hinv fuel s Hopen eq_refl (Rle_refl _)).
    destruct (md_loop fuel s); [contradiction | contradiction | reflexivity].
Qed.

End DynamicsReal.

(** The demo trajectory of [0.25] ps in steps of [0.1] ps ends. *)
Lemma md_loop_steps_witness :
  let s : Sim R nat := demo_open_sim (demo_run_cfg md) in
  exists n s', md_loop (W := demo_env) n s = Ok n s'.
Proof.
  intro s.
  destruct (md_loop_steps (W := demo_env) (s := s) demo_model_ok)
    as (n & _ & _ & Hrun); [split; reflexivity | subst s; simpl; lra|].
  destruct (Hrun n (le_n n)) as (s' & Hloop & _).
  exists n, s'. exact Hloop.
Defined.

(** With [timestep = 0.0] three passes are not enough, nor any number. *)
Lemma md_loop_needs_progress_witness :
  md_loop (W := demo_env) 3 (demo_open_sim (F := R) demo_still_cfg)
    = OutOfFuel.
Proof.
  apply (md_loop_needs_progress (W := demo_env)
           (s := demo_open_sim (F := R) demo_still_cfg));
    [split; reflexivity | simpl; lra | simpl; lra | apply demo_model_ok].
Defined.

(** ** The records of a step and of a trial *)

Section Schedule.
Context {F Rng : Type} {AF : Arith F} {W : Env F Rng}.
Implicit Types s : Sim F Rng.
Local Open Scope fl_scope.

Lemma print_status_keeps D s :
  wp D print_status
     (fun _ s' => schedule_of s' = schedule_of s /\ cfg s' = cfg s)
     (fun _ _ => True) s.
Proof.
  unfold print_status, flush_gfile, flush_efile.
  apply wp_bind, wp_modify, wp_bind, wp_bind, wp_get. simpl.
  destruct (is_open (gfile s)); [|now apply wp_raise].
  apply wp_modify, wp_bind, wp_get. simpl.
  destruct (is_open (efile s)); [|now apply wp_raise].
  apply wp_modify. split; reflexivity.
Qed.

Lemma check_status_keeps D pa s :
  wp D (check_status pa)
     (fun _ s' => schedule_of s' = schedule_of s /\ cfg s' = cfg s)
     (fun _ _ => True) s.
Proof.
  assert (Hwhen : forall due s1,
    schedule_of s1 = schedule_of s -> cfg s1 = cfg s ->
    wp D (when due
            (print_status ;; now <- time_time ;; modify (set_stime now)))
       (fun _ s' => schedule_of s' = schedule_of s /\ cfg s' = cfg s)
       (fun _ _ => True) s1).
  { intros due s1 H1 Hc1. apply wp_when; [intros _ | intros _; auto].
    apply wp_bind.
    eapply wp_mono; [apply print_status_keeps| |]; cbv beta; [|trivial].
    intros _ s2 [H2 Hc2]. apply wp_bind. unfold wp at 1, time_time.
    apply wp_modify. split; [|simpl; congruence].
    unfold schedule_of in *. simpl. congruence. }
  unfold check_status, status_due. apply wp_bind. destruct pa.
  - apply wp_ret, Hwhen; reflexivity.
  - apply wp_bind. unfold wp at 1, time_time.
    apply wp_bind, wp_get, wp_ret, Hwhen; reflexivity.
Qed.

Lemma print_energy_keeps D s :
  wp D print_energy
     (fun _ s' => schedule_of s' = schedule_of s /\ cfg s' = cfg s)
     (fun _ _ => True) s.
Proof.
  unfold print_energy, write_efile. apply wp_bind, wp_get, wp_bind, wp_get.
  destruct (is_open (efile s)); [|now apply wp_raise].
  apply wp_modify. split; reflexivity.
Qed.

Lemma print_geom_keeps D s :
  wp D print_geom
     (fun _ s' => schedule_of s' = schedule_of s /\ cfg s' = cfg s)
     (fun _ _ => True) s.
Proof.
  unfold print_geom, write_gfile. apply wp_bind, wp_get, wp_bind, wp_get.
  destruct (is_open (gfile s)); [|now apply wp_raise].
  apply wp_modify. split; reflexivity.
Qed.

(** How a check of the schedule leaves the schedule. *)
Lemma check_print_md_counts D ts pa s :
  wp D (check_print_md ts pa)
     (fun _ s' =>
        etime s' =
          (if pa || (etime s >=? energytime (cfg s)) then dec 1 10
           else etime s) + ts /\
        gtime s' =
          (if pa || (gtime s >=? geomtime (cfg s)) then dec 1 10
           else gtime s) + ts /\
        econf s' = econf s /\ gconf s' = gconf s)
     (fun _ _ => True) s.
Proof.
  unfold check_print_md. apply wp_bind, wp_get.
  set (be := pa || (etime s >=? energytime (cfg s))).
  set (bg := pa || (gtime s >=? geomtime (cfg s))).
  apply wp_bind,
    wp_mono with
      (Q := fun _ s1 =>
              schedule_of s1 =
                ((if be then dec 1 10 else etime s), gtime s, econf s,
                 gconf s) /\ cfg s1 = cfg s)
      (E := fun _ _ => True); [| |trivial].
  { apply wp_when; intro Hb; rewrite Hb; [|split; reflexivity].
    apply wp_bind.
    eapply wp_mono; [apply print_energy_keeps| |]; cbv beta; [|trivial].
    intros _ s1 [H1 Hc1]. apply wp_modify. split; [|exact Hc1].
    unfold schedule_of in *. simpl. congruence. }
  intros _ s1 [H1 Hc1]. apply wp_bind, wp_get.
  assert (Hbg : pa || (gtime s1 >=? geomtime (cfg s1)) = bg).
  { unfold schedule_of in H1. subst bg. congruence. }
  rewrite Hbg.
  apply wp_bind,
    wp_mono with
      (Q := fun _ s2 =>
              schedule_of s2 =
                ((if be then dec 1 10 else etime s),
                 (if bg then dec 1 10 else gtime s), econf s, gconf s) /\
              cfg s2 = cfg s)
      (E := fun _ _ => True); [| |trivial].
  { apply wp_when; intro Hb; rewrite Hb; [|split; assumption].
    apply wp_bind.
    eapply wp_mono; [apply print_geom_keeps| |]; cbv beta; [|trivial].
    intros _ s2 [H2 Hc2]. apply wp_modify. split; [|simpl; congruence].
    unfold schedule_of in *. simpl. congruence. }
  intros _ s2 [H2 Hc2]. apply wp_bind.
  eapply wp_mono; [apply check_status_keeps| |]; cbv beta; [|trivial].
  intros _ s3 [H3 Hc3]. apply wp_bind, wp_modify, wp_modify.
  unfold schedule_of in *. simpl.
  rewrite H2 in H3. injection H3 as -> -> -> ->. repeat split.
Qed.


End Schedule.

Section Records.
Context {F Rng : Type} {AF : Arith F} {W : Env F Rng}.
Implicit Types s : Sim F Rng.
Local Open Scope fl_scope.

Lemma stamp_moves s s1 : moves_only s s1 -> stamp s1 = stamp s.
Proof. intros (m & e & g & r & ->). reflexivity. Qed.

Lemma stamp_reports s s1 : reports_only s s1 -> stamp s1 = stamp s.
Proof.
  intros (gf & ef & st & gt & et & gc & ec & tk & so & ->). reflexivity.
Qed.

Lemma md_step_output D s :
  files_open s ->
  wp D md_step
     (fun _ s' =>
        time s' = time s + timestep (cfg s) /\
        etime s' =
          (if etime s >=? energytime (cfg s) then dec 1 10 else etime s)
          + timestep (cfg s) /\
        gtime s' =
          (if gtime s >=? geomtime (cfg s) then dec 1 10 else gtime s)
          + timestep (cfg s) /\
        contents (efile s') =
          contents (efile s) ++
          (if etime s >=? energytime (cfg s)
           then [EnergyRow (stamp s) (mol s')] else []) /\
        contents (gfile s') =
          contents (gfile s) ++
          (if gtime s >=? geomtime (cfg s)
           then [GeomFrame (stamp s) (mol s')] else []))
     (fun _ _ => True) s.
Proof.
  intro Hopen. unfold md_step. apply wp_bind, wp_get, wp_bind.
  eapply wp_mono; [apply update_coords_moves| |]; cbv beta; [|trivial].
  intros _ s1 H1. apply wp_bind.
  eapply wp_mono; [apply call_gradient_moves| |]; cbv beta; [|trivial].
  intros _ s2 [H2 _]. pose proof (moves_only_trans H1 H2) as K2.
  apply wp_bind.
  eapply wp_mono; [apply update_accs_moves| |]; cbv beta; [|trivial].
  intros _ s3 H3. pose proof (moves_only_trans K2 H3) as K3.
  apply wp_bind.
  eapply wp_mono; [apply update_vels_moves| |]; cbv beta; [|trivial].
  intros _ s4 H4. pose proof (moves_only_trans K3 H4) as K4.
  apply wp_bind.
  eapply wp_mono; [apply call_energy_moves| |]; cbv beta; [|trivial].
  intros _ s5 H5. pose proof (moves_only_trans K4 H5) as K5.
  apply wp_bind, wp_get, wp_bind.
  apply wp_mono with (Q := fun _ s6 => moves_only s s6)
                     (E := fun _ _ => True); [| |trivial].
  { apply wp_when; intros _; [|exact K5].
    eapply wp_mono; [apply equilibrate_temp_moves| |]; cbv beta; [|trivial].
    intros _ s6 H6. apply (moves_only_trans K5 H6). }
  intros _ s6 K6. pose proof (files_open_moves Hopen K6) as Ho6.
  assert (Hc5 : cfg s5 = cfg s) by now apply moves_only_keeps in K5.
  pose proof (stamp_moves K6) as Hst.
  apply moves_only_keeps in K6
    as (Hc & Ht & _ & _ & _ & _ & _ & Hg & He & Hgt & Het & _).
  apply wp_bind.
  eapply wp_mono;
    [apply (@wp_conj _ _ D _ _ _ _ _ _
              (check_print_md_logged D (timestep (cfg s5)) false Ho6)
              (check_print_md_counts D (timestep (cfg s5)) false s6))
    | |]; cbv beta; [|trivial].
  intros _ s7 [(Hr & _ & Hce & Hcg) (He7 & Hg7 & _)].
  apply reports_only_keeps in Hr as (Hc7 & Hm7 & Ht7 & _).
  apply wp_modify. simpl. simpl in Hce, Hcg, He7, Hg7.
  unfold energy_row in Hce. unfold geom_frame in Hcg.
  rewrite Hc7, Ht7, Hc, Ht, He7, Hg7, Hce, Hcg, Hm7, Hst, Hc, He, Hg, Het, Hgt,
    Hc5.
  repeat split.
Qed.

(** X5.  A step of [run_md] that returns has advanced [time] by
    [timestep]; it has written an energy record exactly when it found
    [etime >= energytime], and then restarted [etime] at [10**-10] before
    adding [timestep] to it, and likewise for the geometry; and a record
    it writes is labelled with the time the step began at, while it shows
    the molecule as the step leaves it. *)
Theorem md_step_records s s' :
  files_open s -> simtype (cfg s) = md ->
  md_step s = Ok tt s' ->
  time s' = time s + timestep (cfg s) /\
  etime s' =
    (if etime s >=? energytime (cfg s) then dec 1 10 else etime s)
    + timestep (cfg s) /\
  gtime s' =
    (if gtime s >=? geomtime (cfg s) then dec 1 10 else gtime s)
    + timestep (cfg s) /\
  contents (efile s') =
    contents (efile s) ++
    (if etime s >=? energytime (cfg s)
     then [EnergyRow (AtTime (time s)) (mol s')] else []) /\
  contents (gfile s') =
    contents (gfile s) ++
    (if gtime s >=? geomtime (cfg s)
     then [GeomFrame (AtTime (time s)) (mol s')] else []).
Proof.
  intros Hopen Hmd Hrun.
  pose proof (md_step_output True Hopen) as Hout. unfold wp in Hout.
  rewrite Hrun in Hout. unfold stamp in Hout. now rewrite Hmd in Hout.
Qed.

End Records.

(** A step of the demo trajectory, every record due. *)
Lemma md_step_records_witness :
  let s : Sim float nat := demo_open_sim demo_eager_cfg in
  exists s',
    md_step (W := demo_env) s = Ok tt s' /\
    map row_stamp (contents (efile s')) = [Some (AtTime (time s))].
Proof.
  intro s.
  destruct (md_step_returns (W := demo_env) (s := s) demo_model_ok)
    as (s' & Hrun & _); [split; reflexivity|].
  exists s'. split; [exact Hrun|].
  destruct (md_step_records (W := demo_env) (s := s) (s' := s'))
    as (_ & _ & _ & He & _); [split; reflexivity | reflexivity | exact Hrun|].
  rewrite He. reflexivity.
Defined.

Section TrialRecords.
Context {F Rng : Type} {AF : Arith F} {W : Env F Rng} {EF : Elementary F}.
Implicit Types s : Sim F Rng.
Local Open Scope fl_scope.






End TrialRecords.


(** ** The windows of the displacement controller *)

Section Windows.
Context {F Rng : Type} {AF : Arith F} {W : Env F Rng} {EF : Elementary F}.
Implicit Types s : Sim F Rng.
Local Open Scope fl_scope.


End Windows.


Section ControllerReal.
Context {Rng : Type} {W : Env R Rng}.
Implicit Type s : Sim R Rng.
Local Open Scope R_scope.


(** X8.  Over the reals, with counters that are not negative and not
    both zero, [dispinc >= 0] and [dispmag > 0]: one call of [changedisp]
    returns, leaves [dispmag] positive and changes it by a factor between
    [exp(-dispinc)] and [exp(dispinc)]; with the default rate
    [dispinc = log 2] it at most doubles and at most halves it. *)
Theorem changedisp_bounded s :
  (0 <= n_accept s)%Z -> (0 <= n_reject s)%Z ->
  (0 < n_accept s + n_reject s)%Z ->
  0 <= dispinc (cfg s) -> 0 < dispmag s ->
  exists s',
    changedisp s = Ok tt s' /\
    0 < dispmag s' /\
    dispmag s * exp (- dispinc (cfg s)) <= dispmag s'
      <= dispmag s * exp (dispinc (cfg s)) /\
    (dispinc (cfg s) = ln 2 ->
     dispmag s / 2 <= dispmag s' <= 2 * dispmag s).
Proof.
  intros Ha Hr Hsum Hinc Hmag.
  set (p := IZR (n_accept s) / IZR (n_accept s + n_reject s)).
  assert (Hp : 0 <= p <= 1).
  { assert (Hs : 0 < IZR (n_accept s + n_reject s)) by now apply IZR_lt.
    assert (Hdef : p * IZR (n_accept s + n_reject s) = IZR (n_accept s))
      by (subst p; field; lra).
    assert (Ha' : 0 <= IZR (n_accept s)) by now apply IZR_le.
    assert (Hle : IZR (n_accept s) <= IZR (n_accept s + n_reject s))
      by (apply IZR_le; lia).
    split; nra. }
  eexists. split; [apply changedisp_real; lia|]. simpl. fold p.
  assert (Hlo : exp (- dispinc (cfg s))
                <= exp (2 * dispinc (cfg s) * (p - 0.5)))
    by (apply exp_le_mono; nra).
  assert (Hhi : exp (2 * dispinc (cfg s) * (p - 0.5))
                <= exp (dispinc (cfg s)))
    by (apply exp_le_mono; nra).
  pose proof (exp_pos (2 * dispinc (cfg s) * (p - 0.5))) as Hpos.
  split; [now apply Rmult_lt_0_compat|]. split; [split; nra|].
  intro Hln. rewrite Hln in Hlo, Hhi |- *.
  rewrite exp_Ropp, exp_ln in Hlo by lra. rewrite exp_ln in Hhi by lra.
  split.
  - unfold Rdiv. apply Rmult_le_compat_l; lra.
  - replace (2 * dispmag s) with (dispmag s * 2) by lra.
    apply Rmult_le_compat_l; lra.
Qed.



End ControllerReal.

(** 80 trials accepted and 20 rejected. *)
Lemma changedisp_bounded_witness :
  exists s',
    changedisp (demo_counts (F := R) 80 20) = Ok tt s' /\
    (0 < dispmag s')%R.
Proof.
  destruct (@changedisp_bounded nat (demo_counts 80 20))
    as (s' & Hrun & Hpos & _);
    [simpl; lia | simpl; lia | simpl; lia | simpl; lra | simpl; lra|].
  exists s'. split; [exact Hrun | exact Hpos].
Defined.



(** ** Arrays that are too short *)

Section ShortRows.
Context {F : Type}.
Variables (f : Atom F -> V3 F -> Atom F) (partial : Atom F -> Atom F).

(** When the array runs out before the atoms do: the atoms that found a
    row are updated, the first one that did not is left half way, the
    rest are not visited. *)
Lemma zip_rows_short l rows :
  (length rows < length l)%nat ->
  snd (zip_rows f partial l rows) = false /\
  (forall i a r,
     nth_error l i = Some a -> nth_error rows i = Some r ->
     nth_error (fst (zip_rows f partial l rows)) i = Some (f a r)) /\
  (forall a,
     nth_error l (length rows) = Some a ->
     nth_error (fst (zip_rows f partial l rows)) (length rows)
       = Some (partial a)) /\
  (forall i,
     (length rows < i)%nat ->
     nth_error (fst (zip_rows f partial l rows)) i = nth_error l i).
Proof.
  revert rows. induction l as [|b l IH]; intros rows Hlen; [simpl in Hlen; lia|].
  destruct rows as [|r0 rows]; simpl.
  - split; [reflexivity|]. split; [|split].
    + intros [|i] a r Ha Hr; discriminate.
    + intros a [= ->]. reflexivity.
    + intros [|i] Hi; [lia | reflexivity].
  - simpl in Hlen. destruct (IH rows ltac:(lia)) as (Hok & Hpre & Hat & Hpost).
    destruct (zip_rows f partial l rows) as [l' ok]. simpl in *.
    split; [exact Hok|]. split; [|split].
    + intros [|i] a r Ha Hr; simpl in *.
      * now injection Ha as ->; injection Hr as ->.
      * now apply Hpre.
    + exact Hat.
    + intros [|i] Hi; [lia|]. simpl. apply Hpost. lia.
Qed.

End ShortRows.

Section ShortArrays.
Context {F Rng : Type} {AF : Arith F}.
Implicit Type s : Sim F Rng.
Local Open Scope fl_scope.

(** X11.  When [g_total] has fewer rows than the molecule has atoms,
    [update_accs] raises [IndexError], and not before it has changed the
    molecule: every atom that has a row got its new acceleration and its
    [paccs]; the first atom without a row has [paccs[0]] overwritten with
    [accs[0]] and nothing else; the atoms after it are untouched, and so
    is everything outside the atoms. *)
Theorem update_accs_short_gradient s :
  (length (g_total (mol s)) < n_atoms (mol s))%nat ->
  exists s',
    update_accs s = Raised IndexError s' /\
    s' = set_mol (set_atoms (atoms (mol s')) (mol s)) s /\
    length (atoms (mol s')) = length (atoms (mol s)) /\
    (forall i a g,
       nth_error (atoms (mol s)) i = Some a ->
       nth_error (g_total (mol s)) i = Some g ->
       exists a',
         nth_error (atoms (mol s')) i = Some a' /\
         forall j, nth3 (accs a') j = - acc_conv * nth3 g j / mass a /\
                   nth3 (paccs a') j = nth3 (accs a) j) /\
    (forall a,
       nth_error (atoms (mol s)) (length (g_total (mol s))) = Some a ->
       exists a',
         nth_error (atoms (mol s')) (length (g_total (mol s))) = Some a' /\
         accs a' = accs a /\
         paccs a' = mkV3 (c0 (accs a)) (c1 (paccs a)) (c2 (paccs a))) /\
    (forall i,
       (length (g_total (mol s)) < i)%nat ->
       nth_error (atoms (mol s')) i = nth_error (atoms (mol s)) i).
Proof.
  intro Hlen. unfold n_atoms in Hlen.
  destruct (zip_rows_short acc_atom acc_atom_partial
              (atoms (mol s)) (g_total (mol s)) Hlen)
    as (Hok & Hpre & Hat & Hpost).
  pose proof (zip_rows_length acc_atom acc_atom_partial
                (atoms (mol s)) (g_total (mol s))) as Hl.
  unfold update_accs.
  destruct (zip_rows acc_atom acc_atom_partial (atoms (mol s))
              (g_total (mol s))) as [l ok]. simpl in *. subst ok.
  eexists. split; [reflexivity|]. simpl.
  split; [now destruct s|]. split; [exact Hl|]. split; [|split].
  - intros i a g Ha Hg. exists (acc_atom a g).
    split; [now apply Hpre|]. intros []; split; reflexivity.
  - intros a Ha. exists (acc_atom_partial a).
    split; [now apply Hat|]. split; reflexivity.
  - exact Hpost.
Qed.

(** X12.  When the displacement array has fewer rows than the molecule
    has atoms, [disp_coords] raises [IndexError] after it has displaced
    every atom that has a row; the first atom without a row has
    [pcoords[0]] overwritten with [coords[0]] and nothing else; the atoms
    after it are untouched. *)
Theorem disp_coords_short_vector disp_vector s :
  (length disp_vector < n_atoms (mol s))%nat ->
  exists s',
    disp_coords disp_vector s = Raised IndexError s' /\
    s' = set_mol (set_atoms (atoms (mol s')) (mol s)) s /\
    length (atoms (mol s')) = length (atoms (mol s)) /\
    (forall i a d,
       nth_error (atoms (mol s)) i = Some a ->
       nth_error disp_vector i = Some d ->
       exists a',
         nth_error (atoms (mol s')) i = Some a' /\
         forall j, nth3 (coords a') j = nth3 (coords a) j + nth3 d j /\
                   nth3 (pcoords a') j = nth3 (coords a) j) /\
    (forall a,
       nth_error (atoms (mol s)) (length disp_vector) = Some a ->
       exists a',
         nth_error (atoms (mol s')) (length disp_vector) = Some a' /\
         coords a' = coords a /\
         pcoords a' = mkV3 (c0 (coords a)) (c1 (pcoords a)) (c2 (pcoords a))) /\
    (forall i,
       (length disp_vector < i)%nat ->
       nth_error (atoms (mol s')) i = nth_error (atoms (mol s)) i).
Proof.
  intro Hlen. unfold n_atoms in Hlen.
  destruct (zip_rows_short disp_atom disp_atom_partial
              (atoms (mol s)) disp_vector Hlen)
    as (Hok & Hpre & Hat & Hpost).
  pose proof (zip_rows_length disp_atom disp_atom_partial
                (atoms (mol s)) disp_vector) as Hl.
  unfold disp_coords.
  destruct (zip_rows disp_atom disp_atom_partial (atoms (mol s))
              disp_vector) as [l ok]. simpl in *. subst ok.
  eexists. split; [reflexivity|]. simpl.
  split; [now destruct s|]. split; [exact Hl|]. split; [|split].
  - intros i a d Ha Hd. exists (disp_atom a d).
    split; [now apply Hpre|]. intros []; split; reflexivity.
  - intros a Ha. exists (disp_atom_partial a).
    split; [now apply Hat|]. split; reflexivity.
  - exact Hpost.
Qed.

End ShortArrays.

(** The demo molecule before any gradient has been computed. *)
Lemma update_accs_short_gradient_witness :
  let s : Sim float nat := demo_sim demo_eager_cfg in
  exists s', update_accs s = Raised IndexError s' /\
             length (atoms (mol s')) = 1%nat.
Proof.
  intro s.
  destruct (@update_accs_short_gradient float nat _ s)
    as (s' & Hrun & _ & Hl & _);
    [subst s; unfold n_atoms; simpl; lia|].
  exists s'. split; [exact Hrun | exact Hl].
Defined.

(** The demo molecule and an empty displacement. *)
Lemma disp_coords_short_vector_witness :
  let s : Sim float nat := demo_sim demo_eager_cfg in
  exists s', disp_coords [] s = Raised IndexError s' /\
             length (atoms (mol s')) = 1%nat.
Proof.
  intro s.
  destruct (@disp_coords_short_vector float nat _ [] s)
    as (s' & Hrun & _ & Hl & _);
    [subst s; unfold n_atoms; simpl; lia|].
  exists s'. split; [exact Hrun | exact Hl].
Defined.

(** ** Output after the files are closed *)

Section AfterClose.
Context {F Rng : Type} {AF : Arith F} {W : Env F Rng}.
Implicit Types s : Sim F Rng.
Local Open Scope fl_scope.

(** X13.  [close_output_files], called with both files open, returns
    with everything written so far on disk.  After that the object
    refuses output: [print_energy], [print_geom] and a forced check of
    the schedule raise [ValueError] and change nothing; [print_status]
    and a second [close_output_files] raise [ValueError] too, but only
    after the status line has gone to the terminal. *)
Theorem closed_files_refuse_output s :
  files_open s ->
  exists s1,
    close_output_files s = Ok tt s1 /\
    disk (efile s1) = contents (efile s) /\
    disk (gfile s1) = contents (gfile s) /\
    print_energy s1 = Raised ValueError s1 /\
    print_geom s1 = Raised ValueError s1 /\
    (forall ts, check_print_md ts true s1 = Raised ValueError s1) /\
    (forall n_conf, check_print_mc n_conf true s1 = Raised ValueError s1) /\
    print_status s1 =
      Raised ValueError (set_stdout (stdout s1 ++ [stamp s1]) s1) /\
    close_output_files s1 =
      Raised ValueError (set_stdout (stdout s1 ++ [stamp s1]) s1).
Proof.
  intro Hopen.
  pose proof (close_output_files_closes False Hopen) as Hclose.
  apply wp_returns in Hclose
    as ([] & s1 & Hrun & _ & [Hg _] & [He _] & Hdg & Hde).
  exists s1. split; [exact Hrun|]. split; [exact Hde|]. split; [exact Hdg|].
  assert (Hpe : print_energy s1 = Raised ValueError s1).
  { unfold print_energy, write_efile, bind, get. now rewrite He. }
  assert (Hps : print_status s1 =
            Raised ValueError (set_stdout (stdout s1 ++ [stamp s1]) s1)).
  { unfold print_status, flush_gfile, bind, modify, get. simpl.
    now rewrite Hg. }
  split; [exact Hpe|]. split; [|split; [|split; [|split]]].
  - unfold print_geom, write_gfile, bind, get. now rewrite Hg.
  - intro ts. unfold check_print_md, bind at 1, get, bind at 1. simpl.
    unfold bind at 1. now rewrite Hpe.
  - intro n. unfold check_print_mc, bind at 1, get, bind at 1. simpl.
    unfold bind at 1. now rewrite Hpe.
  - exact Hps.
  - unfold close_output_files, bind at 1. now rewrite Hps.
Qed.

End AfterClose.

(** The demo simulation, closed and asked for an energy record. *)
Lemma closed_files_refuse_output_witness :
  let s : Sim float nat := demo_open_sim demo_eager_cfg in
  exists s1,
    close_output_files s = Ok tt s1 /\
    print_energy s1 = Raised ValueError s1.
Proof.
  intro s.
  destruct (closed_files_refuse_output (W := demo_env) (s := s))
    as (s1 & Hrun & _ & _ & Hpe & _); [split; reflexivity|].
  exists s1. split; [exact Hrun | exact Hpe].
Defined.

(** ** Seeds and initial velocities *)

Section Seeding.
Context {F Rng : Type} {AF : Arith F} {W : Env F Rng}.
Implicit Types s : Sim F Rng.
Local Open Scope fl_scope.

Lemma open_output_files_set_rng g s :
  open_output_files (set_rng g s) =
    match open_output_files s with
    | Ok a s' => Ok a (set_rng g s')
    | Raised e s' => Raised e (set_rng g s')
    | OutOfFuel => OutOfFuel
    end.
Proof.
  unfold open_output_files, print_energy_header, write_efile, time_time,
    bind, modify, get. simpl.
  destruct (simtype (cfg s)); reflexivity.
Qed.

Lemma initialize_vels_seeded g s :
  (temp (cfg s) >? dec 0 0) = true ->
  (forall g1 g2, rng_seed (seed (cfg s)) g1 = rng_seed (seed (cfg s)) g2) ->
  initialize_vels (set_rng g s) = initialize_vels s.
Proof.
  intros HT Hseed. unfold initialize_vels, bind, get, modify. simpl.
  rewrite HT. simpl. rewrite (Hseed g (rng s)).
  destruct (draw_vels _ _ _) as [l g']. reflexivity.
Qed.

End Seeding.

Section SeededRuns.
Context {F Rng : Type} {AF : Arith F} {W : Env F Rng} {EF : Elementary F}.
Implicit Types s : Sim F Rng.
Local Open Scope fl_scope.

Lemma open_output_files_cfg s :
  exists s1, open_output_files s = Ok tt s1 /\ cfg s1 = cfg s.
Proof.
  pose proof (open_output_files_opens False s) as Ho.
  apply wp_returns in Ho as ([] & s1 & Hrun & _ & Hr & _).
  exists s1. split; [exact Hrun|].
  apply reports_only_keeps in Hr as (Hc & _). rewrite Hc.
  now destruct (simtype (cfg s)).
Qed.

(** X14.  When seeding puts the generator in a state that does not
    depend on the state it was in -- as [numpy.random.seed] does for an
    integer seed --, the outcome of [run_mc] does not depend on the state
    of the generator on entry, and neither does the outcome of [run_md]
    at a positive temperature: both seed before their first draw. *)
Theorem seeded_runs_forget_generator fuel g s :
  (forall g1 g2, rng_seed (seed (cfg s)) g1 = rng_seed (seed (cfg s)) g2) ->
  run_mc fuel (set_rng g s) = run_mc fuel s /\
  ((temp (cfg s) >? dec 0 0) = true ->
   run_md fuel (set_rng g s) = run_md fuel s).
Proof.
  intro Hseed.
  destruct (open_output_files_cfg s) as (s1 & Hopen & Hc1).
  pose proof (open_output_files_set_rng g s) as Hopen'.
  rewrite Hopen in Hopen'. split.
  - assert (Hstart : mc_start (set_rng g s) = mc_start s).
    { unfold mc_start.
      rewrite !(bind_run open_output_files), Hopen, Hopen'.
      unfold zero_vels, modify, bind. cbv beta iota.
      lazymatch goal with
      | |- ?lhs = ?rhs =>
          lazymatch lhs with
          | context [call_energy standard ?z1] =>
              lazymatch rhs with
              | context [call_energy standard ?z2] =>
                  replace z1 with z2; [reflexivity|]
              end
          end
      end.
      simpl. rewrite Hc1, (Hseed g (rng s1)). now destruct s1. }
    unfold run_mc. rewrite !(bind_run mc_start), Hstart. reflexivity.
  - intro HT.
    assert (Hstart : md_start (set_rng g s) = md_start s).
    { unfold md_start.
      rewrite !(bind_run open_output_files), Hopen, Hopen'.
      rewrite !(bind_run initialize_vels).
      rewrite initialize_vels_seeded; [reflexivity | now rewrite Hc1 |].
      now rewrite Hc1. }
    unfold run_md. rewrite !(bind_run md_start), Hstart. reflexivity.
Qed.

End SeededRuns.

(** The demo world seeds to a fixed state. *)
Lemma seeded_runs_forget_generator_witness :
  run_mc (W := demo_env) 5 (set_rng 7%nat (demo_sim (F := R) demo_done_cfg))
    = run_mc (W := demo_env) 5 (demo_sim (F := R) demo_done_cfg).
Proof.
  assert (Hseed : forall g1 g2 : nat,
            rng_seed (Env := demo_env (F := R))
              (seed (cfg (demo_sim (F := R) demo_done_cfg))) g1
            = rng_seed (Env := demo_env (F := R))
                (seed (cfg (demo_sim (F := R) demo_done_cfg))) g2)
    by (intros g1 g2; reflexivity).
  exact (proj1 (seeded_runs_forget_generator (W := demo_env) 5 7%nat
                  (demo_sim (F := R) demo_done_cfg) Hseed)).
Defined.


Section InitialVelocities.
Context {F Rng : Type} {AF : Arith F} {W : Env F Rng}.
Implicit Types s : Sim F Rng.
Local Open Scope fl_scope.

Lemma draw_vels_overwrites T (v : Atom F -> V3 F) l g :
  draw_vels T (map (fun a => set_vels (v a) a) l) g = draw_vels T l g.
Proof.
  revert g. induction l as [|a l IH]; intro g; [reflexivity|].
  cbn [map draw_vels].
  change (mass (set_vels (v a) a)) with (mass a).
  destruct (rng_normal _ _ g) as [x g1].
  destruct (rng_normal _ _ g1) as [y g2].
  destruct (rng_normal _ _ g2) as [z g3].
  rewrite IH. destruct (draw_vels T l g3) as [l' g']. reflexivity.
Qed.

(** X15.  [initialize_vels] does nothing at all unless [temp > 0.0]: no
    seeding, no draw, no energy evaluation.  With [temp > 0.0] its
    outcome does not depend on the velocities the atoms come with, which
    are overwritten before they are read; and when it returns, [etemp]
    is [temp]. *)
Theorem initialize_vels_overwrites s :
  ((temp (cfg s) >? dec 0 0) = false -> initialize_vels s = Ok tt s) /\
  ((temp (cfg s) >? dec 0 0) = true ->
   (forall v : Atom F -> V3 F,
      initialize_vels (map_atoms (fun a => set_vels (v a) a) s)
        = initialize_vels s) /\
   (forall s', initialize_vels s = Ok tt s' ->
      etemp s' = temp (cfg s) /\ cfg s' = cfg s)).
Proof.
  split.
  - intro HT. unfold initialize_vels, bind, get. now rewrite HT.
  - intro HT. split.
    + intro v. unfold initialize_vels, bind, get, modify. simpl.
      rewrite HT. simpl. rewrite draw_vels_overwrites.
      destruct (draw_vels _ _ _) as [l g']. reflexivity.
    + intros s' Hrun.
      pose proof (initialize_vels_moves True s) as Hm. unfold wp in Hm.
      rewrite Hrun in Hm.
      split; [|now apply moves_only_keeps in Hm as (Hc & _)].
      revert Hrun. unfold initialize_vels, bind, get, modify. simpl.
      rewrite HT. simpl. destruct (draw_vels _ _ _) as [l g'].
      unfold call_energy. simpl.
      destruct (get_energy standard _) as [m [e|]]; [discriminate|].
      intros [= <-]. reflexivity.
Qed.

End InitialVelocities.

(** The demo molecule at the default temperature, with its velocities
    zeroed beforehand or not. *)
Lemma initialize_vels_overwrites_witness :
  let s : Sim float nat := demo_sim (demo_run_cfg md) in
  initialize_vels (W := demo_env)
    (map_atoms (fun a => set_vels zero3 a) s)
    = initialize_vels (W := demo_env) s.
Proof.
  intro s.
  apply (initialize_vels_overwrites (W := demo_env) s). reflexivity.
Defined.


(** ** The layout of the energy file *)

Section TextLemmas.
Import Ascii String.
Local Open Scope string_scope.
Import Text.

Lemma append_nil_r (t : string) : t ++ "" = t.
Proof. induction t as [|c t IH]; simpl; [reflexivity | now rewrite IH]. Qed.

Lemma append_assoc' (a b c : string) : (a ++ b) ++ c = a ++ (b ++ c).
Proof. induction a as [|x a IH]; simpl; [reflexivity | now rewrite IH]. Qed.

Lemma fold_append (l : list string) (r : string) :
  fold_right append "" l ++ r = fold_right append r l.
Proof.
  induction l as [|a l IH]; simpl; [reflexivity|].
  now rewrite append_assoc', IH.
Qed.

Lemma words_from_blanks n r :
  words_from "" (blanks n ++ r) = words_from "" r.
Proof. induction n as [|n IH]; simpl; [reflexivity | exact IH]. Qed.

Lemma words_from_run cur t r :
  no_sep t = true -> words_from cur (t ++ r) = words_from (cur ++ t) r.
Proof.
  revert cur. induction t as [|c t IH]; intros cur Ht; simpl in *.
  - now rewrite append_nil_r.
  - apply andb_true_iff in Ht as [Hc Ht].
    apply negb_true_iff in Hc. rewrite Hc, (IH _ Ht), append_assoc'.
    reflexivity.
Qed.

Lemma words_from_end cur r :
  cur <> "" -> sep_headed r -> words_from cur r = (cur :: words_from "" r)%list.
Proof.
  intros Hcur Hr. destruct r as [|c r]; [contradiction|]. simpl in *.
  rewrite Hr. destruct (String.eqb_spec cur ""); [contradiction|].
  reflexivity.
Qed.

Lemma words_field n k t r :
  token t -> sep_headed r ->
  words_from "" ((blanks n ++ "") ++ (blanks k ++ t) ++ r)
    = (t :: words_from "" r)%list.
Proof.
  intros [Hne Hns] Hr.
  rewrite append_nil_r, words_from_blanks, append_assoc', words_from_blanks.
  rewrite (words_from_run "" t r Hns). simpl.
  now apply words_from_end.
Qed.

Context {F : Type} {PF : Printf F}.

Lemma words_print_val_f w d (x : F) n r :
  token (fmt_f d x) -> sep_headed r ->
  words_from "" (print_val w d x "f" n ++ r)
    = (fmt_f d x :: words_from "" r)%list.
Proof.
  intros Ht Hr. unfold print_val, rjust. simpl.
  rewrite Nat.sub_0_r, append_assoc'. now apply words_field.
Qed.

Lemma words_print_val_e w d (x : F) n r :
  token (fmt_e d x) -> sep_headed r ->
  words_from "" (print_val w d x "e" n ++ r)
    = (fmt_e d x :: words_from "" r)%list.
Proof.
  intros Ht Hr. unfold print_val, rjust. simpl.
  rewrite Nat.sub_0_r, append_assoc'. now apply words_field.
Qed.

End TextLemmas.

Section EnergyFile.
Import Ascii String.
Local Open Scope string_scope.
Import Text.
Context {F Rng : Type} {PF : Printf F} {EF : Elementary F}.
Implicit Types (s : Sim F Rng) (m : Terms F).

(** X16.  With a formatter whose output is never empty and holds no
    blank or newline, as [printf]'s is: the line [print_energy] writes
    reads back, split at blanks, as exactly 15 numbers in a dynamics run
    and 11 in a Monte-Carlo run, in the order listed -- no two fields run
    together, whatever the width of the numbers, since every field but
    the first begins with a blank.  The header [print_energy_header]
    writes is two lines, the second being ['#'] and one label per field:
    [time] followed by [property_keys()] in a dynamics run; in a
    Monte-Carlo run [conf], then [e_pot] over the column that holds
    [mol.e_total], then the nine terms from [e_nonbond] on. *)
Theorem energy_file_columns s m (name : string) :
  (forall p (x : F), token (fmt_f p x) /\ token (fmt_e p x)) ->
  match simtype (cfg s) with
  | md =>
      words (Text.print_energy s m) =
        [fmt_f 4 (time s); fmt_e 5 (e_total (mol s));
         fmt_e 3 (e_kinetic m); fmt_e 3 (e_potential m);
         fmt_e 3 (e_nonbonded m); fmt_e 3 (e_bonded m);
         fmt_e 3 (e_bound m); fmt_e 3 (e_vdw m); fmt_e 3 (e_elst m);
         fmt_e 3 (e_bonds m); fmt_e 3 (e_angles m);
         fmt_e 3 (e_torsions m); fmt_e 3 (e_outofplanes m);
         fmt_f 3 (mol_temp (mol s)); fmt_f 3 (mol_press m)]%list /\
      exists labels,
        Text.print_energy_header s name =
          ("# energy [kcal/mol] of " ++ name ++ " ("
           ++ fmt_f 4 (eqtime (cfg s)) ++ " ps of eq)") ++ nl ++ labels /\
        words labels = ("#" :: "time" :: property_keys)%list
  | mc =>
      words (Text.print_energy s m) =
        [fmt_f 0 (of_int (conf s)); fmt_e 5 (e_total (mol s));
         fmt_e 3 (e_nonbonded m); fmt_e 3 (e_bonded m);
         fmt_e 3 (e_bound m); fmt_e 3 (e_vdw m); fmt_e 3 (e_elst m);
         fmt_e 3 (e_bonds m); fmt_e 3 (e_angles m);
         fmt_e 3 (e_torsions m); fmt_e 3 (e_outofplanes m)]%list /\
      exists labels,
        Text.print_energy_header s name =
          ("# energy [kcal/mol] of " ++ name) ++ nl ++ labels /\
        words labels =
          ["#"; "conf"; "e_pot"; "e_nonbond"; "e_bonded"; "e_boundary";
           "e_vdw"; "e_elst"; "e_bond"; "e_angle"; "e_tors"; "e_oop"]%list
  end.
Proof.
  intro Htok.
  assert (Hf : forall p x, token (fmt_f p x)) by (intros; apply Htok).
  assert (He : forall p x, token (fmt_e p x)) by (intros; apply Htok).
  unfold Text.print_energy, Text.print_energy_header, print_e_terms, words.
  destruct (simtype (cfg s)); split.
  - rewrite fold_append. cbn [map fold_right].
    rewrite (append_assoc' (print_val 8 3 (mol_temp (mol s)) "f" 1)).
    rewrite words_print_val_f;
      [|apply Hf | reflexivity].
    do 12 (rewrite words_print_val_e;
           [|apply He
            |reflexivity]).
    rewrite words_print_val_f; [|apply Hf | reflexivity].
    rewrite words_print_val_f; [|apply Hf | reflexivity].
    reflexivity.
  - eexists. split.
    + rewrite !append_assoc'. reflexivity.
    + reflexivity.
  - rewrite fold_append. cbn [map fold_right skipn].
    rewrite words_print_val_f;
      [|apply Hf | reflexivity].
    do 9 (rewrite words_print_val_e;
          [|apply He | reflexivity]).
    rewrite words_print_val_e; [|apply He | reflexivity].
    reflexivity.
  - eexists. split.
    + rewrite !append_assoc'. reflexivity.
    + reflexivity.
Qed.

End EnergyFile.

(** The demo run with a formatter that prints [0] for every number. *)
Lemma energy_file_columns_witness :
  length
    (Text.words
       (Text.print_energy (PF := Text.demo_printf)
          (demo_sim (F := R) (demo_run_cfg mc)) Text.demo_terms))
    = 11%nat.
Proof.
  pose proof (energy_file_columns (PF := Text.demo_printf)
                (demo_sim (F := R) (demo_run_cfg mc)) Text.demo_terms
                String.EmptyString) as H.
  simpl in H. destruct H as [Hrow _].
  - intros p x. split; split; [discriminate | reflexivity
                              | discriminate | reflexivity].
  - rewrite Hrow. reflexivity.
Defined.
